(** * statin: a synchronous reactive-dependency engine

    Shallow embedding of [src/index.ts]: signals, computed values, the batch
    scheduler ([bulkEffects] / [action]) and the subscription primitives
    ([once] / [reaction]).

    The module-level variables of the source become the fields of one
    [state] record that is threaded through every function.  JavaScript
    closures created by the library ([computedObserver], the observer of
    [once], [onceEffect], [effectWrap], ...) are represented by the identity
    of the object that owns them; closures supplied by the caller are
    programs of type [prog], a tree of library calls with Rocq functions as
    continuations.  Exceptions are an explicit [Raised] outcome; recursion
    through closures is bounded by a fuel argument. *)

From Stdlib Require Import ZArith String Ascii DecimalString.
From stdpp Require Import base option list gmap strings.

Local Open Scope Z_scope.

(** ** Values, errors, identities *)

(** Values held by signals and returned by user functions.  Only primitives
    are modelled, so [!==] is structural inequality. *)
Inductive value : Type :=
| VUndefined
| VNum (n : Z).

Global Instance value_eq_dec : EqDecision value.
Proof. solve_decision. Defined.

Definition value_eqb (a b : value) : bool :=
  match a, b with
  | VUndefined, VUndefined => true
  | VNum x, VNum y => Z.eqb x y
  | _, _ => false
  end.

Definition Z_to_string (z : Z) : string :=
  NilZero.string_of_int (Z.to_int z).

(** Template-literal conversion [`${v}`]. *)
Definition value_to_string (v : value) : string :=
  match v with
  | VUndefined => "undefined"
  | VNum n => Z_to_string n
  end.

(** An [Error] object.  [err_id] is the identity of the object (two errors
    are the same object iff they have the same [err_id]); [err_statin] is
    the [IS_STATIN_ERROR] marker; [err_circular] tells an instance of
    [CircularReactionError] from a plain [Error]. *)
Record error : Type := mkError {
  err_id : nat;
  err_message : string;
  err_statin : bool;
  err_circular : bool
}.

(** Whatever a [throw] statement carries. *)
Inductive exn : Type :=
| ExnError (e : error)
| ExnValue (v : value).

Definition sig_id := nat.
Definition obs_id := nat.
Definition rx_id := nat.

(** [type Dependency = Signal<unknown> | Observer]. *)
Inductive dependency : Type :=
| DepSignal (s : sig_id)
| DepObserver (o : obs_id).

Global Instance dependency_eq_dec : EqDecision dependency.
Proof. solve_decision. Defined.

Global Instance dependency_countable : Countable dependency.
Proof.
  refine (inj_countable'
            (fun d => match d with DepSignal s => inl s | DepObserver o => inr o end)
            (fun x => match x with inl s => DepSignal s | inr o => DepObserver o end) _).
  intros []; reflexivity.
Defined.

(** The three disposer closures of the source:
    [() => clearDependencies(observer)] of [once], the [internalDisposer]
    handed by [once] to its action, and [dispose] of [reaction]. *)
Inductive disposer : Type :=
| DisposeOnce (o : obs_id)
| DisposeInternal (o : obs_id)
| DisposeReaction (r : rx_id).

(** A function object as far as the library looks at it: its
    [displayName || name] (absent or empty when anonymous), its source text
    ([toString()]) and its body. *)
Record fn (A : Type) : Type := Fn {
  fn_name : option string;
  fn_source : string;
  fn_body : A
}.
Arguments Fn {A} _ _ _.
Arguments fn_name {A} _.
Arguments fn_source {A} _.
Arguments fn_body {A} _.

Definition anon {A} (body : A) : fn A := Fn None "" body.
Definition named {A} (name : string) (body : A) : fn A := Fn (Some name) "" body.

(** What user code throws: [throw new Error(msg)], [throw e] for an error
    object it was handed, or [throw v] for a primitive. *)
Inductive throwable : Type :=
| NewError (msg : string)
| Rethrow (e : error)
| ThrowValue (v : value).

(** ** User programs

    The body of a caller-supplied function: a sequence of calls into the
    library, each followed by the rest of the body.  [Log v] stands for an
    observable side effect of user code that touches no signal
    ([results.push(v)], [count++], [t.pass()]). *)
#[local] Unset Elimination Schemes.
Inductive prog : Type :=
| Return (v : value)
| Throw (x : throwable)
| Log (v : value) (k : prog)
| SignalNew (v : value) (k : sig_id -> prog)
| SignalGet (s : sig_id) (k : value -> prog)
| SignalSet (s : sig_id) (v : value) (k : prog)
| SignalChanged (s : sig_id) (k : prog)
| SignalEdit (s : sig_id) (editor : value -> prog) (k : prog)
| ComputedNew (compute : fn (value -> prog)) (k : obs_id -> prog)
| ComputedGet (c : obs_id) (k : value -> prog)
| ActionCall (f : fn prog) (k : value -> prog)
| OnceCall (observe : fn (disposer -> prog)) (effect : fn prog)
           (onError : option (error -> disposer -> prog)) (k : disposer -> prog)
| ReactionCall (action : fn (disposer -> prog))
               (effect : option (fn (value -> disposer -> prog)))
               (immediate : bool)
               (onError : option (error -> disposer -> prog)) (k : disposer -> prog)
| Dispose (d : disposer) (k : prog).
#[local] Set Elimination Schemes.

(** ** Library closures, defunctionalised *)

(** First argument of [once]: a user function, or [actionWrap] of a
    reaction. *)
Inductive once_observe : Type :=
| ObserveUser (f : fn (disposer -> prog))
| ObserveActionWrap (r : rx_id).

(** Second argument of [once]: a user function, or [onceEffect] of a
    reaction. *)
Inductive once_effect : Type :=
| EffectUser (f : fn prog)
| EffectOnceEffect (r : rx_id).

(** [onError] option of [once]: a user handler, or the handler built by
    [createOnceLoop]. *)
Inductive once_onError : Type :=
| OnErrorUser (h : error -> disposer -> prog)
| OnErrorLoop (r : rx_id).

(** Second argument of [handleOrLog]: [errorHandler] of [once]
    ([(error) => onError(error, dispose)]) or the wrapper built by
    [handleError] of a reaction. *)
Inductive handler : Type :=
| HandlerOnce (h : once_onError) (o : obs_id)
| HandlerReaction (h : error -> disposer -> prog) (r : rx_id).

(** First argument of [bulkEffects]: [() => triggerObservers(getSet)] of a
    signal, a user function (with the name it carries), or [onceEffect] of
    a reaction. *)
Inductive bulk_effect : Type :=
| BulkTrigger (s : sig_id)
| BulkProg (name : option string) (body : prog)
| BulkOnceEffect (r : rx_id).

(** [onError] option of [bulkEffects]: absent, the re-throwing handler of
    [action], or the handler built by the observer of [once],
    [(error) => handleOrLog(describeError(error, effectName), errorHandler)]. *)
Inductive bulk_onError : Type :=
| BulkNoHandler
| BulkRethrow
| BulkOnceHandler (effectName : string) (errorHandler : option handler).

(** The state closed over by [computed]. *)
Record computed_cell : Type := mkComputed {
  c_compute : value -> prog;
  c_name : string;
  c_value : value;
  c_hasChanges : bool;
  c_hasError : bool;
  c_error : option error
}.

(** The state closed over by one call of [once]. *)
Record once_cell : Type := mkOnce {
  o_observerName : string;
  o_effect : once_effect;
  o_effectName : string;
  o_onError : option once_onError;
  o_internalDisposerCalled : bool
}.

(** An [Observer] is a function: [computedObserver] of a computed (tagged
    [IS_COMPUTED]) or the [observer] of a [once] call. *)
Inductive observer_cell : Type :=
| ObsComputed (c : computed_cell)
| ObsOnce (o : once_cell).

(** The state closed over by [reaction]. *)
Record reaction_cell : Type := mkReaction {
  rx_action : disposer -> prog;
  rx_effect : option (value -> disposer -> prog);
  rx_onError : option (error -> disposer -> prog);
  rx_actionName : string;
  rx_effectName : string;
  rx_source : string;
  rx_value : value;
  rx_onceDisposer : option obs_id
}.

(** Instrumentation, not present in the source: the engine records each
    call of an observer and each call of a compute function; user code
    records what it [Log]s. *)
Inductive event : Type :=
| EvObserver (o : obs_id)
| EvCompute (c : obs_id)
| EvLog (v : value).

Global Instance event_eq_dec : EqDecision event.
Proof. solve_decision. Defined.

(** ** The counters of [fnName]

    [nameCounters] is a plain object, [{}]: a lookup that finds no own
    property goes on to [Object.prototype].  A counter is a number or
    [NaN]. *)
Inductive counter : Type :=
| CountNum (n : nat)
| CountNaN.

(** The keys of [Object.prototype] (ECMAScript, Annex B included).  All
    hold functions but [__proto__], an accessor that returns
    [Object.prototype] itself: for each of them [nameCounters[key]] is an
    object, so it is truthy and [++] makes [NaN] of it. *)
Definition object_prototype_keys : list string :=
  ["constructor"; "__defineGetter__"; "__defineSetter__"; "hasOwnProperty";
   "__lookupGetter__"; "__lookupSetter__"; "isPrototypeOf"; "propertyIsEnumerable";
   "toString"; "valueOf"; "__proto__"; "toLocaleString"].

Definition inherited (key : string) : bool :=
  bool_decide (key ∈ object_prototype_keys).

(** ** The global state

    [observersStack] has its top at the head of the list.  A JavaScript
    [Set] is a duplicate-free list in insertion order. *)
Record state : Type := mkState {
  observersStack : list obs_id;
  dependencyMap : gmap obs_id (list dependency);
  observerMap : gmap dependency (list obs_id);
  nameCounters : gmap string counter;
  effectQueue : option (list obs_id);
  doNotTrack : bool;
  disallowWrites : bool;
  currentEffect : option bulk_effect;
  reactionsDepthMap : gmap rx_id nat;
  signals : gmap sig_id value;
  observers : gmap obs_id observer_cell;
  reactions : gmap rx_id reaction_cell;
  next_sig : nat;
  next_obs : nat;
  next_rx : nat;
  next_err : nat;
  console : list exn;
  trace : list event
}.

Definition MAX_REACTION_DEPTH : nat := 100.

Definition initial_state : state :=
  {| observersStack := [];
     dependencyMap := ∅;
     observerMap := ∅;
     nameCounters := ∅;
     effectQueue := None;
     doNotTrack := false;
     disallowWrites := false;
     currentEffect := None;
     reactionsDepthMap := ∅;
     signals := ∅;
     observers := ∅;
     reactions := ∅;
     next_sig := 0;
     next_obs := 0;
     next_rx := 0;
     next_err := 0;
     console := [];
     trace := [] |}.

(** ** Field updates *)

Definition set_observersStack (v : list obs_id) (s : state) : state :=
  mkState v (dependencyMap s) (observerMap s) (nameCounters s) (effectQueue s)
    (doNotTrack s) (disallowWrites s) (currentEffect s) (reactionsDepthMap s)
    (signals s) (observers s) (reactions s) (next_sig s) (next_obs s) (next_rx s)
    (next_err s) (console s) (trace s).

Definition set_dependencyMap (v : gmap obs_id (list dependency)) (s : state) : state :=
  mkState (observersStack s) v (observerMap s) (nameCounters s) (effectQueue s)
    (doNotTrack s) (disallowWrites s) (currentEffect s) (reactionsDepthMap s)
    (signals s) (observers s) (reactions s) (next_sig s) (next_obs s) (next_rx s)
    (next_err s) (console s) (trace s).

Definition set_observerMap (v : gmap dependency (list obs_id)) (s : state) : state :=
  mkState (observersStack s) (dependencyMap s) v (nameCounters s) (effectQueue s)
    (doNotTrack s) (disallowWrites s) (currentEffect s) (reactionsDepthMap s)
    (signals s) (observers s) (reactions s) (next_sig s) (next_obs s) (next_rx s)
    (next_err s) (console s) (trace s).

Definition set_nameCounters (v : gmap string counter) (s : state) : state :=
  mkState (observersStack s) (dependencyMap s) (observerMap s) v (effectQueue s)
    (doNotTrack s) (disallowWrites s) (currentEffect s) (reactionsDepthMap s)
    (signals s) (observers s) (reactions s) (next_sig s) (next_obs s) (next_rx s)
    (next_err s) (console s) (trace s).

Definition set_effectQueue (v : option (list obs_id)) (s : state) : state :=
  mkState (observersStack s) (dependencyMap s) (observerMap s) (nameCounters s) v
    (doNotTrack s) (disallowWrites s) (currentEffect s) (reactionsDepthMap s)
    (signals s) (observers s) (reactions s) (next_sig s) (next_obs s) (next_rx s)
    (next_err s) (console s) (trace s).

Definition set_doNotTrack (v : bool) (s : state) : state :=
  mkState (observersStack s) (dependencyMap s) (observerMap s) (nameCounters s)
    (effectQueue s) v (disallowWrites s) (currentEffect s) (reactionsDepthMap s)
    (signals s) (observers s) (reactions s) (next_sig s) (next_obs s) (next_rx s)
    (next_err s) (console s) (trace s).

Definition set_disallowWrites (v : bool) (s : state) : state :=
  mkState (observersStack s) (dependencyMap s) (observerMap s) (nameCounters s)
    (effectQueue s) (doNotTrack s) v (currentEffect s) (reactionsDepthMap s)
    (signals s) (observers s) (reactions s) (next_sig s) (next_obs s) (next_rx s)
    (next_err s) (console s) (trace s).

Definition set_currentEffect (v : option bulk_effect) (s : state) : state :=
  mkState (observersStack s) (dependencyMap s) (observerMap s) (nameCounters s)
    (effectQueue s) (doNotTrack s) (disallowWrites s) v (reactionsDepthMap s)
    (signals s) (observers s) (reactions s) (next_sig s) (next_obs s) (next_rx s)
    (next_err s) (console s) (trace s).

Definition set_reactionsDepthMap (v : gmap rx_id nat) (s : state) : state :=
  mkState (observersStack s) (dependencyMap s) (observerMap s) (nameCounters s)
    (effectQueue s) (doNotTrack s) (disallowWrites s) (currentEffect s) v
    (signals s) (observers s) (reactions s) (next_sig s) (next_obs s) (next_rx s)
    (next_err s) (console s) (trace s).

Definition set_signals (v : gmap sig_id value) (s : state) : state :=
  mkState (observersStack s) (dependencyMap s) (observerMap s) (nameCounters s)
    (effectQueue s) (doNotTrack s) (disallowWrites s) (currentEffect s)
    (reactionsDepthMap s) v (observers s) (reactions s) (next_sig s) (next_obs s)
    (next_rx s) (next_err s) (console s) (trace s).

Definition set_observers (v : gmap obs_id observer_cell) (s : state) : state :=
  mkState (observersStack s) (dependencyMap s) (observerMap s) (nameCounters s)
    (effectQueue s) (doNotTrack s) (disallowWrites s) (currentEffect s)
    (reactionsDepthMap s) (signals s) v (reactions s) (next_sig s) (next_obs s)
    (next_rx s) (next_err s) (console s) (trace s).

Definition set_reactions (v : gmap rx_id reaction_cell) (s : state) : state :=
  mkState (observersStack s) (dependencyMap s) (observerMap s) (nameCounters s)
    (effectQueue s) (doNotTrack s) (disallowWrites s) (currentEffect s)
    (reactionsDepthMap s) (signals s) (observers s) v (next_sig s) (next_obs s)
    (next_rx s) (next_err s) (console s) (trace s).

Definition set_next_sig (v : nat) (s : state) : state :=
  mkState (observersStack s) (dependencyMap s) (observerMap s) (nameCounters s)
    (effectQueue s) (doNotTrack s) (disallowWrites s) (currentEffect s)
    (reactionsDepthMap s) (signals s) (observers s) (reactions s) v (next_obs s)
    (next_rx s) (next_err s) (console s) (trace s).

Definition set_next_obs (v : nat) (s : state) : state :=
  mkState (observersStack s) (dependencyMap s) (observerMap s) (nameCounters s)
    (effectQueue s) (doNotTrack s) (disallowWrites s) (currentEffect s)
    (reactionsDepthMap s) (signals s) (observers s) (reactions s) (next_sig s) v
    (next_rx s) (next_err s) (console s) (trace s).

Definition set_next_rx (v : nat) (s : state) : state :=
  mkState (observersStack s) (dependencyMap s) (observerMap s) (nameCounters s)
    (effectQueue s) (doNotTrack s) (disallowWrites s) (currentEffect s)
    (reactionsDepthMap s) (signals s) (observers s) (reactions s) (next_sig s)
    (next_obs s) v (next_err s) (console s) (trace s).

Definition set_next_err (v : nat) (s : state) : state :=
  mkState (observersStack s) (dependencyMap s) (observerMap s) (nameCounters s)
    (effectQueue s) (doNotTrack s) (disallowWrites s) (currentEffect s)
    (reactionsDepthMap s) (signals s) (observers s) (reactions s) (next_sig s)
    (next_obs s) (next_rx s) v (console s) (trace s).

Definition set_console (v : list exn) (s : state) : state :=
  mkState (observersStack s) (dependencyMap s) (observerMap s) (nameCounters s)
    (effectQueue s) (doNotTrack s) (disallowWrites s) (currentEffect s)
    (reactionsDepthMap s) (signals s) (observers s) (reactions s) (next_sig s)
    (next_obs s) (next_rx s) (next_err s) v (trace s).

Definition set_trace (v : list event) (s : state) : state :=
  mkState (observersStack s) (dependencyMap s) (observerMap s) (nameCounters s)
    (effectQueue s) (doNotTrack s) (disallowWrites s) (currentEffect s)
    (reactionsDepthMap s) (signals s) (observers s) (reactions s) (next_sig s)
    (next_obs s) (next_rx s) (next_err s) (console s) v.

(** Instrumentation: append an event to the trace. *)
Definition emit (e : event) (s : state) : state :=
  set_trace (trace s ++ [e]) s.

(** [console.error(x)]. *)
Definition console_error (x : exn) (s : state) : state :=
  set_console (console s ++ [x]) s.

(** ** JavaScript [Set] as an insertion-ordered list *)

Definition set_add {A} `{EqDecision A} (x : A) (l : list A) : list A :=
  if decide (x ∈ l) then l else l ++ [x].

Definition set_delete {A} `{EqDecision A} (x : A) (l : list A) : list A :=
  filter (fun y => y <> x) l.

(** ** Errors and names *)

(** [new Error(msg)]: a fresh object. *)
Definition new_Error (msg : string) (s : state) : error * state :=
  (mkError (next_err s) msg false false, set_next_err (S (next_err s)) s).

(** [new CircularReactionError(msg)]: the constructor sets the marker. *)
Definition new_CircularReactionError (msg : string) (s : state) : error * state :=
  (mkError (next_err s) msg true true, set_next_err (S (next_err s)) s).

(** The object a [throw] statement of user code throws. *)
Definition thrown (x : throwable) (s : state) : exn * state :=
  match x with
  | NewError msg => let '(e, s1) := new_Error msg s in (ExnError e, s1)
  | Rethrow e => (ExnError e, s)
  | ThrowValue v => (ExnValue v, s)
  end.

(** [describeError(maybeError, source)].  The source updates the message
    and the marker of the error object in place; the object keeps its
    identity. *)
Definition describeError (maybeError : exn) (source : string) (s : state) : error * state :=
  match maybeError with
  | ExnError e =>
      if err_statin e then (e, s)
      else (mkError (err_id e) ("Error in " +:+ source +:+ ": " +:+ err_message e)
                    true (err_circular e), s)
  | ExnValue v =>
      let '(e, s1) := new_Error (value_to_string v) s in
      (mkError (err_id e) ("Error in " +:+ source +:+ ": " +:+ err_message e)
               true (err_circular e), s1)
  end.

Definition nat_to_string (n : nat) : string :=
  NilZero.string_of_uint (Nat.to_uint n).

(** The template literal of [fnName]:
    [nameCounters[fallbackName] ? nameCounters[fallbackName]++ : (nameCounters[fallbackName] = 0)]
    after [fallbackName].  An own counter that is a number other than [0]
    is returned and incremented; [0], [NaN] and [undefined] are falsy and
    the counter is set to [0].  Without an own counter, a key of
    [Object.prototype] is found there: [++] returns [NaN] and stores it as
    an own property, except for [__proto__], whose setter ignores what is
    not an object, so that no own property ever hides it. *)
Definition fallback_name (fallbackName : string) (s : state) : string * state :=
  if decide (fallbackName = "__proto__") then (fallbackName +:+ "NaN", s)
  else
    match nameCounters s !! fallbackName with
    | Some (CountNum (S c)) =>
        (fallbackName +:+ nat_to_string (S c),
         set_nameCounters (<[fallbackName := CountNum (S (S c))]> (nameCounters s)) s)
    | Some (CountNum 0) | Some CountNaN =>
        (fallbackName +:+ nat_to_string 0,
         set_nameCounters (<[fallbackName := CountNum 0]> (nameCounters s)) s)
    | None =>
        if inherited fallbackName then
          (fallbackName +:+ "NaN",
           set_nameCounters (<[fallbackName := CountNaN]> (nameCounters s)) s)
        else
          (fallbackName +:+ nat_to_string 0,
           set_nameCounters (<[fallbackName := CountNum 0]> (nameCounters s)) s)
    end.

(** [fnName(fn, fallbackName)], on the name of [fn] ([None] when [fn] is
    [undefined] or anonymous). *)
Definition fnName (name : option string) (fallbackName : string) (s : state) : string * state :=
  match name with
  | Some n => if decide (n = "") then fallback_name fallbackName s else (n, s)
  | None => fallback_name fallbackName s
  end.

(** ** Dependency registry *)

(** [registerDependency(dependency)]. *)
Definition registerDependency (dep : dependency) (s : state) : state :=
  match observersStack s with
  | [] => s
  | observer :: _ =>
      if doNotTrack s then s
      else
        let observersSet := default [] (observerMap s !! dep) in
        let s1 := set_observerMap (<[dep := set_add observer observersSet]> (observerMap s)) s in
        let dependencySet := default [] (dependencyMap s1 !! observer) in
        set_dependencyMap (<[observer := set_add dep dependencySet]> (dependencyMap s1)) s1
  end.

(** One iteration of the loop of [clearDependencies]. *)
Definition forget_observer (observer : obs_id)
    (om : gmap dependency (list obs_id)) (dep : dependency) : gmap dependency (list obs_id) :=
  match om !! dep with
  | Some trackersSet =>
      let trackersSet' := set_delete observer trackersSet in
      match trackersSet' with
      | [] => delete dep om
      | _ => <[dep := trackersSet']> om
      end
  | None => om
  end.

(** [clearDependencies(observer)]. *)
Definition clearDependencies (observer : obs_id) (s : state) : state :=
  match dependencyMap s !! observer with
  | None => s
  | Some dependencySet =>
      let s1 := set_observerMap (foldl (forget_observer observer) (observerMap s) dependencySet) s in
      set_dependencyMap (delete observer (dependencyMap s1)) s1
  end.

(** ** Outcomes and control flow *)

Inductive outcome (A : Type) : Type :=
| Done (a : A) (s : state)
| Raised (x : exn) (s : state)
| OutOfFuel.
Arguments Done {A} _ _.
Arguments Raised {A} _ _.
Arguments OutOfFuel {A}.

Definition M (A : Type) : Type := state -> outcome A.

Definition ret {A} (a : A) : M A := fun s => Done a s.
Definition raise {A} (x : exn) : M A := fun s => Raised x s.

Definition bind {A B} (m : M A) (k : A -> M B) : M B :=
  fun s =>
    match m s with
    | Done a s1 => k a s1
    | Raised x s1 => Raised x s1
    | OutOfFuel => OutOfFuel
    end.

Notation "'let*' x ':=' m 'in' k" := (bind m (fun x => k))
  (at level 10, x name, m at level 100, k at level 200).
Notation "m ';;' k" := (bind m (fun _ => k))
  (at level 100, k at level 200, right associativity).

Definition modify (f : state -> state) : M unit := fun s => Done tt (f s).

(** [try { m } catch (x) { h x }]. *)
Definition try_catch {A} (m : M A) (h : exn -> M A) : M A :=
  fun s =>
    match m s with
    | Done a s1 => Done a s1
    | Raised x s1 => h x s1
    | OutOfFuel => OutOfFuel
    end.

(** [try { m } finally { fin }]: an exception of [fin] replaces the
    completion of [m]. *)
Definition try_finally {A} (m : M A) (fin : M unit) : M A :=
  fun s =>
    match m s with
    | Done a s1 =>
        match fin s1 with
        | Done _ s2 => Done a s2
        | Raised y s2 => Raised y s2
        | OutOfFuel => OutOfFuel
        end
    | Raised x s1 =>
        match fin s1 with
        | Done _ s2 => Raised x s2
        | Raised y s2 => Raised y s2
        | OutOfFuel => OutOfFuel
        end
    | OutOfFuel => OutOfFuel
    end.

(** [for (let x of l) f(x)]. *)
Fixpoint for_each {A} (f : A -> M unit) (l : list A) : M unit :=
  match l with
  | [] => ret tt
  | x :: l' => f x ;; for_each f l'
  end.

(** Calling something that is not a function, or reading a property of
    [null]: reached only from states or programs that are not well formed. *)
Definition type_error {A} : M A :=
  fun s => let '(e, s1) := new_Error "TypeError" s in Raised (ExnError e) s1.

(** [resumeTrackingWhile(fn)]. *)
Definition resumeTrackingWhile {A} (fn : M A) : M A :=
  fun s =>
    let parentDoNotTrack := doNotTrack s in
    try_finally fn (modify (set_doNotTrack parentDoNotTrack)) (set_doNotTrack false s).

(** ** Cells *)

Definition update_computed (c : obs_id) (f : computed_cell -> computed_cell) (s : state) : state :=
  set_observers
    (alter (fun cell => match cell with
                        | ObsComputed cc => ObsComputed (f cc)
                        | ObsOnce oc => ObsOnce oc
                        end) c (observers s)) s.

Definition update_once (o : obs_id) (f : once_cell -> once_cell) (s : state) : state :=
  set_observers
    (alter (fun cell => match cell with
                        | ObsComputed cc => ObsComputed cc
                        | ObsOnce oc => ObsOnce (f oc)
                        end) o (observers s)) s.

Definition update_reaction (r : rx_id) (f : reaction_cell -> reaction_cell) (s : state) : state :=
  set_reactions (alter f r (reactions s)) s.

Definition with_value (v : value) (c : computed_cell) : computed_cell :=
  mkComputed (c_compute c) (c_name c) v (c_hasChanges c) (c_hasError c) (c_error c).
Definition with_hasChanges (b : bool) (c : computed_cell) : computed_cell :=
  mkComputed (c_compute c) (c_name c) (c_value c) b (c_hasError c) (c_error c).
Definition with_error (b : bool) (e : option error) (c : computed_cell) : computed_cell :=
  mkComputed (c_compute c) (c_name c) (c_value c) (c_hasChanges c) b e.

Definition with_internalDisposerCalled (b : bool) (o : once_cell) : once_cell :=
  mkOnce (o_observerName o) (o_effect o) (o_effectName o) (o_onError o) b.

Definition with_rx_value (v : value) (r : reaction_cell) : reaction_cell :=
  mkReaction (rx_action r) (rx_effect r) (rx_onError r) (rx_actionName r)
    (rx_effectName r) (rx_source r) v (rx_onceDisposer r).
Definition with_onceDisposer (d : option obs_id) (r : reaction_cell) : reaction_cell :=
  mkReaction (rx_action r) (rx_effect r) (rx_onError r) (rx_actionName r)
    (rx_effectName r) (rx_source r) (rx_value r) d.

(** [isComputed(observer)]. *)
Definition isComputed (o : obs_id) (s : state) : bool :=
  match observers s !! o with
  | Some (ObsComputed _) => true
  | _ => false
  end.

(** Calling a disposer.  [onceDisposer] of a reaction is always the
    [dispose] of some [once] call, kept here as that call's observer. *)
Definition call_disposer (d : disposer) (s : state) : state :=
  match d with
  | DisposeOnce o => clearDependencies o s
  | DisposeInternal o => update_once o (with_internalDisposerCalled true) s
  | DisposeReaction r =>
      match reactions s !! r with
      | Some cell =>
          match rx_onceDisposer cell with
          | Some o => clearDependencies o s
          | None => s
          end
      | None => s
      end
  end.

(** The [displayName || name] of the functions the library passes around. *)
Definition bulk_effect_name (e : option bulk_effect) (s : state) : option string :=
  match e with
  | Some (BulkProg name _) => name
  | Some (BulkOnceEffect r) => rx_effectName <$> reactions s !! r
  | Some (BulkTrigger _) => None
  | None => None
  end.

Definition once_observe_name (f : once_observe) (s : state) : option string :=
  match f with
  | ObserveUser f => fn_name f
  | ObserveActionWrap r => rx_actionName <$> reactions s !! r
  end.

Definition once_effect_name (f : once_effect) (s : state) : option string :=
  match f with
  | EffectUser f => fn_name f
  | EffectOnceEffect r => rx_effectName <$> reactions s !! r
  end.

Definition bulk_of_once_effect (f : once_effect) : bulk_effect :=
  match f with
  | EffectUser f => BulkProg (fn_name f) (fn_body f)
  | EffectOnceEffect r => BulkOnceEffect r
  end.

Definition newline : string := String (ascii_of_nat 10) "".

Definition circular_message (cell : reaction_cell) : string :=
  "Circular reaction in " +:+ rx_actionName cell
  +:+ (match rx_effect cell with Some _ => "->" +:+ rx_effectName cell | None => "" end)
  +:+ ":" +:+ newline +:+ "---" +:+ newline +:+ rx_source cell +:+ newline +:+ "---".

(** [signal(value)]. *)
Definition signal_new (v : value) : M sig_id :=
  fun s =>
    let sid := next_sig s in
    Done sid (set_next_sig (S sid) (set_signals (<[sid := v]> (signals s)) s)).

(** [getSet.value]. *)
Definition signal_value (sid : sig_id) (s : state) : value :=
  default VUndefined (signals s !! sid).

(** [getSet.get]. *)
Definition signal_get (sid : sig_id) : M value :=
  fun s =>
    let s1 := registerDependency (DepSignal sid) s in
    Done (signal_value sid s1) s1.

(** [computed(compute)]: everything but the two closures. *)
Definition computed_new (compute : fn (value -> prog)) : M obs_id :=
  fun s =>
    let '(name, s1) := fnName (fn_name compute) "Computed" s in
    let c := next_obs s1 in
    let cell := mkComputed (fn_body compute) name VUndefined true false None in
    Done c (set_next_obs (S c) (set_observers (<[c := ObsComputed cell]> (observers s1)) s1)).

(** ** The engine

    The functions of the source call one another through closures, so they
    are defined in two steps.  Each [*_body] below is the body of one
    source function, written against an [engine]: the same functions with
    one unit less fuel.  [engine_of] then ties the knot by recursion on the
    fuel, which bounds the depth of nested calls and the number of rounds
    of the drain loop. *)

Record engine : Type := Engine {
  k_run : prog -> M value;
  k_signal_set : sig_id -> value -> M unit;
  k_signal_changed : sig_id -> M unit;
  k_signal_edit : sig_id -> (value -> prog) -> M unit;
  k_triggerObservers : dependency -> M unit;
  k_call_observer : obs_id -> M unit;
  k_computedObserver : obs_id -> M unit;
  k_computed_get : obs_id -> M value;
  k_bulkEffects : bulk_effect -> bulk_onError -> M value;
  k_drain : M unit;
  k_handleOrLog : error -> option handler -> M unit;
  k_action : fn prog -> M value;
  k_once : once_observe -> once_effect -> option once_onError -> M obs_id;
  k_once_observer : obs_id -> once_cell -> M unit;
  k_reaction : fn (disposer -> prog) -> option (fn (value -> disposer -> prog)) ->
               bool -> option (error -> disposer -> prog) -> M rx_id;
  k_actionWrap : rx_id -> disposer -> M unit;
  k_effectWrap : rx_id -> M unit;
  k_onceEffect : rx_id -> M unit;
  k_handleError : rx_id -> error -> M unit;
  k_createOnceLoop : rx_id -> M unit
}.

Section Bodies.

Variable E : engine.

(** Running the body of a user function. *)
Definition run_body (p : prog) : M value :=
  match p with
  | Return v => ret v
  | Throw x => fun s => let '(e, s1) := thrown x s in Raised e s1
  | Log v k => modify (emit (EvLog v)) ;; k_run E k
  | SignalNew v k => let* sid := signal_new v in k_run E (k sid)
  | SignalGet sid k => let* v := signal_get sid in k_run E (k v)
  | SignalSet sid v k => k_signal_set E sid v ;; k_run E k
  | SignalChanged sid k => k_signal_changed E sid ;; k_run E k
  | SignalEdit sid editor k => k_signal_edit E sid editor ;; k_run E k
  | ComputedNew compute k => let* c := computed_new compute in k_run E (k c)
  | ComputedGet c k => let* v := k_computed_get E c in k_run E (k v)
  | ActionCall f k => let* v := k_action E f in k_run E (k v)
  | OnceCall observe effect onError k =>
      let* o := k_once E (ObserveUser observe) (EffectUser effect) (OnErrorUser <$> onError) in
      k_run E (k (DisposeOnce o))
  | ReactionCall act effect immediate onError k =>
      let* r := k_reaction E act effect immediate onError in
      k_run E (k (DisposeReaction r))
  | Dispose d k => modify (call_disposer d) ;; k_run E k
  end.

(** [getSet.set] *)
Definition signal_set_body (sid : sig_id) (v : value) : M unit :=
  fun s =>
    if disallowWrites s then
      let '(e, s1) := new_Error "Writing to signals not allowed in this context." s in
      Raised (ExnError e) s1
    else if negb (value_eqb v (signal_value sid s)) then
      k_signal_changed E sid (set_signals (<[sid := v]> (signals s)) s)
    else Done tt s.

(** [getSet.changed] *)
Definition signal_changed_body (sid : sig_id) : M unit :=
  fun s =>
    match effectQueue s with
    | None => (k_bulkEffects E (BulkTrigger sid) BulkNoHandler ;; ret tt) s
    | Some _ => k_triggerObservers E (DepSignal sid) s
    end.

(** [getSet.edit] *)
Definition signal_edit_body (sid : sig_id) (editor : value -> prog) : M unit :=
  fun s => (k_run E (editor (signal_value sid s)) ;; k_signal_changed E sid) s.

(** One iteration of the loop of [triggerObservers]. *)
Definition trigger_one (currentObserver : option obs_id) (observer : obs_id) : M unit :=
  fun s =>
    if decide (Some observer = currentObserver) then Done tt s
    else
      match effectQueue s with
      | Some queue =>
          if isComputed observer s then k_call_observer E observer s
          else Done tt (set_effectQueue (Some (set_add observer queue)) s)
      | None => k_call_observer E observer s
      end.

(** [triggerObservers(dependency)] *)
Definition triggerObservers_body (dep : dependency) : M unit :=
  fun s =>
    let currentObserver := head (observersStack s) in
    match observerMap s !! dep with
    | Some observersSet => for_each (trigger_one currentObserver) observersSet s
    | None => Done tt s
    end.

(** [observer()], for an observer taken from the registry or the queue. *)
Definition call_observer_body (o : obs_id) : M unit :=
  fun s =>
    match observers s !! o with
    | Some (ObsComputed _) => k_computedObserver E o (emit (EvObserver o) s)
    | Some (ObsOnce cell) => k_once_observer E o cell (emit (EvObserver o) s)
    | None => type_error s
    end.

(** [computedObserver] of computed [c] *)
Definition computedObserver_body (c : obs_id) : M unit :=
  modify (update_computed c (with_error false None)) ;;
  modify (update_computed c (with_hasChanges true)) ;;
  modify (clearDependencies c) ;;
  k_triggerObservers E (DepObserver c).

(** The [if (hasChanges) {...}] block of [get] of computed [c]. *)
Definition recompute (c : obs_id) (cell : computed_cell) : M unit :=
  fun s =>
    try_finally
      (try_catch
         (modify (update_computed c (with_error false None)) ;;
          resumeTrackingWhile
            (let* v := k_run E (c_compute cell (c_value cell)) in
             modify (update_computed c (with_value v))))
         (fun error_ s1 =>
            let '(e, s2) := describeError error_ (c_name cell) s1 in
            Done tt (update_computed c (with_error true (Some e)) s2)))
      (modify (set_disallowWrites false) ;;
       modify (update_computed c (with_hasChanges false)) ;;
       modify (fun s1 => set_observersStack (tail (observersStack s1)) s1))
      (emit (EvCompute c)
         (set_disallowWrites true (set_observersStack (c :: observersStack s) s))).

(** The end of [get]: [if (hasError) throw error; return value]. *)
Definition cached_result (c : obs_id) : M value :=
  fun s =>
    match observers s !! c with
    | Some (ObsComputed cell) =>
        if c_hasError cell then
          match c_error cell with
          | Some e => Raised (ExnError e) s
          | None => Raised (ExnValue VUndefined) s
          end
        else Done (c_value cell) s
    | _ => type_error s
    end.

(** [get] of computed [c] *)
Definition computed_get_body (c : obs_id) : M value :=
  modify (registerDependency (DepObserver c)) ;;
  (fun s =>
     match observers s !! c with
     | Some (ObsComputed cell) =>
         if c_hasChanges cell then recompute c cell s else Done tt s
     | _ => type_error s
     end) ;;
  cached_result c.

(** The [while (effectQueue.size > 0)] loop of [bulkEffects]. *)
Definition drain_body : M unit :=
  fun s =>
    match effectQueue s with
    | Some [] => Done tt s
    | Some effects =>
        (for_each (k_call_observer E) effects ;; k_drain E) (set_effectQueue (Some []) s)
    | None => type_error s
    end.

(** [effect()] inside [bulkEffects]. *)
Definition call_bulk_effect (effect : bulk_effect) : M value :=
  match effect with
  | BulkTrigger sid => k_triggerObservers E (DepSignal sid) ;; ret VUndefined
  | BulkProg _ body => k_run E body
  | BulkOnceEffect r => k_onceEffect E r ;; ret VUndefined
  end.

(** The [catch] block of [bulkEffects]. *)
Definition bulk_catch (onError : bulk_onError) (error : exn) : M value :=
  fun s =>
    let '(name, s1) := fnName (bulk_effect_name (currentEffect s) s) "Unknown" s in
    let '(e, s2) := describeError error name s1 in
    match onError with
    | BulkNoHandler => Done VUndefined (console_error (ExnError e) s2)
    | BulkRethrow => Raised (ExnError e) s2
    | BulkOnceHandler effectName errorHandler =>
        let '(e', s3) := describeError (ExnError e) effectName s2 in
        (k_handleOrLog E e' errorHandler ;; ret VUndefined) s3
    end.

(** [bulkEffects(effect, {onError})], with the call [effect()] left open
    as [body]. *)
Definition bulk_frame (effect : bulk_effect) (onError : bulk_onError) (body : M value) : M value :=
  fun s =>
    let isRootEffect := match effectQueue s with None => true | Some _ => false end in
    let s0 :=
      if isRootEffect then set_reactionsDepthMap ∅ (set_effectQueue (Some []) s) else s in
    let parentEffect := currentEffect s0 in
    try_finally
      (try_catch body (bulk_catch onError))
      ((if isRootEffect then
          k_drain E ;;
          modify (set_reactionsDepthMap ∅) ;;
          modify (set_effectQueue None)
        else ret tt) ;;
       modify (set_currentEffect parentEffect))
      (set_currentEffect (Some effect) s0).

(** [bulkEffects(effect, {onError})] *)
Definition bulkEffects_body (effect : bulk_effect) (onError : bulk_onError) : M value :=
  bulk_frame effect onError (call_bulk_effect effect).

(** [onError(error)] inside [handleOrLog]. *)
Definition call_handler (h : handler) (error : error) : M unit :=
  match h with
  | HandlerOnce (OnErrorUser h) o => k_run E (h error (DisposeOnce o)) ;; ret tt
  | HandlerOnce (OnErrorLoop r) o =>
      modify (update_reaction r (with_onceDisposer (Some o))) ;;
      k_handleError E r error
  | HandlerReaction h r => k_run E (h error (DisposeReaction r)) ;; ret tt
  end.

(** [handleOrLog(error, onError)] *)
Definition handleOrLog_body (error : error) (onError : option handler) : M unit :=
  try_catch
    (match onError with
     | Some h => call_handler h error
     | None => raise (ExnError error)
     end)
    (fun x => modify (console_error x)).

(** [action(fn)] *)
Definition action_body (f : fn prog) : M value :=
  fun s =>
    let parentDoNotTrack := doNotTrack s in
    try_finally
      (fun s1 =>
         let '(name, s2) := fnName (fn_name f) "Action" s1 in
         k_bulkEffects E (BulkProg (Some name) (fn_body f)) BulkRethrow s2)
      (modify (set_doNotTrack parentDoNotTrack))
      (set_doNotTrack true s).

(** [observe(internalDisposer)] inside [once]. *)
Definition call_observe (observe : once_observe) (internalDisposer : disposer) : M unit :=
  match observe with
  | ObserveUser f => k_run E (fn_body f internalDisposer) ;; ret tt
  | ObserveActionWrap r => k_actionWrap E r internalDisposer
  end.

(** [if (internalDisposerCalled) dispose()] inside [once]. *)
Definition dispose_if_called (observer : obs_id) : M unit :=
  fun s =>
    match observers s !! observer with
    | Some (ObsOnce oc) =>
        if o_internalDisposerCalled oc then Done tt (clearDependencies observer s)
        else Done tt s
    | _ => Done tt s
    end.

(** [once(observe, effect, {onError})]; the result is the observer whose
    [dispose] the source returns. *)
Definition once_body (observe : once_observe) (effect : once_effect)
    (onError : option once_onError) : M obs_id :=
  fun s =>
    let '(observerName, s1) := fnName (once_observe_name observe s) "OnceObserver" s in
    let '(effectName, s2) := fnName (once_effect_name effect s1) "OnceEffect" s1 in
    let observer := next_obs s2 in
    let errorHandler := (fun h => HandlerOnce h observer) <$> onError in
    let cell := mkOnce observerName effect effectName onError false in
    let s3 := set_next_obs (S observer)
                (set_observers (<[observer := ObsOnce cell]> (observers s2)) s2) in
    (try_finally
       (try_catch
          (resumeTrackingWhile (call_observe observe (DisposeInternal observer)) ;;
           dispose_if_called observer)
          (fun error s4 =>
             let '(e, s5) := describeError error observerName s4 in
             k_handleOrLog E e errorHandler s5))
       (modify (fun s4 => set_observersStack (tail (observersStack s4)) s4)) ;;
     ret observer)
      (set_observersStack (observer :: observersStack s3) s3).

(** The [observer] closure of a [once] call. *)
Definition once_observer_body (o : obs_id) (cell : once_cell) : M unit :=
  modify (clearDependencies o) ;;
  k_bulkEffects E (bulk_of_once_effect (o_effect cell))
    (BulkOnceHandler (o_effectName cell) ((fun h => HandlerOnce h o) <$> o_onError cell)) ;;
  ret tt.

(** [reaction(action, effect, {immediate, onError})]; the result is the
    reaction whose [dispose] the source returns. *)
Definition reaction_body (act : fn (disposer -> prog))
    (effect : option (fn (value -> disposer -> prog)))
    (immediate : bool) (onError : option (error -> disposer -> prog)) : M rx_id :=
  fun s =>
    let '(actionName, s1) :=
      fnName (fn_name act)
             (match effect with Some _ => "ReactionAction" | None => "Reaction" end) s in
    let '(effectName, s2) := fnName (effect ≫= fn_name) "ReactionEffect" s1 in
    let r := next_rx s2 in
    let cell :=
      mkReaction (fn_body act) (fn_body <$> effect) onError actionName effectName
        (match effect with Some e => fn_source e | None => fn_source act end)
        VUndefined None in
    (k_createOnceLoop E r ;;
     (if immediate then k_effectWrap E r else ret tt) ;;
     ret r)
      (set_next_rx (S r) (set_reactions (<[r := cell]> (reactions s2)) s2)).

(** [actionWrap] of reaction [r] *)
Definition actionWrap_body (r : rx_id) (dispose : disposer) : M unit :=
  fun s =>
    match reactions s !! r with
    | Some cell =>
        (let* v := k_run E (rx_action cell dispose) in
         modify (update_reaction r (with_rx_value v))) s
    | None => type_error s
    end.

(** [effectWrap] of reaction [r] *)
Definition effectWrap_body (r : rx_id) : M unit :=
  fun s =>
    match reactions s !! r with
    | Some cell =>
        match rx_effect cell with
        | Some effect =>
            try_catch
              (k_run E (effect (rx_value cell) (DisposeReaction r)) ;; ret tt)
              (fun error s1 =>
                 let '(e, s2) := describeError error (rx_effectName cell) s1 in
                 k_handleError E r e s2)
              s
        | None => Done tt s
        end
    | None => type_error s
    end.

(** [onceEffect] of reaction [r] *)
Definition onceEffect_body (r : rx_id) : M unit :=
  fun s =>
    match reactions s !! r with
    | Some cell =>
        let stackSize := default 0%nat (reactionsDepthMap s !! r) in
        if Nat.ltb MAX_REACTION_DEPTH stackSize then
          let '(e, s1) := new_CircularReactionError (circular_message cell) s in
          Raised (ExnError e) s1
        else
          (k_createOnceLoop E r ;; k_effectWrap E r)
            (set_reactionsDepthMap (<[r := S stackSize]> (reactionsDepthMap s)) s)
    | None => type_error s
    end.

(** [handleError] of reaction [r] *)
Definition handleError_body (r : rx_id) (error : error) : M unit :=
  fun s =>
    match reactions s !! r with
    | Some cell =>
        k_handleOrLog E error ((fun h => HandlerReaction h r) <$> rx_onError cell) s
    | None => type_error s
    end.

(** [createOnceLoop] of reaction [r] *)
Definition createOnceLoop_body (r : rx_id) : M unit :=
  let* o := k_once E (ObserveActionWrap r) (EffectOnceEffect r) (Some (OnErrorLoop r)) in
  modify (update_reaction r (with_onceDisposer (Some o))).

(** The engine with one more unit of fuel. *)
Definition engine_step : engine :=
  {| k_run := run_body;
     k_signal_set := signal_set_body;
     k_signal_changed := signal_changed_body;
     k_signal_edit := signal_edit_body;
     k_triggerObservers := triggerObservers_body;
     k_call_observer := call_observer_body;
     k_computedObserver := computedObserver_body;
     k_computed_get := computed_get_body;
     k_bulkEffects := bulkEffects_body;
     k_drain := drain_body;
     k_handleOrLog := handleOrLog_body;
     k_action := action_body;
     k_once := once_body;
     k_once_observer := once_observer_body;
     k_reaction := reaction_body;
     k_actionWrap := actionWrap_body;
     k_effectWrap := effectWrap_body;
     k_onceEffect := onceEffect_body;
     k_handleError := handleError_body;
     k_createOnceLoop := createOnceLoop_body |}.

End Bodies.

Definition out_of_fuel {A} : M A := fun _ => OutOfFuel.

(** The engine without fuel: every call gives up. *)
Definition engine_zero : engine :=
  {| k_run := fun _ => out_of_fuel;
     k_signal_set := fun _ _ => out_of_fuel;
     k_signal_changed := fun _ => out_of_fuel;
     k_signal_edit := fun _ _ => out_of_fuel;
     k_triggerObservers := fun _ => out_of_fuel;
     k_call_observer := fun _ => out_of_fuel;
     k_computedObserver := fun _ => out_of_fuel;
     k_computed_get := fun _ => out_of_fuel;
     k_bulkEffects := fun _ _ => out_of_fuel;
     k_drain := out_of_fuel;
     k_handleOrLog := fun _ _ => out_of_fuel;
     k_action := fun _ => out_of_fuel;
     k_once := fun _ _ _ => out_of_fuel;
     k_once_observer := fun _ _ => out_of_fuel;
     k_reaction := fun _ _ _ _ => out_of_fuel;
     k_actionWrap := fun _ _ => out_of_fuel;
     k_effectWrap := fun _ => out_of_fuel;
     k_onceEffect := fun _ => out_of_fuel;
     k_handleError := fun _ _ => out_of_fuel;
     k_createOnceLoop := fun _ => out_of_fuel |}.

Fixpoint engine_of (fuel : nat) : engine :=
  match fuel with
  | O => engine_zero
  | S n => engine_step (engine_of n)
  end.

(** The functions of the source, at a given fuel. *)
Definition run (fuel : nat) : prog -> M value := k_run (engine_of fuel).
Definition signal_set (fuel : nat) : sig_id -> value -> M unit := k_signal_set (engine_of fuel).
Definition signal_changed (fuel : nat) : sig_id -> M unit := k_signal_changed (engine_of fuel).
Definition signal_edit (fuel : nat) : sig_id -> (value -> prog) -> M unit :=
  k_signal_edit (engine_of fuel).
Definition triggerObservers (fuel : nat) : dependency -> M unit :=
  k_triggerObservers (engine_of fuel).
Definition call_observer (fuel : nat) : obs_id -> M unit := k_call_observer (engine_of fuel).
Definition computed_get (fuel : nat) : obs_id -> M value := k_computed_get (engine_of fuel).
Definition bulkEffects (fuel : nat) : bulk_effect -> bulk_onError -> M value :=
  k_bulkEffects (engine_of fuel).
Definition handleOrLog (fuel : nat) : error -> option handler -> M unit :=
  k_handleOrLog (engine_of fuel).
Definition action (fuel : nat) : fn prog -> M value := k_action (engine_of fuel).
Definition once_observer (fuel : nat) : obs_id -> once_cell -> M unit :=
  k_once_observer (engine_of fuel).
Definition actionWrap (fuel : nat) : rx_id -> disposer -> M unit := k_actionWrap (engine_of fuel).
Definition effectWrap (fuel : nat) : rx_id -> M unit := k_effectWrap (engine_of fuel).
Definition onceEffect (fuel : nat) : rx_id -> M unit := k_onceEffect (engine_of fuel).
Definition handleError (fuel : nat) : rx_id -> error -> M unit := k_handleError (engine_of fuel).
Definition createOnceLoop (fuel : nat) : rx_id -> M unit := k_createOnceLoop (engine_of fuel).

(** ** Observations *)

Definition state_of {A} (o : outcome A) : option state :=
  match o with
  | Done _ s => Some s
  | Raised _ s => Some s
  | OutOfFuel => None
  end.

Definition returned {A} (o : outcome A) : option A :=
  match o with
  | Done a _ => Some a
  | _ => None
  end.

Definition raised {A} (o : outcome A) : option exn :=
  match o with
  | Raised x _ => Some x
  | _ => None
  end.

(** What user code logged, oldest first. *)
Definition logged (s : state) : list value :=
  omap (fun e => match e with EvLog v => Some v | _ => None end) (trace s).

(** How many times the compute function of [c] was called. *)
Definition compute_calls (c : obs_id) (t : list event) : nat :=
  length (filter (fun e => e = EvCompute c) t).

(** How many times observer [o] was called. *)
Definition observer_calls (o : obs_id) (t : list event) : nat :=
  length (filter (fun e => e = EvObserver o) t).

Definition skip : prog := Return VUndefined.

(** * Definitions for the properties *)

Local Close Scope Z_scope.

(** ** Writes that change the value *)

(** [getSet.value = value], the assignment inside [getSet.set]. *)
Definition store (sid : sig_id) (v : value) (s : state) : state :=
  set_signals (<[sid := v]> (signals s)) s.


(** ** [once]: fires at most once *)

(** [once(() => { x(); y() }, () => log(1))] on two fresh signals. *)
Definition once_tracking (x0 y0 : value) : prog :=
  SignalNew x0 (fun x => SignalNew y0 (fun y =>
  OnceCall (anon (fun _ => SignalGet x (fun _ => SignalGet y (fun _ => skip))))
           (anon (Log (VNum 1) skip)) None (fun _ => skip))).

Definition once_tracking_1 (x0 y0 : value) : state :=
  Eval vm_compute in
    default initial_state (state_of (run 10 (once_tracking x0 y0) initial_state)).

(** After [y(y1)]. *)
Definition once_tracking_2 (x0 y0 y1 : value) : state :=
  Eval vm_compute in
    default initial_state
      (state_of ((signal_changed 10 1%nat ;; run 11 skip)
                   (store 1%nat y1 (once_tracking_1 x0 y0)))).

(** [once((dispose) => { x(); dispose(); y() }, () => log(1))]. *)
Definition once_disposing (x0 y0 : value) : prog :=
  SignalNew x0 (fun x => SignalNew y0 (fun y =>
  OnceCall (anon (fun dispose =>
                    SignalGet x (fun _ => Dispose dispose (SignalGet y (fun _ => skip)))))
           (anon (Log (VNum 1) skip)) None (fun _ => skip))).

(** Two [once] on [x]; the effect of the first writes [y], which the
    second also reads:
    [once(() => x(), () => y(y1)); once(() => { x(); y() }, () => log(1))]. *)
Definition once_twice (x0 y0 y1 : value) : prog :=
  SignalNew x0 (fun x => SignalNew y0 (fun y =>
  OnceCall (anon (fun _ => SignalGet x (fun _ => skip))) (anon (SignalSet y y1 skip)) None
    (fun _ =>
  OnceCall (anon (fun _ => SignalGet x (fun _ => SignalGet y (fun _ => skip))))
           (anon (Log (VNum 1) skip)) None (fun _ => skip)))).

(** The action reads [x], calls its disposer and then sets up a second
    [once] whose action writes [x]:
    [once((dispose) => { x(); dispose(); once(() => x(x1), () => {}) }, () => log(1))]. *)
Definition once_disposed_late (x0 x1 : value) : prog :=
  SignalNew x0 (fun x =>
  OnceCall (anon (fun dispose =>
              SignalGet x (fun _ => Dispose dispose
              (OnceCall (anon (fun _ => SignalSet x x1 skip)) (anon skip) None
                 (fun _ => skip)))))
           (anon (Log (VNum 1) skip)) None (fun _ => skip)).

(** ** A diamond: one signal, two computeds, one reaction *)





(** ** An action that writes and then throws *)





(** ** The two transient flags around a nested computed *)

(** [a = signal(1); inner = computed(() => 5);
    guarded = computed(() => { a(3); return 9 });
    outer = computed(() => { inner(); a(2); return 9 })]:
    signal 0 and computeds 0, 1 and 2. *)
Definition nested_setup : prog :=
  SignalNew (VNum 1) (fun a =>
  ComputedNew (named "inner" (fun _ => Return (VNum 5))) (fun inner =>
  ComputedNew (named "guarded" (fun _ => SignalSet a (VNum 3) (Return (VNum 9)))) (fun _ =>
  ComputedNew (named "outer" (fun _ =>
     ComputedGet inner (fun _ => SignalSet a (VNum 2) (Return (VNum 9))))) (fun _ =>
  skip)))).

Definition nested_1 : state :=
  Eval vm_compute in default initial_state (state_of (run 20 nested_setup initial_state)).

(** ** The reentry ceiling of a reaction *)

Definition succ_value (v : value) : value :=
  match v with
  | VNum n => VNum (n + 1)%Z
  | VUndefined => VUndefined
  end.

(** What the handlers of the scenarios log: [-1] for a
    [CircularReactionError], [-2] for any other error. *)
Definition log_error (e : error) : prog :=
  Log (if err_circular e then VNum (-1) else VNum (-2)) skip.

(** [count = signal(-1);
    reaction(() => count(), (c) => { log(c + 1); count(c + 1) }, {onError})] *)
Definition circular_setup : prog :=
  SignalNew (VNum (-1)) (fun count =>
  ReactionCall
    (named "myAction" (fun _ => SignalGet count (fun c => Return c)))
    (Some (named "myEffect" (fun c _ =>
             Log (succ_value c) (SignalSet count (succ_value c) skip))))
    false
    (Some (fun e _ => log_error e))
    (fun _ => skip)).

(** The same, with an effect that stops rewriting at [bound]:
    [(c) => { log(c); if (c < bound) count(c + 1) }]. *)
Definition bounded_setup (bound : Z) : prog :=
  SignalNew (VNum (-1)) (fun count =>
  ReactionCall
    (named "myAction" (fun _ => SignalGet count (fun c => Return c)))
    (Some (named "myEffect" (fun c _ =>
             Log c (match c with
                    | VNum n => if (n <? bound)%Z then SignalSet count (VNum (n + 1)) skip else skip
                    | VUndefined => skip
                    end))))
    false
    (Some (fun e _ => log_error e))
    (fun _ => skip)).

(** [() => count(0)] *)
Definition kick : fn prog := anon (SignalSet 0%nat (VNum 0) skip).

Definition circular_1 : state :=
  Eval vm_compute in default initial_state (state_of (run 20 circular_setup initial_state)).
Definition circular_2 : state :=
  Eval vm_compute in default initial_state (state_of (action 130 kick circular_1)).

Definition bounded_1 : state :=
  Eval vm_compute in default initial_state (state_of (run 20 (bounded_setup 60) initial_state)).
Definition bounded_2 : state :=
  Eval vm_compute in default initial_state (state_of (action 130 kick bounded_1)).
Definition bounded_3 : state :=
  Eval vm_compute in default initial_state (state_of (action 130 kick bounded_2)).

(** ** Notification with a batch open *)

(** The state changes of [computedObserver] before it passes the
    notification on. *)
Definition invalidate (c : obs_id) (s : state) : state :=
  clearDependencies c
    (update_computed c (with_hasChanges true)
       (update_computed c (with_error false None) s)).

(** [effectQueue.add(observer)] *)
Definition enqueue (o : obs_id) (s : state) : state :=
  set_effectQueue (Some (set_add o (default [] (effectQueue s)))) s.

(** The states a notification that spares [current] goes through: a plain
    observer is put on the queue, a computed observer is called, which
    invalidates its computed. *)
Inductive cascade (current : option obs_id) : state -> state -> Prop :=
| cascade_refl s : cascade current s s
| cascade_enqueue s s' o :
    Some o <> current -> isComputed o s = false ->
    cascade current (enqueue o s) s' -> cascade current s s'
| cascade_invalidate s s' o :
    Some o <> current -> isComputed o s = true ->
    cascade current (invalidate o (emit (EvObserver o) s)) s' -> cascade current s s'.

Definition queued (o : obs_id) (s : state) : Prop := o ∈ default [] (effectQueue s).


(** The outcome of a notification: a cascade, never an exception. *)
Definition cascades {A} (cur : option obs_id) (s : state) (o : outcome A) : Prop :=
  match o with
  | Done _ s' => cascade cur s s'
  | Raised _ _ => False
  | OutOfFuel => True
  end.

Definition notifying (cur : option obs_id) (s : state) : Prop :=
  is_Some (effectQueue s) /\ head (observersStack s) = cur.

(** Observer [o] has been delivered between [s] and [s']: called when it
    is a computed observer, on the queue otherwise. *)
Definition delivers (o : obs_id) (s s' : state) : Prop :=
  if isComputed o s
  then (observer_calls o (trace s) < observer_calls o (trace s'))%nat
  else queued o s'.

(** ** The registry is symmetric *)

Definition observers_of (s : state) (d : dependency) : list obs_id :=
  default [] (observerMap s !! d).

Definition deps_of (s : state) (o : obs_id) : list dependency :=
  default [] (dependencyMap s !! o).

(** Every edge of the reverse map is in the forward map. *)
Definition symmetric (s : state) : Prop :=
  forall d o, o ∈ observers_of s d -> d ∈ deps_of s o.

(** ** Notification terminates *)

(** Every observer in the reverse map is in [A]. *)
Definition bounded_by (A : gset obs_id) (s : state) : Prop :=
  forall d o, o ∈ observers_of s d -> o ∈ A.

(** ** A notification in the middle of an evaluation *)

(** A state in the middle of the evaluation of observer 2, with a batch
    open: signal 0 is observed by a [once] (observer 1), by the computed
    [B = f(a)] (observer 0) and by observer 2 itself, which also observes
    [B]. *)
Definition notify_setup (f : value -> value) : prog :=
  SignalNew (VNum 1) (fun a =>
  ComputedNew (anon (fun _ => SignalGet a (fun x => Return (f x)))) (fun B =>
  OnceCall (anon (fun _ => SignalGet a (fun _ => skip))) (anon (Log (VNum 1) skip)) None (fun _ =>
  OnceCall (anon (fun _ => SignalGet a (fun _ => ComputedGet B (fun _ => skip))))
           (anon (Log (VNum 2) skip)) None (fun _ => skip)))).

Definition notify_1 : state :=
  Eval vm_compute in
    set_effectQueue (Some [])
      (set_observersStack [2%nat]
         (default initial_state (state_of (run 20 (notify_setup succ_value) initial_state)))).

Definition notify_2 : state :=
  Eval vm_compute in
    default initial_state (state_of (triggerObservers 10 (DepSignal 0%nat) notify_1)).

(** ** Relations that every step of the engine respects *)

#[local] Set Implicit Arguments.
(** [R] is a preorder that holds across each elementary state change. *)
Record respected (R : state -> state -> Prop) : Prop := {
  R_refl : forall s, R s s;
  R_trans : forall s1 s2 s3, R s1 s2 -> R s2 s3 -> R s1 s3;
  R_observersStack : forall v s, R s (set_observersStack v s);
  R_nameCounters : forall v s, R s (set_nameCounters v s);
  R_effectQueue : forall v s, R s (set_effectQueue v s);
  R_doNotTrack : forall v s, R s (set_doNotTrack v s);
  R_disallowWrites : forall v s, R s (set_disallowWrites v s);
  R_currentEffect : forall v s, R s (set_currentEffect v s);
  R_reactionsDepthMap : forall v s, R s (set_reactionsDepthMap v s);
  R_signals : forall v s, R s (set_signals v s);
  R_next_sig : forall v s, R s (set_next_sig v s);
  R_next_err : forall s, R s (set_next_err (S (next_err s)) s);
  R_console : forall v s, R s (set_console v s);
  R_trace : forall v s, R s (set_trace v s);
  R_registerDependency : forall d s, R s (registerDependency d s);
  R_clearDependencies : forall o s, R s (clearDependencies o s);
  R_update_computed : forall c f s,
      (forall cell, c_compute (f cell) = c_compute cell /\ c_name (f cell) = c_name cell) ->
      R s (update_computed c f s);
  R_update_once : forall o b s, R s (update_once o (with_internalDisposerCalled b) s);
  R_update_reaction : forall r f s, R s (update_reaction r f s);
  R_new_observer : forall cell s,
      R s (set_next_obs (S (next_obs s)) (set_observers (<[next_obs s := cell]> (observers s)) s));
  R_new_reaction : forall cell s,
      R s (set_next_rx (S (next_rx s)) (set_reactions (<[next_rx s := cell]> (reactions s)) s))
}.
#[local] Unset Implicit Arguments.

(** [m] preserves whatever [R] relates to its start state. *)
Definition keeps (R : state -> state -> Prop) {A} (m : M A) : Prop :=
  forall s0 s, R s0 s ->
    match m s with
    | Done _ s' => R s0 s'
    | Raised _ s' => R s0 s'
    | OutOfFuel => True
    end.

#[local] Set Implicit Arguments.
(** Every function of the engine keeps [R]. *)
Record engine_keeps (R : state -> state -> Prop) (E : engine) : Prop := {
  keeps_run : forall p, keeps R (k_run E p);
  keeps_signal_set : forall sid v, keeps R (k_signal_set E sid v);
  keeps_signal_changed : forall sid, keeps R (k_signal_changed E sid);
  keeps_signal_edit : forall sid ed, keeps R (k_signal_edit E sid ed);
  keeps_triggerObservers : forall dep, keeps R (k_triggerObservers E dep);
  keeps_call_observer : forall o, keeps R (k_call_observer E o);
  keeps_computedObserver : forall c, keeps R (k_computedObserver E c);
  keeps_computed_get : forall c, keeps R (k_computed_get E c);
  keeps_bulkEffects : forall e h, keeps R (k_bulkEffects E e h);
  keeps_drain : keeps R (k_drain E);
  keeps_handleOrLog : forall e h, keeps R (k_handleOrLog E e h);
  keeps_action : forall f, keeps R (k_action E f);
  keeps_once : forall a b c, keeps R (k_once E a b c);
  keeps_once_observer : forall o cell, keeps R (k_once_observer E o cell);
  keeps_reaction : forall a b c d, keeps R (k_reaction E a b c d);
  keeps_actionWrap : forall r d, keeps R (k_actionWrap E r d);
  keeps_effectWrap : forall r, keeps R (k_effectWrap E r);
  keeps_onceEffect : forall r, keeps R (k_onceEffect E r);
  keeps_handleError : forall r e, keeps R (k_handleError E r e);
  keeps_createOnceLoop : forall r, keeps R (k_createOnceLoop E r)
}.
#[local] Unset Implicit Arguments.

(** ** Two invariants of the engine *)

(** The registry stays symmetric. *)
Definition keeps_symmetric (s s' : state) : Prop := symmetric s -> symmetric s'.

(** Two cells that are the same closure: a computed keeps its compute
    function and its name, the observer of a [once] call everything but
    the flag of its internal disposer. *)
Definition same_closure (a b : observer_cell) : Prop :=
  match a, b with
  | ObsComputed x, ObsComputed y => c_compute x = c_compute y /\ c_name x = c_name y
  | ObsOnce x, ObsOnce y =>
      o_observerName x = o_observerName y /\ o_effect x = o_effect y /\
      o_effectName x = o_effectName y /\ o_onError x = o_onError y
  | _, _ => False
  end.

(** No cell lies beyond the allocation counter. *)
Definition allocated (s : state) : Prop :=
  forall o, next_obs s <= o -> observers s !! o = None.

(** Cells are never dropped and never change into another closure. *)
Definition keeps_cells (s s' : state) : Prop :=
  allocated s ->
  allocated s' /\
  forall o cell, observers s !! o = Some cell ->
    exists cell', observers s' !! o = Some cell' /\ same_closure cell cell'.

(** ** The cache of a computed *)

(** What a read serves from the cache. *)
Definition cache_of (cell : computed_cell) : value + exn :=
  if c_hasError cell then
    inr (match c_error cell with
         | Some e => ExnError e
         | None => ExnValue VUndefined
         end)
  else inl (c_value cell).

Definition result_of {A} (o : outcome A) : option (A + exn) :=
  match o with
  | Done a _ => Some (inl a)
  | Raised x _ => Some (inr x)
  | OutOfFuel => None
  end.

(** [times] reads of computed [c] in a row: what each returned or threw,
    and the state after the last. *)
Fixpoint read_times (fuel : nat) (c : obs_id) (times : nat) (s : state)
    : option (list (value + exn) * state) :=
  match times with
  | O => Some ([], s)
  | S t =>
      let o := computed_get fuel c s in
      match result_of o, state_of o with
      | Some r, Some s' =>
          match read_times fuel c t s' with
          | Some (rs, s'') => Some (r :: rs, s'')
          | None => None
          end
      | _, _ => None
      end
  end.

(** The last step of the evaluation of a computed: [disallowWrites = false;
    hasChanges = false; observersStack.pop()]. *)
Definition compute_exit (c : obs_id) (s : state) : state :=
  set_observersStack (tail (observersStack s))
    (update_computed c (with_hasChanges false) (set_disallowWrites false s)).

(** [c = computed(() => x() + y())] on two signals; signals 0 and 1,
    computed 0. *)
Definition add_values (a b : value) : value :=
  match a, b with
  | VNum m, VNum n => VNum (m + n)%Z
  | _, _ => VUndefined
  end.

Definition sum_setup : prog :=
  SignalNew (VNum 1) (fun x => SignalNew (VNum 2) (fun y =>
  ComputedNew (named "sum" (fun _ =>
     SignalGet x (fun a => SignalGet y (fun b => Return (add_values a b)))))
    (fun _ => skip))).

Definition sum_0 : state :=
  Eval vm_compute in default initial_state (state_of (run 20 sum_setup initial_state)).
Definition sum_1 : state :=
  Eval vm_compute in default initial_state (state_of (computed_get 10 0%nat sum_0)).

(** ** A computed that throws *)









(** ** [edit] and [changed] while writes are disallowed *)

(** [s = signal(1); once(() => s(), () => log(7));
    viaEdit = computed(() => { s.edit((v) => log(v)); return 5 });
    viaChanged = computed(() => { s.changed(); return 6 });
    viaWrite = computed(() => { s(2); return 9 })]:
    signal 0, the observer of the [once] is number 0 and the computeds are
    numbers 1, 2 and 3. *)
Definition guard_setup : prog :=
  SignalNew (VNum 1) (fun s =>
  OnceCall (anon (fun _ => SignalGet s (fun _ => skip))) (anon (Log (VNum 7) skip)) None (fun _ =>
  ComputedNew (named "viaEdit" (fun _ =>
     SignalEdit s (fun v => Log v skip) (Return (VNum 5)))) (fun _ =>
  ComputedNew (named "viaChanged" (fun _ => SignalChanged s (Return (VNum 6)))) (fun _ =>
  ComputedNew (named "viaWrite" (fun _ => SignalSet s (VNum 2) (Return (VNum 9)))) (fun _ =>
  skip))))).

Definition guard_0 : state :=
  Eval vm_compute in default initial_state (state_of (run 20 guard_setup initial_state)).

(** The state of [guard_setup] with writes disallowed and a batch open. *)
Definition guard_1 : state :=
  Eval vm_compute in set_effectQueue (Some []) (set_disallowWrites true guard_0).

(** ** The registry: edges, disposal, consistency *)

(** The two maps mirror each other and hold no empty set and no
    duplicate. *)
Record consistent (s : state) : Prop := {
  cs_forward : forall d o, o ∈ observers_of s d -> d ∈ deps_of s o;
  cs_backward : forall d o, d ∈ deps_of s o -> o ∈ observers_of s d;
  cs_observers : forall d l, observerMap s !! d = Some l -> l <> [] /\ NoDup l;
  cs_dependencies : forall o l, dependencyMap s !! o = Some l -> l <> [] /\ NoDup l
}.

Definition keeps_consistent (s s' : state) : Prop := consistent s -> consistent s'.

(** [o] is [observersStack[observersStack.length - 1]] and tracking is
    on. *)
Definition tracking (o : obs_id) (s : state) : Prop :=
  head (observersStack s) = Some o /\ doNotTrack s = false.

(** ** What every call into the library leaves behind *)

(** A batch is open. *)
Definition is_open (q : option (list obs_id)) : bool :=
  match q with Some _ => true | None => false end.

Definition batching (s : state) : bool := is_open (effectQueue s).

(** Observer [o] exists. *)
Definition known (s : state) (o : obs_id) : Prop := is_Some (observers s !! o).

(** Every observer the engine can reach exists, and the counters of
    [fnName] are where the code leaves them. *)
Record well_formed (s : state) : Prop := {
  wf_allocated : allocated s;
  wf_stack : forall o, o ∈ observersStack s -> known s o;
  wf_registry : forall d o, o ∈ observers_of s d -> known s o;
  wf_queue : forall o, queued o s -> known s o;
  wf_names : forall k c, nameCounters s !! k = Some c ->
             c = CountNum 0 \/ (c = CountNaN /\ inherited k = true)
}.

(** What only grows: cells stay the closures they are, reactions stay, the
    trace is extended. *)
Record evolves (s s' : state) : Prop := {
  ev_cells : forall o cell, observers s !! o = Some cell ->
             exists cell', observers s' !! o = Some cell' /\ same_closure cell cell';
  ev_reactions : forall r, is_Some (reactions s !! r) -> is_Some (reactions s' !! r);
  ev_trace : trace s `prefix_of` trace s'
}.

(** Inside a batch: the batch stays open, what is on the queue stays
    there, and no observer other than a computed one is called. *)
Record deferring (s s' : state) : Prop := {
  df_batching : batching s' = true;
  df_queue : forall o, queued o s -> queued o s';
  df_calls : forall o, isComputed o s' = false ->
             observer_calls o (trace s') = observer_calls o (trace s)
}.

(** An observer of [once] that is not being set up, observes nothing and
    is not waiting on the queue. *)
Record idle (o : obs_id) (s : state) : Prop := {
  idle_known : known s o;
  idle_plain : isComputed o s = false;
  idle_stack : o ∉ observersStack s;
  idle_edges : forall d, o ∉ observers_of s d;
  idle_queue : ~ queued o s
}.

(** Idle observers, those in [X] apart, stay idle and are not called. *)
Definition quiet (X : obs_id -> Prop) (s s' : state) : Prop :=
  forall o, ~ X o -> idle o s ->
    idle o s' /\ observer_calls o (trace s') = observer_calls o (trace s).

Definition nobody (o : obs_id) : Prop := False.

Definition frame (X : obs_id -> Prop) (s s' : state) : Prop :=
  evolves s s' /\ (batching s = true -> deferring s s') /\ quiet X s s'.

(** The transient variables are back to what they were. *)
Record restored (s s' : state) : Prop := {
  rs_stack : observersStack s' = observersStack s;
  rs_doNotTrack : doNotTrack s' = doNotTrack s;
  rs_currentEffect : currentEffect s' = currentEffect s;
  rs_batching : batching s' = batching s
}.

Definition settled_but (X : obs_id -> Prop) (s s' : state) : Prop :=
  well_formed s' /\ frame X s s' /\ restored s s'.

Definition settled : state -> state -> Prop := settled_but nobody.

(** [m], started in a well-formed state, ends [settled] when it returns,
    and throws only if [C] holds, then also [settled]. *)
Definition sound {A} (C : state -> Prop) (m : M A) : Prop :=
  forall s, well_formed s ->
    match m s with
    | Done _ s' => settled s s'
    | Raised _ s' => C s /\ settled s s'
    | OutOfFuel => True
    end.

Definition always (s : state) : Prop := True.
Definition never (s : state) : Prop := False.

(** Calling observer [o]: the one call that is not held back by a batch. *)
Definition called (o : obs_id) (s s' : state) : Prop :=
  well_formed s' /\ evolves s s' /\ restored s s' /\
  observer_calls o (trace s) < observer_calls o (trace s') /\
  (batching s = true ->
   (forall o', queued o' s -> queued o' s') /\
   (forall o', o' <> o -> isComputed o' s' = false ->
      observer_calls o' (trace s') = observer_calls o' (trace s))) /\
  quiet (eq o) s s'.

Definition sound_call (o : obs_id) (m : M unit) : Prop :=
  forall s, well_formed s ->
    match m s with
    | Done _ s' => called o s s'
    | Raised _ s' => ~ known s o
    | OutOfFuel => True
    end.

(** The loop at the end of a root batch: the queue ends empty and every
    observer that was on it has been called. *)
Definition drained (s s' : state) : Prop :=
  well_formed s' /\ evolves s s' /\ restored s s' /\
  effectQueue s' = Some [] /\
  (forall o, queued o s -> observer_calls o (trace s) < observer_calls o (trace s')) /\
  quiet nobody s s'.

Definition sound_drain (m : M unit) : Prop :=
  forall s, well_formed s ->
    match m s with
    | Done _ s' => drained s s'
    | Raised _ s' => effectQueue s = None
    | OutOfFuel => True
    end.

#[local] Set Implicit Arguments.
Record engine_sound (E : engine) : Prop := {
  snd_run : forall p, sound always (k_run E p);
  snd_signal_set : forall sid v, sound (fun s => disallowWrites s = true) (k_signal_set E sid v);
  snd_signal_changed : forall sid, sound never (k_signal_changed E sid);
  snd_signal_edit : forall sid ed, sound always (k_signal_edit E sid ed);
  snd_triggerObservers : forall dep, sound never (k_triggerObservers E dep);
  snd_call_observer : forall o, sound_call o (k_call_observer E o);
  snd_computedObserver : forall c, sound never (k_computedObserver E c);
  snd_computed_get : forall c, sound always (k_computed_get E c);
  snd_bulkEffects : forall e h, sound (fun _ => h = BulkRethrow) (k_bulkEffects E e h);
  snd_drain : sound_drain (k_drain E);
  snd_handleOrLog : forall e h, sound never (k_handleOrLog E e h);
  snd_action : forall f, sound always (k_action E f);
  snd_once : forall a b c, sound never (k_once E a b c);
  snd_once_observer : forall o cell, sound never (k_once_observer E o cell);
  snd_reaction : forall a b c d, sound never (k_reaction E a b c d);
  snd_actionWrap : forall r d, sound always (k_actionWrap E r d);
  snd_effectWrap : forall r, sound (fun s => reactions s !! r = None) (k_effectWrap E r);
  snd_onceEffect : forall r, sound always (k_onceEffect E r);
  snd_handleError : forall r e, sound (fun s => reactions s !! r = None) (k_handleError E r e);
  snd_createOnceLoop : forall r, sound never (k_createOnceLoop E r)
}.
#[local] Unset Implicit Arguments.

(** States that differ in nothing the invariants look at. *)
Definition same_core (s s' : state) : Prop :=
  observers s' = observers s /\ reactions s' = reactions s /\ trace s' = trace s /\
  effectQueue s' = effectQueue s /\ observersStack s' = observersStack s /\
  observerMap s' = observerMap s /\ nameCounters s' = nameCounters s /\
  next_obs s' = next_obs s /\ doNotTrack s' = doNotTrack s /\
  currentEffect s' = currentEffect s.

(** The outcome of a computation: [Q] on the final state, and [C] when it
    is an exception. *)
Definition ends {A} (C : Prop) (Q : state -> Prop) (o : outcome A) : Prop :=
  match o with
  | Done _ s' => Q s'
  | Raised _ s' => C /\ Q s'
  | OutOfFuel => True
  end.

(** Progress inside a call: well formed and in the frame, the transient
    variables being whatever the call has made of them. *)
Definition adv (s s' : state) : Prop := well_formed s' /\ frame nobody s s'.

(** ** [action] and [createAction] *)







(** ** Instances *)

(** The cell of the observer of [once_tracking]. *)
Definition once_tracking_cell : once_cell :=
  mkOnce "OnceObserver0" (EffectUser (anon (Log (VNum 1) skip))) "OnceEffect0" None false.


(** * Properties *)

(** ** Values *)

Lemma value_eqb_spec a b : reflect (a = b) (value_eqb a b).
Proof.
  destruct a as [|x], b as [|y]; simpl; try (constructor; congruence).
  destruct (Z.eqb_spec x y); constructor; congruence.
Qed.

Lemma value_eqb_refl a : value_eqb a a = true.
Proof. destruct a; simpl; [reflexivity | apply Z.eqb_refl]. Qed.


(** ** Writes that change the value *)



(** [fnName] changes nothing but a counter. *)
Lemma fallback_name_state fb s :
  (fallback_name fb s).2 = s \/
  exists c, (fallback_name fb s).2 = set_nameCounters (<[fb := c]> (nameCounters s)) s.
Proof.
  unfold fallback_name. destruct (decide (fb = "__proto__")); [left; reflexivity|].
  right. destruct (nameCounters s !! fb) as [[[|c]|]|]; [| | |destruct (inherited fb)];
    eexists; reflexivity.
Qed.

Lemma fnName_state name fb s :
  (fnName name fb s).2 = s \/
  exists c, (fnName name fb s).2 = set_nameCounters (<[fb := c]> (nameCounters s)) s.
Proof.
  unfold fnName. destruct name as [n|]; [destruct (decide (n = "")); [|left; reflexivity]|];
    apply fallback_name_state.
Qed.



(** ** [once]: fires at most once *)

(** C8, at inputs where the code departs from it.  As the tests have it,
    the effect of a [once] runs at the first change and not at the second,
    and not at all when the action called its disposer.  But an observer
    that waits on the queue and is notified again before its turn is
    called twice, and runs the effect twice: in [once_twice] one write of
    [x] logs [1] two times.  And the disposer only takes effect when the
    action returns: in [once_disposed_late] the signal changes after the
    action called the disposer, and the effect runs. *)
Theorem once_fires_twice_in_one_batch :
  (exists s1 s2 s3,
      run 10 (once_tracking (VNum 1) (VNum 3)) initial_state = Done VUndefined s1 /\
      run 12 (SignalSet 1%nat (VNum 4) skip) s1 = Done VUndefined s2 /\
      trace s2 = [EvObserver 0%nat; EvLog (VNum 1)] /\
      run 12 (SignalSet 0%nat (VNum 2) skip) s2 = Done VUndefined s3 /\
      trace s3 = [EvObserver 0%nat; EvLog (VNum 1)]) /\
  (exists s1 s2 s3,
      run 10 (once_disposing (VNum 1) (VNum 3)) initial_state = Done VUndefined s1 /\
      dependencyMap s1 = ∅ /\ observerMap s1 = ∅ /\
      run 12 (SignalSet 0%nat (VNum 2) skip) s1 = Done VUndefined s2 /\
      run 12 (SignalSet 1%nat (VNum 4) skip) s2 = Done VUndefined s3 /\
      trace s3 = []) /\
  (exists s1 s2,
      run 20 (once_twice (VNum 0) (VNum 0) (VNum 1)) initial_state = Done VUndefined s1 /\
      observerMap s1 = {[ DepSignal 0%nat := [0%nat; 1%nat]; DepSignal 1%nat := [1%nat] ]} /\
      trace s1 = [] /\
      run 20 (SignalSet 0%nat (VNum 5) skip) s1 = Done VUndefined s2 /\
      trace s2 = [EvObserver 0%nat; EvObserver 1%nat; EvLog (VNum 1);
                  EvObserver 1%nat; EvLog (VNum 1)] /\
      console s2 = []) /\
  (exists s,
      run 20 (once_disposed_late (VNum 0) (VNum 1)) initial_state = Done VUndefined s /\
      trace s = [EvObserver 0%nat; EvLog (VNum 1)] /\
      console s = []).
Proof.
  split; [|split; [|split]].
  - eexists _, _, _. split; [vm_compute; reflexivity|].
    split; [vm_compute; reflexivity|]. split; [reflexivity|].
    split; [vm_compute; reflexivity|]. reflexivity.
  - eexists _, _, _. split; [vm_compute; reflexivity|].
    split; [vm_compute; reflexivity|]. split; [vm_compute; reflexivity|].
    split; [vm_compute; reflexivity|]. split; [vm_compute; reflexivity|]. reflexivity.
  - eexists _, _. split; [vm_compute; reflexivity|].
    split; [vm_compute; reflexivity|]. split; [reflexivity|].
    split; [vm_compute; reflexivity|]. split; reflexivity.
  - eexists. split; [vm_compute; reflexivity|]. split; reflexivity.
Qed.

(** ** A diamond: one signal, two computeds, one reaction *)



(** ** The two transient flags around a nested computed *)

(** [resumeTrackingWhile] puts [doNotTrack] back to what it was, whatever
    [fn] did to it. *)
Lemma resumeTrackingWhile_restores {A} (fn : M A) (s s' : state) :
  state_of (resumeTrackingWhile fn s) = Some s' ->
  doNotTrack s' = doNotTrack s.
Proof.
  unfold resumeTrackingWhile, try_finally, modify.
  destruct (fn (set_doNotTrack false s)); simpl; intros H; inversion H; reflexivity.
Qed.

(** The evaluation of a computed leaves [disallowWrites] at [false],
    whatever it was before. *)
Lemma recompute_leaves_writes_allowed (E : engine) (c : obs_id) (cell : computed_cell)
    (s s' : state) :
  state_of (recompute E c cell s) = Some s' ->
  disallowWrites s' = false.
Proof.
  unfold recompute, try_finally, bind, modify.
  match goal with |- context [try_catch ?m ?h ?st] => destruct (try_catch m h st) end;
    simpl; intros H; inversion H; reflexivity.
Qed.

(** C7, at an input where the code departs from it.  A write inside the
    evaluation of a computed is refused, but after the computed has read
    another computed that had to be evaluated, the same write goes through:
    the read of [outer] returns and the signal holds the new value. *)
Theorem nested_computed_lifts_write_guard :
  run 20 nested_setup initial_state = Done VUndefined nested_1 /\
  (exists e s2,
      computed_get 20 1%nat nested_1 = Raised (ExnError e) s2 /\
      err_message e = "Error in guarded: Writing to signals not allowed in this context." /\
      signals s2 !! 0%nat = Some (VNum 1)) /\
  (exists s3,
      computed_get 20 2%nat nested_1 = Done (VNum 9) s3 /\
      signals s3 !! 0%nat = Some (VNum 2) /\
      console s3 = []).
Proof.
  split; [vm_compute; reflexivity|].
  split.
  - eexists _, _. split; [vm_compute; reflexivity|]. split; vm_compute; reflexivity.
  - eexists. split; [vm_compute; reflexivity|]. split; vm_compute; reflexivity.
Qed.

(** ** The reentry ceiling of a reaction *)

(** The guard at the head of [onceEffect]. *)
Lemma onceEffect_guard (n : nat) (r : rx_id) (cell : reaction_cell) (s : state) :
  reactions s !! r = Some cell ->
  let depth := default 0%nat (reactionsDepthMap s !! r) in
  onceEffect (S n) r s
  = if decide (depth ≤ MAX_REACTION_DEPTH)%nat then
      (createOnceLoop n r ;; effectWrap n r)
        (set_reactionsDepthMap (<[r := S depth]> (reactionsDepthMap s)) s)
    else
      Raised (ExnError (mkError (next_err s) (circular_message cell) true true))
             (set_next_err (S (next_err s)) s).
Proof.
  intros Hr depth.
  change (onceEffect (S n) r s) with (onceEffect_body (engine_of n) r s).
  unfold onceEffect_body. rewrite Hr. fold depth.
  destruct (decide (depth ≤ MAX_REACTION_DEPTH)%nat) as [Hle|Hgt].
  - apply Nat.ltb_ge in Hle. rewrite Hle. reflexivity.
  - apply Nat.nle_gt, Nat.ltb_lt in Hgt. rewrite Hgt. reflexivity.
Qed.

(** A root batch starts from an empty depth map, whatever the map held. *)
Lemma bulkEffects_root_resets (n : nat) (effect : bulk_effect) (onError : bulk_onError)
    (depths : gmap rx_id nat) (s : state) :
  effectQueue s = None ->
  bulkEffects (S n) effect onError (set_reactionsDepthMap depths s)
  = bulkEffects (S n) effect onError s.
Proof.
  intros Hq.
  change (bulk_frame (engine_of n) effect onError (call_bulk_effect (engine_of n) effect)
            (set_reactionsDepthMap depths s)
          = bulk_frame (engine_of n) effect onError (call_bulk_effect (engine_of n) effect) s).
  unfold bulk_frame. simpl effectQueue. rewrite Hq. reflexivity.
Qed.

(** C5, as the code has it.  The reaction of [circular_setup] rewrites the
    signal its action reads with a new value each time.  One action that
    writes the signal makes its effect run 101 times, for the values 1 to
    101; the next call of [onceEffect] throws a [CircularReactionError],
    which reaches the [onError] handler, and the reaction is left without
    any subscription.  [onceEffect] throws exactly when its counter exceeds
    [MAX_REACTION_DEPTH = 100], a root batch starts from an empty counter
    map, and so a reaction that stops by itself (here after 61 firings) runs
    again in the next batch, 122 firings in all, without any error. *)
Theorem reaction_reentry_ceiling :
  (exists s1 s2,
      run 20 circular_setup initial_state = Done VUndefined s1 /\
      logged s1 = [] /\
      action 130 kick s1 = Done VUndefined s2 /\
      logged s2 = (VNum <$> seqZ 1 101) ++ [VNum (-1)] /\
      signals s2 !! 0%nat = Some (VNum 101) /\
      observerMap s2 = ∅ /\ dependencyMap s2 = ∅ /\ console s2 = []) /\
  (forall n r cell s,
      reactions s !! r = Some cell ->
      let depth := default 0%nat (reactionsDepthMap s !! r) in
      onceEffect (S n) r s
      = if decide (depth ≤ 100)%nat then
          (createOnceLoop n r ;; effectWrap n r)
            (set_reactionsDepthMap (<[r := S depth]> (reactionsDepthMap s)) s)
        else
          Raised (ExnError (mkError (next_err s) (circular_message cell) true true))
                 (set_next_err (S (next_err s)) s)) /\
  (forall n effect onError depths s,
      effectQueue s = None ->
      bulkEffects (S n) effect onError (set_reactionsDepthMap depths s)
      = bulkEffects (S n) effect onError s) /\
  (exists s1 s2 s3,
      run 20 (bounded_setup 60) initial_state = Done VUndefined s1 /\
      logged s1 = [] /\
      action 130 kick s1 = Done VUndefined s2 /\
      logged s2 = VNum <$> seqZ 0 61 /\
      action 130 kick s2 = Done VUndefined s3 /\
      logged s3 = (VNum <$> seqZ 0 61) ++ (VNum <$> seqZ 0 61) /\
      console s3 = []).
Proof.
  split.
  { exists circular_1, circular_2.
    repeat (split; [vm_compute; reflexivity|]). vm_compute; reflexivity. }
  split. { exact onceEffect_guard. }
  split. { exact bulkEffects_root_resets. }
  exists bounded_1, bounded_2, bounded_3.
  repeat (split; [vm_compute; reflexivity|]). vm_compute; reflexivity.
Qed.

Lemma reaction_reentry_ceiling_witness :
  reactions circular_1 !! 0%nat <> None /\ effectQueue circular_1 = None /\
  (let depth := default 0%nat (reactionsDepthMap circular_1 !! 0%nat) in
   onceEffect 1 0%nat circular_1
   = if decide (depth ≤ 100)%nat then
       (createOnceLoop 0 0%nat ;; effectWrap 0 0%nat)
         (set_reactionsDepthMap (<[0%nat := S depth]> (reactionsDepthMap circular_1)) circular_1)
     else
       Raised (ExnError (mkError (next_err circular_1)
                           (circular_message (default (mkReaction (fun _ => skip) None None "" "" ""
                                                         VUndefined None)
                                                (reactions circular_1 !! 0%nat))) true true))
              (set_next_err (S (next_err circular_1)) circular_1)) /\
  bulkEffects 1 (BulkTrigger 0%nat) BulkNoHandler
    (set_reactionsDepthMap {[ 0%nat := 101%nat ]} circular_1)
  = bulkEffects 1 (BulkTrigger 0%nat) BulkNoHandler circular_1.
Proof.
  split; [vm_compute; discriminate|].
  split; [reflexivity|].
  destruct reaction_reentry_ceiling as (_ & Hguard & Hreset & _).
  split.
  - destruct (reactions circular_1 !! 0%nat) as [cell|] eqn:Hcell.
    + exact (Hguard 0%nat 0%nat cell circular_1 Hcell).
    + vm_compute in Hcell. discriminate.
  - exact (Hreset 0%nat (BulkTrigger 0%nat) BulkNoHandler {[ 0%nat := 101%nat ]} circular_1 eq_refl).
Defined.

(** Once the ceiling was hit, a later batch that rewrites the signal calls
    no observer and runs no effect: the trace does not grow. *)
Lemma circular_reaction_stays_silent :
  exists s1 s2 s3,
    run 20 circular_setup initial_state = Done VUndefined s1 /\
    action 130 kick s1 = Done VUndefined s2 /\
    last (logged s2) = Some (VNum (-1)) /\
    signals s2 !! 0%nat = Some (VNum 101) /\
    action 130 kick s2 = Done VUndefined s3 /\
    signals s3 !! 0%nat = Some (VNum 0) /\
    trace s3 = trace s2 /\
    observerMap s3 = ∅.
Proof.
  exists circular_1, circular_2. eexists.
  repeat (split; [vm_compute; reflexivity|]). vm_compute; reflexivity.
Qed.

(** ** Notification with a batch open *)

(** What [clearDependencies] leaves alone. *)
Lemma clearDependencies_frame o s :
  observersStack (clearDependencies o s) = observersStack s /\
  effectQueue (clearDependencies o s) = effectQueue s /\
  observers (clearDependencies o s) = observers s /\
  trace (clearDependencies o s) = trace s /\
  signals (clearDependencies o s) = signals s /\
  disallowWrites (clearDependencies o s) = disallowWrites s.
Proof. unfold clearDependencies. destruct (dependencyMap s !! o); done. Qed.

(** What [registerDependency] leaves alone. *)
Lemma registerDependency_frame d s :
  observersStack (registerDependency d s) = observersStack s /\
  effectQueue (registerDependency d s) = effectQueue s /\
  observers (registerDependency d s) = observers s /\
  trace (registerDependency d s) = trace s /\
  signals (registerDependency d s) = signals s /\
  disallowWrites (registerDependency d s) = disallowWrites s.
Proof.
  unfold registerDependency. destruct (observersStack s) eqn:E.
  { repeat split; congruence. }
  destruct (doNotTrack s); simpl; repeat split; congruence.
Qed.

Lemma invalidate_frame c s :
  observersStack (invalidate c s) = observersStack s /\
  effectQueue (invalidate c s) = effectQueue s /\
  trace (invalidate c s) = trace s /\
  signals (invalidate c s) = signals s /\
  disallowWrites (invalidate c s) = disallowWrites s /\
  observers (invalidate c s)
  = alter (fun cell => match cell with
                       | ObsComputed cc =>
                           ObsComputed (with_hasChanges true (with_error false None cc))
                       | ObsOnce oc => ObsOnce oc
                       end) c (observers s).
Proof.
  unfold invalidate.
  match goal with |- context [clearDependencies ?a ?b] =>
    destruct (clearDependencies_frame a b) as (-> & -> & -> & -> & -> & ->) end.
  repeat split; try reflexivity.
  unfold update_computed. simpl. rewrite alter_alter_eq.
  apply alter_ext. intros [cc|oc] _; reflexivity.
Qed.

Lemma isComputed_invalidate o c s : isComputed o (invalidate c s) = isComputed o s.
Proof.
  unfold isComputed. destruct (invalidate_frame c s) as (_ & _ & _ & _ & _ & ->).
  rewrite lookup_alter. destruct (decide (c = o)) as [->|]; [|reflexivity].
  destruct (observers s !! o) as [[|]|]; reflexivity.
Qed.

Lemma cascade_trans cur s1 s2 s3 :
  cascade cur s1 s2 -> cascade cur s2 s3 -> cascade cur s1 s3.
Proof.
  induction 1; intros H3; [assumption| |].
  - eapply cascade_enqueue; eauto.
  - eapply cascade_invalidate; eauto.
Qed.

(** What a cascade keeps. *)
Lemma cascade_keeps cur s s' :
  cascade cur s s' ->
  observersStack s' = observersStack s /\
  signals s' = signals s /\
  disallowWrites s' = disallowWrites s /\
  (forall o, isComputed o s' = isComputed o s) /\
  (is_Some (effectQueue s) -> is_Some (effectQueue s')).
Proof.
  induction 1 as [s|s s' o Hne Hc _ IH|s s' o Hne Hc _ IH].
  - done.
  - destruct IH as (-> & -> & -> & Hk & Hq). repeat split; try done.
    intros _. apply Hq. simpl. eauto.
  - destruct IH as (-> & -> & -> & Hk & Hq).
    destruct (invalidate_frame o (emit (EvObserver o) s)) as (F1 & F2 & F3 & F4 & F5 & F6).
    repeat split; try done.
    + intros o'. rewrite Hk, isComputed_invalidate. reflexivity.
    + intros Hs. apply Hq. rewrite F2. exact Hs.
Qed.

Lemma elem_of_set_add {A} `{EqDecision A} (x y : A) l : x ∈ set_add y l <-> x = y \/ x ∈ l.
Proof.
  unfold set_add. destruct (decide (y ∈ l)).
  - split; [auto|]. intros [->|]; assumption.
  - rewrite elem_of_app, list_elem_of_singleton. tauto.
Qed.

Lemma observer_calls_one o o' :
  observer_calls o [EvObserver o'] = if decide (o' = o) then 1%nat else 0%nat.
Proof.
  unfold observer_calls. rewrite filter_cons, filter_nil.
  destruct (decide (EvObserver o' = EvObserver o)) as [[= ->]|Hne].
  - rewrite decide_True by reflexivity. reflexivity.
  - rewrite decide_False by congruence. reflexivity.
Qed.

Lemma observer_calls_app o t1 t2 :
  observer_calls o (t1 ++ t2) = (observer_calls o t1 + observer_calls o t2)%nat.
Proof. unfold observer_calls. rewrite filter_app, length_app. reflexivity. Qed.

(** A cascade only adds calls and queue entries, and none for [current]. *)
Lemma cascade_grows cur s s' :
  cascade cur s s' ->
  (forall o, observer_calls o (trace s) <= observer_calls o (trace s'))%nat /\
  (forall o, queued o s -> queued o s') /\
  (forall o, Some o = cur ->
     observer_calls o (trace s') = observer_calls o (trace s) /\
     (queued o s' -> queued o s)).
Proof.
  induction 1 as [s|s s' o Hne Hc _ IH|s s' o Hne Hc _ IH].
  - split; [intros; reflexivity|]. split; [tauto|]. intros; split; [reflexivity|tauto].
  - destruct IH as (IH1 & IH2 & IH3). split; [exact IH1|]. split.
    + intros o' Hq. apply IH2. unfold queued, enqueue. simpl.
      apply elem_of_set_add. right. exact Hq.
    + intros o' Ho'. destruct (IH3 o' Ho') as [E1 E2]. split; [exact E1|].
      intros Hq. specialize (E2 Hq). unfold queued, enqueue in E2. simpl in E2.
      apply elem_of_set_add in E2 as [->|E2]; [congruence|exact E2].
  - destruct IH as (IH1 & IH2 & IH3).
    destruct (invalidate_frame o (emit (EvObserver o) s)) as (F1 & F2 & F3 & F4 & F5 & F6).
    unfold queued in *. rewrite F2, F3 in *. simpl in *.
    split; [|split].
    + intros o'. etransitivity; [|apply IH1]. rewrite observer_calls_app. lia.
    + exact IH2.
    + intros o' Ho'. destruct (IH3 o' Ho') as [E1 E2]. split; [|exact E2].
      rewrite E1, observer_calls_app, observer_calls_one.
      rewrite decide_False; [lia|]. intros ->. congruence.
Qed.


Lemma cascade_notifying cur s s' : cascade cur s s' -> notifying cur s -> notifying cur s'.
Proof.
  intros Hc [Hq Hh]. destruct (cascade_keeps _ _ _ Hc) as (E1 & _ & _ & _ & E5).
  split; [auto|]. rewrite E1. exact Hh.
Qed.

Lemma for_each_cascades cur (f : obs_id -> M unit) l :
  (forall o s, notifying cur s -> cascades cur s (f o s)) ->
  forall s, notifying cur s -> cascades cur s (for_each f l s).
Proof.
  intros Hf. induction l as [|o l IH]; intros s Hn; simpl.
  - apply cascade_refl.
  - unfold bind. specialize (Hf o s Hn).
    destruct (f o s) as [[] s1|x s1|]; simpl in *; try done.
    specialize (IH s1 (cascade_notifying _ _ _ Hf Hn)).
    destruct (for_each f l s1) as [[] s2|x s2|]; simpl in *; try done.
    eapply cascade_trans; eauto.
Qed.

Lemma call_computed_observer n o s cell :
  observers s !! o = Some (ObsComputed cell) ->
  call_observer (S (S n)) o s
  = triggerObservers n (DepObserver o) (invalidate o (emit (EvObserver o) s)).
Proof.
  intros Ho.
  change (call_observer (S (S n)) o s) with (call_observer_body (engine_of (S n)) o s).
  unfold call_observer_body. rewrite Ho. reflexivity.
Qed.

Lemma trigger_one_cascades n cur :
  (forall m dep s, (m < n)%nat -> notifying cur s -> cascades cur s (triggerObservers m dep s)) ->
  forall o s, notifying cur s -> cascades cur s (trigger_one (engine_of n) cur o s).
Proof.
  intros IH o s Hn. unfold trigger_one.
  destruct (decide (Some o = cur)) as [|Hne]; [apply cascade_refl|].
  destruct Hn as [[q Hq] Hh]. rewrite Hq.
  destruct (isComputed o s) eqn:Hc.
  - unfold isComputed in Hc.
    destruct (observers s !! o) as [[cell|cell]|] eqn:Ho; try discriminate.
    change (k_call_observer (engine_of n) o s) with (call_observer n o s).
    destruct n as [|[|n]]; [exact I | |].
    { change (call_observer 1 o s) with (call_observer_body engine_zero o s).
      unfold call_observer_body. rewrite Ho. exact I. }
    rewrite (call_computed_observer _ _ _ _ Ho).
    assert (Hn2 : notifying cur (invalidate o (emit (EvObserver o) s))).
    { destruct (invalidate_frame o (emit (EvObserver o) s)) as (F1 & F2 & _).
      split; [rewrite F2; simpl; rewrite Hq; eauto | rewrite F1; exact Hh]. }
    specialize (IH n (DepObserver o) _ ltac:(lia) Hn2).
    destruct (triggerObservers n (DepObserver o) _) as [[] s2|x s2|]; simpl in *; try done.
    eapply cascade_invalidate; [exact Hne | | exact IH].
    unfold isComputed. rewrite Ho. reflexivity.
  - simpl. eapply cascade_enqueue; [exact Hne | exact Hc | ].
    unfold enqueue. rewrite Hq. apply cascade_refl.
Qed.

Lemma triggerObservers_unfold n dep s :
  triggerObservers (S n) dep s
  = match observerMap s !! dep with
    | Some observersSet =>
        for_each (trigger_one (engine_of n) (head (observersStack s))) observersSet s
    | None => Done tt s
    end.
Proof. reflexivity. Qed.

(** With a batch open, [triggerObservers] runs a cascade that spares the
    observer on top of the stack, and does not throw. *)
Lemma triggerObservers_cascades n dep s cur :
  notifying cur s -> cascades cur s (triggerObservers n dep s).
Proof.
  revert dep s. induction n as [n IH] using lt_wf_ind. intros dep s Hn.
  destruct n as [|n]; [exact I|].
  rewrite triggerObservers_unfold.
  destruct (observerMap s !! dep) as [l|]; [|apply cascade_refl].
  destruct Hn as [Hq Hh]. rewrite Hh.
  apply for_each_cascades; [|split; assumption].
  apply trigger_one_cascades. intros m dep' s' Hm. apply IH. lia.
Qed.

Lemma delivers_mono cur o s0 s s1 s2 :
  cascade cur s0 s -> delivers o s s1 -> cascade cur s1 s2 -> delivers o s0 s2.
Proof.
  intros H0 Hd H2. unfold delivers in *.
  destruct (cascade_keeps _ _ _ H0) as (_ & _ & _ & Hk & _).
  destruct (cascade_grows _ _ _ H0) as (G0 & _).
  destruct (cascade_grows _ _ _ H2) as (G2 & Q2 & _).
  rewrite Hk in Hd. destruct (isComputed o s0).
  - specialize (G0 o). specialize (G2 o). lia.
  - apply Q2. exact Hd.
Qed.

Lemma trigger_one_delivers n cur o s :
  notifying cur s ->
  match trigger_one (engine_of n) cur o s with
  | Done _ s' => cascade cur s s' /\ (Some o <> cur -> delivers o s s')
  | Raised _ _ => False
  | OutOfFuel => True
  end.
Proof.
  intros Hn.
  pose proof (trigger_one_cascades n cur
                (fun m dep s' _ Hn' => triggerObservers_cascades m dep s' cur Hn') o s Hn) as Hc.
  revert Hc. unfold trigger_one, delivers.
  destruct (decide (Some o = cur)) as [|Hne]; [simpl; intros; split; [assumption|congruence]|].
  destruct Hn as [[q Hq] Hh]. rewrite Hq.
  destruct (isComputed o s) eqn:Hi.
  - unfold isComputed in Hi.
    destruct (observers s !! o) as [[cell|cell]|] eqn:Ho; try discriminate.
    change (k_call_observer (engine_of n) o s) with (call_observer n o s).
    destruct n as [|[|n]]; [done | |].
    { change (call_observer 1 o s) with (call_observer_body engine_zero o s).
      unfold call_observer_body. rewrite Ho. done. }
    rewrite (call_computed_observer _ _ _ _ Ho).
    pose proof (triggerObservers_cascades n (DepObserver o)
                  (invalidate o (emit (EvObserver o) s)) cur) as Hrec.
    destruct (triggerObservers n (DepObserver o) _) as [[] s2|x s2|]; simpl in *; try done.
    intros Hc. split; [exact Hc|]. intros _.
    assert (Hn2 : notifying cur (invalidate o (emit (EvObserver o) s))).
    { destruct (invalidate_frame o (emit (EvObserver o) s)) as (F1 & F2 & _).
      split; [rewrite F2; simpl; rewrite Hq; eauto | rewrite F1; exact Hh]. }
    destruct (cascade_grows _ _ _ (Hrec Hn2)) as (G & _).
    specialize (G o).
    destruct (invalidate_frame o (emit (EvObserver o) s)) as (_ & _ & F3 & _).
    rewrite F3 in G. simpl in G.
    rewrite observer_calls_app, observer_calls_one, decide_True in G by reflexivity. lia.
  - simpl. intros Hc. split; [exact Hc|]. intros _.
    unfold queued. simpl. apply elem_of_set_add. left. reflexivity.
Qed.

Lemma for_each_delivers n cur s0 l :
  forall s, notifying cur s -> cascade cur s0 s ->
  match for_each (trigger_one (engine_of n) cur) l s with
  | Done _ s' =>
      cascade cur s s' /\ (forall o, o ∈ l -> Some o <> cur -> delivers o s0 s')
  | Raised _ _ => False
  | OutOfFuel => True
  end.
Proof.
  induction l as [|o l IH]; intros s Hn H0; simpl.
  - split; [apply cascade_refl|]. intros o Ho. inversion Ho.
  - unfold bind. pose proof (trigger_one_delivers n cur o s Hn) as H1.
    destruct (trigger_one (engine_of n) cur o s) as [[] s1|x s1|]; try done.
    destruct H1 as [C1 D1].
    specialize (IH s1 (cascade_notifying _ _ _ C1 Hn) (cascade_trans _ _ _ _ H0 C1)).
    destruct (for_each (trigger_one (engine_of n) cur) l s1) as [[] s2|x s2|]; try done.
    destruct IH as [C2 D2]. split; [eapply cascade_trans; eauto|].
    intros o' Ho' Hne. apply elem_of_cons in Ho' as [->|Ho'].
    + eapply delivers_mono; [exact H0 | apply D1; exact Hne | exact C2].
    + apply D2; assumption.
Qed.

(** ** The registry is symmetric *)

Lemma elem_of_set_delete {A} `{EqDecision A} (x y : A) l :
  x ∈ set_delete y l <-> x <> y /\ x ∈ l.
Proof. unfold set_delete. rewrite list_elem_of_filter. tauto. Qed.

Lemma forget_observer_lookup o om dep d :
  default [] (forget_observer o om dep !! d)
  = if decide (d = dep) then set_delete o (default [] (om !! d)) else default [] (om !! d).
Proof.
  unfold forget_observer.
  destruct (decide (d = dep)) as [->|Hne].
  - destruct (om !! dep) as [l|] eqn:Hl; simpl.
    + destruct (set_delete o l) eqn:Hd.
      * rewrite lookup_delete_eq. reflexivity.
      * rewrite lookup_insert_eq. reflexivity.
    + rewrite Hl. reflexivity.
  - destruct (om !! dep) as [l|] eqn:Hl; [|reflexivity].
    destruct (set_delete o l).
    + rewrite lookup_delete_ne by congruence. reflexivity.
    + rewrite lookup_insert_ne by congruence. reflexivity.
Qed.

Lemma set_delete_idemp {A} `{EqDecision A} (x : A) l :
  set_delete x (set_delete x l) = set_delete x l.
Proof. unfold set_delete. apply list_filter_filter_l. tauto. Qed.

Lemma foldl_forget_lookup o deps om d :
  default [] (foldl (forget_observer o) om deps !! d)
  = if decide (d ∈ deps) then set_delete o (default [] (om !! d)) else default [] (om !! d).
Proof.
  revert om. induction deps as [|dep deps IH]; intros om; cbn [foldl].
  - destruct (decide (d ∈ [])) as [H|_]; [inversion H|reflexivity].
  - rewrite IH, forget_observer_lookup.
    destruct (decide (d = dep)) as [->|Hne].
    + destruct (decide (dep ∈ dep :: deps)) as [_|Hn];
        [|exfalso; apply Hn, list_elem_of_here].
      destruct (decide (dep ∈ deps)); [apply set_delete_idemp|reflexivity].
    + destruct (decide (d ∈ deps)) as [Hin|Hnin];
        destruct (decide (d ∈ dep :: deps)) as [Hin'|Hnin']; try reflexivity.
      * exfalso. apply Hnin'. apply list_elem_of_further. exact Hin.
      * exfalso. apply elem_of_cons in Hin' as [?|?]; congruence.
Qed.

Lemma clearDependencies_observers_of o s d :
  observers_of (clearDependencies o s) d
  = if decide (d ∈ deps_of s o) then set_delete o (observers_of s d) else observers_of s d.
Proof.
  unfold observers_of, deps_of, clearDependencies.
  destruct (dependencyMap s !! o) as [deps|]; cbn [default].
  - apply foldl_forget_lookup.
  - destruct (decide (d ∈ [])) as [H|_]; [inversion H|reflexivity].
Qed.

Lemma clearDependencies_deps_of o s o' :
  deps_of (clearDependencies o s) o' = if decide (o' = o) then [] else deps_of s o'.
Proof.
  unfold deps_of, clearDependencies.
  destruct (dependencyMap s !! o) as [deps|] eqn:Hd; simpl.
  - destruct (decide (o' = o)) as [->|Hne].
    + rewrite lookup_delete_eq. reflexivity.
    + rewrite lookup_delete_ne by congruence. reflexivity.
  - destruct (decide (o' = o)) as [->|Hne]; [rewrite Hd|]; reflexivity.
Qed.

(** After [clearDependencies(o)] in a symmetric registry, [o] observes
    nothing. *)
Lemma clearDependencies_unsubscribes o s d :
  symmetric s -> o ∉ observers_of (clearDependencies o s) d.
Proof.
  intros Hs. rewrite clearDependencies_observers_of.
  destruct (decide (d ∈ deps_of s o)) as [Hin|Hnin].
  - rewrite elem_of_set_delete. tauto.
  - intros Ho. apply Hnin, Hs, Ho.
Qed.

Lemma clearDependencies_shrinks o s d o' :
  o' ∈ observers_of (clearDependencies o s) d -> o' ∈ observers_of s d.
Proof.
  rewrite clearDependencies_observers_of.
  destruct (decide (d ∈ deps_of s o)); [rewrite elem_of_set_delete; tauto|tauto].
Qed.

Lemma clearDependencies_symmetric o s : symmetric s -> symmetric (clearDependencies o s).
Proof.
  intros Hs d o' Ho'.
  rewrite clearDependencies_deps_of.
  destruct (decide (o' = o)) as [->|Hne].
  - exfalso. exact (clearDependencies_unsubscribes o s d Hs Ho').
  - apply Hs. eapply clearDependencies_shrinks. exact Ho'.
Qed.

Lemma registerDependency_symmetric dep s : symmetric s -> symmetric (registerDependency dep s).
Proof.
  intros Hs. unfold registerDependency.
  destruct (observersStack s) as [|observer stack]; [exact Hs|].
  destruct (doNotTrack s); [exact Hs|].
  intros d o. unfold observers_of, deps_of. simpl.
  destruct (decide (d = dep)) as [->|Hd].
  - rewrite lookup_insert_eq. simpl. rewrite elem_of_set_add.
    destruct (decide (o = observer)) as [->|Ho].
    + intros _. rewrite lookup_insert_eq. simpl. apply elem_of_set_add. left. reflexivity.
    + intros [?|Hin]; [congruence|].
      rewrite lookup_insert_ne by congruence. apply Hs. exact Hin.
  - rewrite lookup_insert_ne by congruence. intros Hin.
    destruct (decide (o = observer)) as [->|Ho].
    + rewrite lookup_insert_eq. simpl. apply elem_of_set_add. right. apply Hs. exact Hin.
    + rewrite lookup_insert_ne by congruence. apply Hs. exact Hin.
Qed.

Lemma initial_state_symmetric : symmetric initial_state.
Proof. intros d o H. unfold observers_of in H. simpl in H. rewrite lookup_empty in H. inversion H. Qed.

(** ** Notification terminates *)

Lemma invalidate_registry c s :
  observerMap (invalidate c s) = observerMap (clearDependencies c s) /\
  dependencyMap (invalidate c s) = dependencyMap (clearDependencies c s).
Proof.
  unfold invalidate, clearDependencies, update_computed. simpl.
  destruct (dependencyMap s !! c); split; reflexivity.
Qed.

Lemma invalidate_symmetric c s : symmetric s -> symmetric (invalidate c s).
Proof.
  intros Hs d o. unfold observers_of, deps_of.
  destruct (invalidate_registry c s) as [-> ->].
  apply (clearDependencies_symmetric c s Hs).
Qed.

Lemma invalidate_bounded A c s :
  symmetric s -> bounded_by A s -> bounded_by (A ∖ {[c]}) (invalidate c s).
Proof.
  intros Hs Hb d o. unfold observers_of.
  destruct (invalidate_registry c s) as [-> _].
  fold (observers_of (clearDependencies c s) d). intros Ho.
  apply elem_of_difference. split.
  - eapply Hb, clearDependencies_shrinks, Ho.
  - rewrite elem_of_singleton. intros ->.
    exact (clearDependencies_unsubscribes c s d Hs Ho).
Qed.

Lemma bounded_by_mono A B s : A ⊆ B -> bounded_by A s -> bounded_by B s.
Proof. intros HAB Hb d o Ho. apply HAB, (Hb d o Ho). Qed.

Lemma cascade_registry cur A s s' :
  cascade cur s s' -> symmetric s -> bounded_by A s -> symmetric s' /\ bounded_by A s'.
Proof.
  induction 1 as [s|s s' o Hne Hc _ IH|s s' o Hne Hc _ IH]; intros Hs Hb.
  - split; assumption.
  - apply IH; assumption.
  - apply IH.
    + apply invalidate_symmetric. exact Hs.
    + eapply bounded_by_mono; [|apply invalidate_bounded; [exact Hs|exact Hb]].
      intros x Hx. apply elem_of_difference in Hx. tauto.
Qed.

(** In a symmetric registry, with a batch open, [triggerObservers] returns
    as soon as the fuel exceeds three times the number of registered
    observers: a computed observer that has been called observes nothing
    any more, so no call is nested in a call of the same observer. *)
Lemma triggerObservers_terminates k :
  forall (A : gset obs_id) n dep s cur,
    size A <= k -> 3 * k + 1 <= n ->
    bounded_by A s -> symmetric s -> notifying cur s ->
    exists s', triggerObservers n dep s = Done tt s'.
Proof.
  induction k as [k IHk] using lt_wf_ind.
  intros A n dep s cur HA Hn Hb Hs Hnot.
  destruct n as [|n]; [lia|].
  rewrite triggerObservers_unfold.
  destruct Hnot as [Hq Hh]. rewrite Hh.
  assert (Hloop : forall l, (forall o, o ∈ l -> o ∈ A) ->
            forall s1, bounded_by A s1 -> symmetric s1 -> notifying cur s1 ->
            exists s', for_each (trigger_one (engine_of n) cur) l s1 = Done tt s').
  { clear dep s Hb Hs Hq Hh.
    induction l as [|o l IHl]; intros Hl s1 Hb1 Hs1 Hn1; simpl.
    - eexists. reflexivity.
    - unfold bind.
      assert (Hone : exists s2, trigger_one (engine_of n) cur o s1 = Done tt s2).
      { unfold trigger_one.
        destruct (decide (Some o = cur)); [eexists; reflexivity|].
        destruct Hn1 as [[q Hq1] Hh1]. rewrite Hq1.
        destruct (isComputed o s1) eqn:Hi; [|eexists; reflexivity].
        unfold isComputed in Hi.
        destruct (observers s1 !! o) as [[cell|cell]|] eqn:Ho; try discriminate.
        assert (HoA : o ∈ A) by (apply Hl, list_elem_of_here).
        assert (Hpos : 1 <= size A).
        { destruct (size A) eqn:Hz; [|lia].
          apply size_empty_inv in Hz. apply Hz in HoA. inversion HoA. }
        destruct n as [|[|n]]; [lia|lia|].
        change (k_call_observer (engine_of (S (S n))) o s1) with (call_observer (S (S n)) o s1).
        rewrite (call_computed_observer _ _ _ _ Ho).
        apply (IHk (k - 1) ltac:(lia) (A ∖ {[o]}) n (DepObserver o) _ cur).
        - assert (size (A ∖ {[o]}) < size A); [|lia].
          apply subset_size. split.
          + intros x Hx. apply elem_of_difference in Hx. tauto.
          + intros Hsub. specialize (Hsub o HoA).
            apply elem_of_difference in Hsub as [_ Hsub].
            apply Hsub, elem_of_singleton. reflexivity.
        - lia.
        - apply invalidate_bounded; [exact Hs1|]. exact Hb1.
        - apply invalidate_symmetric. exact Hs1.
        - destruct (invalidate_frame o (emit (EvObserver o) s1)) as (F1 & F2 & _).
          split; [rewrite F2; simpl; rewrite Hq1; eauto | rewrite F1; exact Hh1]. }
      destruct Hone as [s2 Hone].
      pose proof (trigger_one_delivers n cur o s1 Hn1) as Hc. rewrite Hone in Hc.
      destruct Hc as [Hc _]. rewrite Hone.
      destruct (cascade_registry _ A _ _ Hc Hs1 Hb1) as [Hs2 Hb2].
      apply IHl; [| exact Hb2 | exact Hs2 | exact (cascade_notifying _ _ _ Hc Hn1)].
      intros o' Ho'. apply Hl. apply list_elem_of_further. exact Ho'. }
  destruct (observerMap s !! dep) as [l|] eqn:Hl; [|eexists; reflexivity].
  apply Hloop; [| exact Hb | exact Hs | split; assumption].
  intros o Ho. apply (Hb dep). unfold observers_of. rewrite Hl. exact Ho.
Qed.

(** The observers of a symmetric registry all have an entry in the forward
    map. *)
Lemma symmetric_bounded s : symmetric s -> bounded_by (dom (dependencyMap s)) s.
Proof.
  intros Hs d o Ho. apply Hs in Ho. unfold deps_of in Ho.
  apply elem_of_dom. destruct (dependencyMap s !! o); [eauto|inversion Ho].
Qed.

Lemma symmetric_check s :
  bool_decide (map_Forall (fun d l => Forall (fun o => d ∈ deps_of s o) l) (observerMap s)) = true ->
  symmetric s.
Proof.
  intros H. apply bool_decide_eq_true in H.
  intros d o Ho. unfold observers_of in Ho.
  destruct (observerMap s !! d) as [l|] eqn:E; simpl in Ho; [|inversion Ho].
  specialize (H d l E). rewrite Forall_forall in H. apply H, Ho.
Qed.

(** With a batch open and a symmetric registry, fuel beyond three times the
    number of subscribed observers is enough for [triggerObservers]. *)
Lemma triggerObservers_returns (n : nat) (dep : dependency) (s : state) :
  is_Some (effectQueue s) -> symmetric s -> 3 * size (dependencyMap s) + 1 <= n ->
  exists s', triggerObservers n dep s = Done tt s'.
Proof.
  intros Hq Hs Hn.
  apply (triggerObservers_terminates (size (dependencyMap s))
           (dom (dependencyMap s)) n dep s (head (observersStack s)));
    try (rewrite ?size_dom; lia).
  - apply symmetric_bounded, Hs.
  - exact Hs.
  - split; [exact Hq|reflexivity].
Qed.

(** With a batch open, [triggerObservers] spares the observer on top of
    the stack and delivers every other observer of the dependency. *)
Lemma triggerObservers_delivers (n : nat) (dep : dependency) (s : state) :
  is_Some (effectQueue s) ->
  match triggerObservers n dep s with
  | Done _ s' =>
      cascade (head (observersStack s)) s s' /\
      (forall o, head (observersStack s) = Some o ->
         observer_calls o (trace s') = observer_calls o (trace s) /\
         (queued o s' -> queued o s)) /\
      (forall o, o ∈ default [] (observerMap s !! dep) ->
         head (observersStack s) <> Some o -> delivers o s s')
  | Raised _ _ => False
  | OutOfFuel => True
  end.
Proof.
  intros Hq.
  assert (Hn : notifying (head (observersStack s)) s) by (split; [exact Hq|reflexivity]).
  pose proof (triggerObservers_cascades n dep s _ Hn) as Hc.
  destruct n as [|n]; [exact I|].
  rewrite triggerObservers_unfold in *.
  destruct (observerMap s !! dep) as [l|] eqn:Hl; simpl.
  - pose proof (for_each_delivers n _ s l s Hn (cascade_refl _ s)) as Hd.
    destruct (for_each _ l s) as [[] s'|x s'|]; try done.
    destruct Hd as [_ Hd]. split; [exact Hc|]. split.
    + intros o Ho. destruct (cascade_grows _ _ _ Hc) as (_ & _ & G). apply G. congruence.
    + intros o Ho Hne. apply Hd; [exact Ho|congruence].
  - split; [apply cascade_refl|].
    split; [intros; split; [reflexivity|tauto]|]. intros o Ho. inversion Ho.
Qed.

(** C9.  With a batch open, which is how [changed] and [computedObserver]
    always call it, [triggerObservers(dep)] does not throw; when it returns,
    the observer on top of the stack has not been called and has not been
    put on the queue, whether it observes [dep] or a computed that does,
    and every other observer of [dep] has been delivered: called if it is
    a computed observer, on the queue otherwise.  And it does return: in a
    symmetric registry, fuel beyond three times the number of subscribed
    observers is enough. *)
Theorem notify_spares_current_observer (n : nat) (dep : dependency) (s : state) :
  is_Some (effectQueue s) ->
  match triggerObservers n dep s with
  | Done _ s' =>
      (forall o, head (observersStack s) = Some o ->
         observer_calls o (trace s') = observer_calls o (trace s) /\
         (queued o s' -> queued o s)) /\
      (forall o, o ∈ default [] (observerMap s !! dep) ->
         head (observersStack s) <> Some o -> delivers o s s')
  | Raised _ _ => False
  | OutOfFuel => ~ (symmetric s /\ 3 * size (dependencyMap s) + 1 <= n)
  end.
Proof.
  intros Hq. pose proof (triggerObservers_delivers n dep s Hq) as H.
  destruct (triggerObservers n dep s) eqn:E; [|exact H|].
  - destruct H as (_ & H1 & H2). split; assumption.
  - intros [Hs Hn].
    destruct (triggerObservers_returns n dep s Hq Hs Hn) as [s' Hs']. congruence.
Qed.

Lemma notify_spares_current_observer_witness :
  is_Some (effectQueue notify_1) /\
  observerMap notify_1 !! DepSignal 0%nat = Some [1%nat; 2%nat; 0%nat] /\
  observerMap notify_1 !! DepObserver 0%nat = Some [2%nat] /\
  exists s',
    triggerObservers 10 (DepSignal 0%nat) notify_1 = Done tt s' /\
    effectQueue s' = Some [1%nat] /\
    trace s' = trace notify_1 ++ [EvObserver 0%nat] /\
    (forall o, head (observersStack notify_1) = Some o ->
       observer_calls o (trace s') = observer_calls o (trace notify_1) /\
       (queued o s' -> queued o notify_1)) /\
    (forall o, o ∈ default [] (observerMap notify_1 !! DepSignal 0%nat) ->
       head (observersStack notify_1) <> Some o -> delivers o notify_1 s').
Proof.
  assert (Hq : is_Some (effectQueue notify_1)) by (eexists; reflexivity).
  split; [exact Hq|].
  split; [vm_compute; reflexivity|].
  split; [vm_compute; reflexivity|].
  pose proof (notify_spares_current_observer 10 (DepSignal 0%nat) notify_1 Hq) as H.
  assert (E : triggerObservers 10 (DepSignal 0%nat) notify_1 = Done tt notify_2)
    by (vm_compute; reflexivity).
  rewrite E in H. exists notify_2.
  split; [exact E|].
  split; [reflexivity|].
  split; [reflexivity|].
  exact H.
Defined.

(** ** Relations that every step of the engine respects *)

Section Respect.

Variable R : state -> state -> Prop.

Hypothesis HR : respected R.

Lemma keeps_ret {A} (a : A) : keeps R (ret a).
Proof. intros s0 s H. exact H. Qed.

Lemma keeps_raise {A} x : keeps R (@raise A x).
Proof. intros s0 s H. exact H. Qed.

Lemma keeps_out_of_fuel {A} : keeps R (@out_of_fuel A).
Proof. intros s0 s H. exact I. Qed.

Lemma keeps_bind {A B} (m : M A) (k : A -> M B) :
  keeps R m -> (forall a, keeps R (k a)) -> keeps R (bind m k).
Proof.
  intros Hm Hk s0 s H. unfold bind. specialize (Hm s0 s H).
  destruct (m s) as [a s1|x s1|]; [apply Hk; exact Hm | exact Hm | exact I].
Qed.

Lemma keeps_modify f : (forall s, R s (f s)) -> keeps R (modify f).
Proof. intros Hf s0 s H. simpl. eapply (R_trans HR); eauto. Qed.

Lemma keeps_try_catch {A} (m : M A) h :
  keeps R m -> (forall x, keeps R (h x)) -> keeps R (try_catch m h).
Proof.
  intros Hm Hh s0 s H. unfold try_catch. specialize (Hm s0 s H).
  destruct (m s) as [a s1|x s1|]; [exact Hm | apply Hh; exact Hm | exact I].
Qed.

Lemma keeps_try_finally {A} (m : M A) fin :
  keeps R m -> keeps R fin -> keeps R (try_finally m fin).
Proof.
  intros Hm Hf s0 s H. unfold try_finally. specialize (Hm s0 s H).
  destruct (m s) as [a s1|x s1|]; [| |exact I].
  - specialize (Hf s0 s1 Hm). destruct (fin s1); assumption.
  - specialize (Hf s0 s1 Hm). destruct (fin s1); assumption.
Qed.

Lemma keeps_for_each {A} (f : A -> M unit) l :
  (forall a, keeps R (f a)) -> keeps R (for_each f l).
Proof.
  intros Hf. induction l as [|a l IH]; simpl.
  - apply keeps_ret.
  - apply keeps_bind; [apply Hf | intros _; exact IH].
Qed.

Lemma keeps_pre {A} (m : M A) (f : state -> state) :
  (forall s, R s (f s)) -> keeps R m -> keeps R (fun s => m (f s)).
Proof. intros Hf Hm s0 s H. apply Hm. eapply (R_trans HR); eauto. Qed.

Lemma keeps_resumeTrackingWhile {A} (m : M A) : keeps R m -> keeps R (resumeTrackingWhile m).
Proof.
  intros Hm s0 s H. unfold resumeTrackingWhile.
  apply (keeps_try_finally m (modify (set_doNotTrack (doNotTrack s)))).
  - exact Hm.
  - apply keeps_modify, (R_doNotTrack HR).
  - eapply (R_trans HR); [exact H | apply (R_doNotTrack HR)].
Qed.

(** The composite state changes. *)
Lemma R_emit e s : R s (emit e s).
Proof. apply (R_trace HR). Qed.

Lemma R_console_error x s : R s (console_error x s).
Proof. apply (R_console HR). Qed.

Lemma R_new_Error msg s : R s (new_Error msg s).2.
Proof. apply (R_next_err HR). Qed.

Lemma R_fnName name fb s : R s (fnName name fb s).2.
Proof.
  destruct (fnName_state name fb s) as [->|[c ->]];
    [apply (R_refl HR)|apply (R_nameCounters HR)].
Qed.

Lemma R_describeError x src s : R s (describeError x src s).2.
Proof.
  unfold describeError. destruct x as [e|v].
  - destruct (err_statin e); apply (R_refl HR).
  - apply (R_next_err HR).
Qed.

Lemma R_call_disposer d s : R s (call_disposer d s).
Proof.
  unfold call_disposer. destruct d as [o|o|r].
  - apply (R_clearDependencies HR).
  - apply (R_update_once HR).
  - destruct (reactions s !! r) as [cell|]; [|apply (R_refl HR)].
    destruct (rx_onceDisposer cell); [apply (R_clearDependencies HR)|apply (R_refl HR)].
Qed.

Lemma keeps_type_error {A} : keeps R (@type_error A).
Proof. intros s0 s H. unfold type_error. simpl. eapply (R_trans HR); [exact H|apply (R_next_err HR)]. Qed.

Lemma engine_zero_keeps : engine_keeps R engine_zero.
Proof. split; intros; apply keeps_out_of_fuel. Qed.

Section Step.

Variable E : engine.
Hypothesis HE : engine_keeps R E.

(** [keeps] of a function written with an explicit state. *)
Ltac start := intros s0 s H.
Ltac fwd :=
  first
    [ exact I
    | assumption
    | apply (R_refl HR)
    | eapply (R_trans HR); [eassumption|]; fwd
    | apply (R_observersStack HR) | apply (R_nameCounters HR) | apply (R_effectQueue HR)
    | apply (R_doNotTrack HR) | apply (R_disallowWrites HR) | apply (R_currentEffect HR)
    | apply (R_reactionsDepthMap HR) | apply (R_signals HR) | apply (R_next_sig HR)
    | apply (R_next_err HR) | apply (R_console HR) | apply (R_trace HR)
    | apply (R_registerDependency HR) | apply (R_clearDependencies HR)
    | apply (R_update_computed HR); intros; split; reflexivity
    | apply (R_update_once HR) | apply (R_update_reaction HR)
    | apply (R_new_observer HR) | apply (R_new_reaction HR)
    | apply R_emit | apply R_console_error | apply R_call_disposer ].

Lemma keeps_signal_new v : keeps R (signal_new v).
Proof.
  start. unfold signal_new.
  eapply (R_trans HR); [exact H|]. eapply (R_trans HR); [apply (R_signals HR)|apply (R_next_sig HR)].
Qed.

Lemma keeps_signal_get sid : keeps R (signal_get sid).
Proof. start. unfold signal_get. eapply (R_trans HR); [exact H|apply (R_registerDependency HR)]. Qed.

Lemma keeps_computed_new f : keeps R (computed_new f).
Proof.
  start. unfold computed_new.
  pose proof (R_fnName (fn_name f) "Computed" s) as Hn.
  destruct (fnName (fn_name f) "Computed" s) as [name s1]. simpl in Hn.
  eapply (R_trans HR); [exact H|]. eapply (R_trans HR); [exact Hn|]. apply (R_new_observer HR).
Qed.

Lemma run_body_keeps p : keeps R (run_body E p).
Proof.
  destruct p; simpl.
  - apply keeps_ret.
  - start. unfold thrown. destruct x as [msg|e|v]; simpl; [|exact H|exact H].
    eapply (R_trans HR); [exact H|apply (R_next_err HR)].
  - apply keeps_bind; [apply keeps_modify; intros; apply R_emit | intros; apply HE].
  - apply keeps_bind; [apply keeps_signal_new | intros; apply HE].
  - apply keeps_bind; [apply keeps_signal_get | intros; apply HE].
  - apply keeps_bind; [apply HE | intros; apply HE].
  - apply keeps_bind; [apply HE | intros; apply HE].
  - apply keeps_bind; [apply HE | intros; apply HE].
  - apply keeps_bind; [apply keeps_computed_new | intros; apply HE].
  - apply keeps_bind; [apply HE | intros; apply HE].
  - apply keeps_bind; [apply HE | intros; apply HE].
  - apply keeps_bind; [apply HE | intros; apply HE].
  - apply keeps_bind; [apply HE | intros; apply HE].
  - apply keeps_bind; [apply keeps_modify; intros; apply R_call_disposer | intros; apply HE].
Qed.

Lemma signal_set_body_keeps sid v : keeps R (signal_set_body E sid v).
Proof.
  start. unfold signal_set_body.
  destruct (disallowWrites s); [simpl; fwd|].
  destruct (negb _); [|exact H].
  apply (keeps_signal_changed HE). fwd.
Qed.

Lemma signal_changed_body_keeps sid : keeps R (signal_changed_body E sid).
Proof.
  start. unfold signal_changed_body. destruct (effectQueue s).
  - apply (keeps_triggerObservers HE). exact H.
  - apply (keeps_bind _ _ (keeps_bulkEffects HE _ _) (fun _ => keeps_ret tt)). exact H.
Qed.

Lemma signal_edit_body_keeps sid editor : keeps R (signal_edit_body E sid editor).
Proof.
  start. unfold signal_edit_body.
  apply (keeps_bind _ _ (keeps_run HE _) (fun _ => keeps_signal_changed HE sid)).
  exact H.
Qed.

Lemma trigger_one_keeps cur o : keeps R (trigger_one E cur o).
Proof.
  start. unfold trigger_one.
  destruct (decide (Some o = cur)); [exact H|].
  destruct (effectQueue s); [destruct (isComputed o s)|].
  - apply (keeps_call_observer HE). exact H.
  - simpl. fwd.
  - apply (keeps_call_observer HE). exact H.
Qed.

Lemma triggerObservers_body_keeps dep : keeps R (triggerObservers_body E dep).
Proof.
  start. unfold triggerObservers_body.
  destruct (observerMap s !! dep); [|exact H].
  apply keeps_for_each; [intros; apply trigger_one_keeps|exact H].
Qed.

Lemma call_observer_body_keeps o : keeps R (call_observer_body E o).
Proof.
  start. unfold call_observer_body.
  destruct (observers s !! o) as [[cell|cell]|].
  - apply (keeps_computedObserver HE). fwd.
  - apply (keeps_once_observer HE). fwd.
  - apply keeps_type_error. exact H.
Qed.

Lemma computedObserver_body_keeps c : keeps R (computedObserver_body E c).
Proof.
  unfold computedObserver_body.
  repeat (apply keeps_bind; [apply keeps_modify; intros; fwd | intros _]).
  apply (keeps_triggerObservers HE).
Qed.

Lemma recompute_keeps c cell : keeps R (recompute E c cell).
Proof.
  start. unfold recompute.
  apply keeps_try_finally.
  - apply keeps_try_catch.
    + apply keeps_bind; [apply keeps_modify; intros; fwd | intros _].
      apply keeps_resumeTrackingWhile.
      apply keeps_bind; [apply (keeps_run HE) | intros; apply keeps_modify; intros; fwd].
    + intros x s1 s2 H2.
      pose proof (R_describeError x (c_name cell) s2) as Hd.
      destruct (describeError x (c_name cell) s2) as [e s3]. simpl in Hd.
      eapply (R_trans HR); [exact H2|]. eapply (R_trans HR); [exact Hd|]. fwd.
  - repeat (apply keeps_bind; [apply keeps_modify; intros; fwd | intros _]).
    apply keeps_modify; intros; fwd.
  - eapply (R_trans HR); [exact H|].
    eapply (R_trans HR); [apply (R_observersStack HR)|].
    eapply (R_trans HR); [apply (R_disallowWrites HR)|]. apply R_emit.
Qed.

Lemma cached_result_keeps c : keeps R (cached_result c).
Proof.
  start. unfold cached_result.
  destruct (observers s !! c) as [[cell|cell]|]; try (apply keeps_type_error; exact H).
  destruct (c_hasError cell); [destruct (c_error cell)|]; exact H.
Qed.

Lemma computed_get_body_keeps c : keeps R (computed_get_body E c).
Proof.
  unfold computed_get_body.
  apply keeps_bind; [apply keeps_modify; intros; fwd | intros _].
  apply keeps_bind; [|intros _; apply cached_result_keeps].
  start. destruct (observers s !! c) as [[cell|cell]|]; try (apply keeps_type_error; exact H).
  destruct (c_hasChanges cell); [apply recompute_keeps; exact H|exact H].
Qed.

Lemma drain_body_keeps : keeps R (drain_body E).
Proof.
  start. unfold drain_body.
  destruct (effectQueue s) as [[|o l]|]; [exact H| |apply keeps_type_error; exact H].
  apply (keeps_bind _ _ (keeps_for_each _ _ (keeps_call_observer HE))
           (fun _ => keeps_drain HE)).
  fwd.
Qed.

Lemma call_bulk_effect_keeps effect : keeps R (call_bulk_effect E effect).
Proof.
  unfold call_bulk_effect. destruct effect.
  - apply keeps_bind; [apply (keeps_triggerObservers HE)|intros; apply keeps_ret].
  - apply (keeps_run HE).
  - apply keeps_bind; [apply (keeps_onceEffect HE)|intros; apply keeps_ret].
Qed.

Lemma bulk_catch_keeps onError error : keeps R (bulk_catch E onError error).
Proof.
  start. unfold bulk_catch.
  pose proof (R_fnName (bulk_effect_name (currentEffect s) s) "Unknown" s) as Hn.
  destruct (fnName (bulk_effect_name (currentEffect s) s) "Unknown" s) as [name s1].
  pose proof (R_describeError error name s1) as Hd.
  destruct (describeError error name s1) as [e s2]. simpl in Hn, Hd.
  assert (H2 : R s0 s2) by (eapply (R_trans HR); [exact H|]; eapply (R_trans HR); eauto).
  destruct onError as [| |effectName errorHandler].
  - fwd.
  - exact H2.
  - pose proof (R_describeError (ExnError e) effectName s2) as Hd2.
    destruct (describeError (ExnError e) effectName s2) as [e' s3]. simpl in Hd2.
    apply (keeps_bind _ _ (keeps_handleOrLog HE _ _) (fun _ => keeps_ret VUndefined)).
    eapply (R_trans HR); eauto.
Qed.

Lemma bulk_frame_keeps effect onError body :
  keeps R body -> keeps R (bulk_frame E effect onError body).
Proof.
  intros Hbody. start. unfold bulk_frame.
  apply keeps_try_finally.
  - apply keeps_try_catch; [exact Hbody|intros; apply bulk_catch_keeps].
  - apply keeps_bind; [|intros _; apply keeps_modify; intros; fwd].
    destruct (effectQueue s); [apply keeps_ret|].
    apply keeps_bind; [apply (keeps_drain HE)|intros _].
    apply keeps_bind; apply keeps_modify || (intros _; apply keeps_modify); intros; fwd.
  - eapply (R_trans HR); [|apply (R_currentEffect HR)].
    destruct (effectQueue s); [exact H|].
    eapply (R_trans HR); [exact H|].
    eapply (R_trans HR); [apply (R_effectQueue HR)|apply (R_reactionsDepthMap HR)].
Qed.

Lemma bulkEffects_body_keeps effect onError : keeps R (bulkEffects_body E effect onError).
Proof. apply bulk_frame_keeps, call_bulk_effect_keeps. Qed.

Lemma call_handler_keeps h error : keeps R (call_handler E h error).
Proof.
  unfold call_handler. destruct h as [[h|r] o|h r].
  - apply keeps_bind; [apply (keeps_run HE)|intros; apply keeps_ret].
  - apply keeps_bind; [apply keeps_modify; intros; fwd|intros; apply (keeps_handleError HE)].
  - apply keeps_bind; [apply (keeps_run HE)|intros; apply keeps_ret].
Qed.

Lemma handleOrLog_body_keeps error onError : keeps R (handleOrLog_body E error onError).
Proof.
  unfold handleOrLog_body. apply keeps_try_catch.
  - destruct onError; [apply call_handler_keeps|apply keeps_raise].
  - intros x. apply keeps_modify. intros. apply R_console_error.
Qed.

Lemma action_body_keeps f : keeps R (action_body E f).
Proof.
  start. unfold action_body.
  apply keeps_try_finally.
  - intros s0' s1 H1.
    pose proof (R_fnName (fn_name f) "Action" s1) as Hn.
    destruct (fnName (fn_name f) "Action" s1) as [name s2]. simpl in Hn.
    apply (keeps_bulkEffects HE). eapply (R_trans HR); eauto.
  - apply keeps_modify. intros. fwd.
  - fwd.
Qed.

Lemma call_observe_keeps observe d : keeps R (call_observe E observe d).
Proof.
  unfold call_observe. destruct observe.
  - apply keeps_bind; [apply (keeps_run HE)|intros; apply keeps_ret].
  - apply (keeps_actionWrap HE).
Qed.

Lemma dispose_if_called_keeps o : keeps R (dispose_if_called o).
Proof.
  start. unfold dispose_if_called.
  destruct (observers s !! o) as [[cell|cell]|]; try exact H.
  destruct (o_internalDisposerCalled cell); [fwd|exact H].
Qed.

Lemma once_body_keeps observe effect onError : keeps R (once_body E observe effect onError).
Proof.
  start. unfold once_body.
  pose proof (R_fnName (once_observe_name observe s) "OnceObserver" s) as Hn1.
  destruct (fnName (once_observe_name observe s) "OnceObserver" s) as [observerName s1].
  pose proof (R_fnName (once_effect_name effect s1) "OnceEffect" s1) as Hn2.
  destruct (fnName (once_effect_name effect s1) "OnceEffect" s1) as [effectName s2].
  simpl in Hn1, Hn2.
  apply keeps_bind; [|intros; apply keeps_ret|].
  - apply keeps_try_finally.
    + apply keeps_try_catch.
      * apply keeps_bind; [|intros; apply dispose_if_called_keeps].
        apply keeps_resumeTrackingWhile, call_observe_keeps.
      * intros x s0' s4 H4.
        pose proof (R_describeError x observerName s4) as Hd.
        destruct (describeError x observerName s4) as [e s5]. simpl in Hd.
        apply (keeps_handleOrLog HE). eapply (R_trans HR); eauto.
    + apply keeps_modify. intros. fwd.
  - eapply (R_trans HR); [exact H|]. eapply (R_trans HR); [exact Hn1|].
    eapply (R_trans HR); [exact Hn2|].
    eapply (R_trans HR); [apply (R_new_observer HR)|]. apply (R_observersStack HR).
Qed.

Lemma once_observer_body_keeps o cell : keeps R (once_observer_body E o cell).
Proof.
  unfold once_observer_body.
  apply keeps_bind; [apply keeps_modify; intros; fwd|intros _].
  apply keeps_bind; [apply (keeps_bulkEffects HE)|intros; apply keeps_ret].
Qed.

Lemma reaction_body_keeps act effect immediate onError :
  keeps R (reaction_body E act effect immediate onError).
Proof.
  start. unfold reaction_body.
  match goal with |- context [fnName (fn_name act) ?fb s] =>
    pose proof (R_fnName (fn_name act) fb s) as Hn1;
    destruct (fnName (fn_name act) fb s) as [actionName s1] end.
  pose proof (R_fnName (effect ≫= fn_name) "ReactionEffect" s1) as Hn2.
  destruct (fnName (effect ≫= fn_name) "ReactionEffect" s1) as [effectName s2].
  simpl in Hn1, Hn2.
  apply keeps_bind; [apply (keeps_createOnceLoop HE)|intros _|].
  - apply keeps_bind; [|intros; apply keeps_ret].
    destruct immediate; [apply (keeps_effectWrap HE)|apply keeps_ret].
  - eapply (R_trans HR); [exact H|]. eapply (R_trans HR); [exact Hn1|].
    eapply (R_trans HR); [exact Hn2|]. apply (R_new_reaction HR).
Qed.

Lemma actionWrap_body_keeps r d : keeps R (actionWrap_body E r d).
Proof.
  start. unfold actionWrap_body.
  destruct (reactions s !! r) as [cell|]; [|apply keeps_type_error; exact H].
  apply keeps_bind; [apply (keeps_run HE)|intros; apply keeps_modify; intros; fwd|exact H].
Qed.

Lemma effectWrap_body_keeps r : keeps R (effectWrap_body E r).
Proof.
  start. unfold effectWrap_body.
  destruct (reactions s !! r) as [cell|]; [|apply keeps_type_error; exact H].
  destruct (rx_effect cell) as [effect|]; [|exact H].
  apply keeps_try_catch; [| |exact H].
  - apply keeps_bind; [apply (keeps_run HE)|intros; apply keeps_ret].
  - intros x s0' s1 H1.
    pose proof (R_describeError x (rx_effectName cell) s1) as Hd.
    destruct (describeError x (rx_effectName cell) s1) as [e s2]. simpl in Hd.
    apply (keeps_handleError HE). eapply (R_trans HR); eauto.
Qed.

Lemma onceEffect_body_keeps r : keeps R (onceEffect_body E r).
Proof.
  start. unfold onceEffect_body.
  destruct (reactions s !! r) as [cell|]; [|apply keeps_type_error; exact H].
  destruct (Nat.ltb _ _).
  - simpl. fwd.
  - apply keeps_bind; [apply (keeps_createOnceLoop HE)|intros; apply (keeps_effectWrap HE)|].
    fwd.
Qed.

Lemma handleError_body_keeps r error : keeps R (handleError_body E r error).
Proof.
  start. unfold handleError_body.
  destruct (reactions s !! r) as [cell|]; [|apply keeps_type_error; exact H].
  apply (keeps_handleOrLog HE). exact H.
Qed.

Lemma createOnceLoop_body_keeps r : keeps R (createOnceLoop_body E r).
Proof.
  unfold createOnceLoop_body.
  apply keeps_bind; [apply (keeps_once HE)|intros; apply keeps_modify; intros; fwd].
Qed.

Lemma engine_step_keeps : engine_keeps R (engine_step E).
Proof.
  split; simpl; intros.
  - apply run_body_keeps.
  - apply signal_set_body_keeps.
  - apply signal_changed_body_keeps.
  - apply signal_edit_body_keeps.
  - apply triggerObservers_body_keeps.
  - apply call_observer_body_keeps.
  - apply computedObserver_body_keeps.
  - apply computed_get_body_keeps.
  - apply bulkEffects_body_keeps.
  - apply drain_body_keeps.
  - apply handleOrLog_body_keeps.
  - apply action_body_keeps.
  - apply once_body_keeps.
  - apply once_observer_body_keeps.
  - apply reaction_body_keeps.
  - apply actionWrap_body_keeps.
  - apply effectWrap_body_keeps.
  - apply onceEffect_body_keeps.
  - apply handleError_body_keeps.
  - apply createOnceLoop_body_keeps.
Qed.

End Step.

Lemma engine_of_keeps fuel : engine_keeps R (engine_of fuel).
Proof.
  induction fuel as [|fuel IH]; [apply engine_zero_keeps|].
  apply engine_step_keeps, IH.
Qed.

End Respect.

(** ** Two invariants of the engine *)

Lemma symmetric_ext s s' :
  observerMap s' = observerMap s -> dependencyMap s' = dependencyMap s ->
  keeps_symmetric s s'.
Proof.
  intros Ho Hd Hs d o. unfold observers_of, deps_of. rewrite Ho, Hd. apply Hs.
Qed.

Lemma keeps_symmetric_respected : respected keeps_symmetric.
Proof.
  split; [intros s Hs; exact Hs | intros s1 s2 s3 H12 H23 Hs; auto | ..];
    try (intros; apply symmetric_ext; reflexivity).
  - intros d s. exact (registerDependency_symmetric d s).
  - intros o s. exact (clearDependencies_symmetric o s).
Qed.

Lemma same_closure_refl a : same_closure a a.
Proof. destruct a; simpl; auto. Qed.

Lemma same_closure_trans a b c : same_closure a b -> same_closure b c -> same_closure a c.
Proof.
  destruct a, b, c; simpl; try tauto.
  - intros [-> ->] [-> ->]. auto.
  - intros (-> & -> & -> & ->) (-> & -> & -> & ->). auto.
Qed.

Lemma keeps_cells_ext s s' :
  observers s' = observers s -> next_obs s' = next_obs s -> keeps_cells s s'.
Proof.
  intros Ho Hn Ha. split.
  - intros o. rewrite Hn, Ho. apply Ha.
  - intros o cell Hc. rewrite Ho. exists cell. split; [exact Hc|apply same_closure_refl].
Qed.

Lemma keeps_cells_alter f o0 s :
  (forall cell, same_closure cell (f cell)) ->
  keeps_cells s (set_observers (alter f o0 (observers s)) s).
Proof.
  intros Hf Ha. split.
  - intros o Ho. simpl in *.
    destruct (decide (o0 = o)) as [->|Hne].
    + rewrite lookup_alter_eq, (Ha o Ho). reflexivity.
    + rewrite lookup_alter_ne by exact Hne. apply Ha, Ho.
  - intros o cell Hc. simpl.
    destruct (decide (o0 = o)) as [->|Hne].
    + rewrite lookup_alter_eq, Hc. simpl. eexists. split; [reflexivity|apply Hf].
    + rewrite lookup_alter_ne by exact Hne.
      exists cell. split; [exact Hc|apply same_closure_refl].
Qed.

Lemma keeps_cells_refl s : keeps_cells s s.
Proof.
  intros Ha. split; [exact Ha|]. intros o cell Hc. exists cell.
  split; [exact Hc|apply same_closure_refl].
Qed.

Lemma keeps_cells_trans s1 s2 s3 : keeps_cells s1 s2 -> keeps_cells s2 s3 -> keeps_cells s1 s3.
Proof.
  intros H12 H23 Ha.
  destruct (H12 Ha) as [Ha2 K12]. destruct (H23 Ha2) as [Ha3 K23].
  split; [exact Ha3|]. intros o cell Hc.
  destruct (K12 o cell Hc) as (c2 & Hc2 & S12).
  destruct (K23 o c2 Hc2) as (c3 & Hc3 & S23).
  exists c3. split; [exact Hc3|eapply same_closure_trans; eauto].
Qed.

Lemma keeps_cells_respected : respected keeps_cells.
Proof.
  split; [exact keeps_cells_refl | exact keeps_cells_trans | ..];
    try (intros; apply keeps_cells_ext; reflexivity).
  - intros d s. apply keeps_cells_ext.
    + destruct (registerDependency_frame d s) as (_ & _ & F & _). exact F.
    + unfold registerDependency. destruct (observersStack s); [reflexivity|].
      destruct (doNotTrack s); reflexivity.
  - intros o s. apply keeps_cells_ext.
    + destruct (clearDependencies_frame o s) as (_ & _ & F & _). exact F.
    + unfold clearDependencies. destruct (dependencyMap s !! o); reflexivity.
  - intros c f s Hf. apply keeps_cells_alter. intros [cc|oc]; simpl; [|auto].
    destruct (Hf cc) as [-> ->]. auto.
  - intros o b s. apply keeps_cells_alter. intros [cc|oc]; simpl; auto.
  - intros cell s Ha. split.
    + intros o Ho. simpl in *. rewrite lookup_insert_ne by lia. apply Ha. lia.
    + intros o cell0 Hc. simpl.
      assert (Hne : next_obs s <> o).
      { intros Heq. pose proof (Ha o ltac:(lia)) as Hnone.
        assert (Habs : Some cell0 = None) by (rewrite <- Hc; exact Hnone).
        discriminate. }
      rewrite lookup_insert_ne by exact Hne.
      exists cell0. split; [exact Hc|apply same_closure_refl].
Qed.

Lemma initial_state_allocated : allocated initial_state.
Proof. intros o _. apply lookup_empty. Qed.

(** Every function of the engine leaves a symmetric registry symmetric,
    and cells where they are. *)
Lemma engine_symmetric fuel : engine_keeps keeps_symmetric (engine_of fuel).
Proof. apply engine_of_keeps, keeps_symmetric_respected. Qed.

Lemma engine_cells fuel : engine_keeps keeps_cells (engine_of fuel).
Proof. apply engine_of_keeps, keeps_cells_respected. Qed.

Lemma run_symmetric n p s :
  symmetric s ->
  match run n p s with
  | Done _ s' | Raised _ s' => symmetric s'
  | OutOfFuel => True
  end.
Proof.
  intros Hs.
  pose proof (keeps_run (engine_symmetric n) p s s (fun H => H)) as H.
  change (k_run (engine_of n) p s) with (run n p s) in H.
  destruct (run n p s); auto.
Qed.

Lemma run_cells n p s :
  allocated s ->
  match run n p s with
  | Done _ s' | Raised _ s' =>
      allocated s' /\
      forall o cell, observers s !! o = Some cell ->
        exists cell', observers s' !! o = Some cell' /\ same_closure cell cell'
  | OutOfFuel => True
  end.
Proof.
  intros Ha.
  pose proof (keeps_run (engine_cells n) p s s (keeps_cells_refl s)) as H.
  change (k_run (engine_of n) p s) with (run n p s) in H.
  destruct (run n p s); auto.
Qed.

(** The states a program reaches from the initial state are symmetric and
    allocated. *)
Lemma reachable_symmetric n p :
  match run n p initial_state with
  | Done _ s | Raised _ s => symmetric s /\ allocated s
  | OutOfFuel => True
  end.
Proof.
  pose proof (run_symmetric n p initial_state initial_state_symmetric) as H1.
  pose proof (run_cells n p initial_state initial_state_allocated) as H2.
  destruct (run n p initial_state); [split; tauto|split; tauto|exact I].
Qed.

(** ** Writing the value a signal already holds *)

(** C2.  [write(v)] with the value the signal holds returns at once and
    leaves the whole state as it was: the stored value, the registry, the
    queue and the trace, so that no observer is called or queued; this
    holds for any number of such writes in a row.  (When writes are
    disallowed the write throws instead, and again only the counter of
    error objects changes.) *)
Theorem write_same_value_is_noop (n times : nat) (sid : sig_id) (v : value) (s : state) :
  signal_value sid s = v ->
  (disallowWrites s = false ->
   for_each (fun _ : unit => signal_set (S n) sid v) (replicate times ()) s = Done tt s) /\
  (disallowWrites s = true ->
   exists e, signal_set (S n) sid v s
             = Raised (ExnError e) (set_next_err (S (next_err s)) s)).
Proof.
  intros Hv. split; intros Hw.
  - induction times as [|times IH]; simpl; [reflexivity|].
    unfold bind.
    change (signal_set (S n) sid v s) with (signal_set_body (engine_of n) sid v s).
    unfold signal_set_body. rewrite Hw, Hv, value_eqb_refl. simpl. exact IH.
  - change (signal_set (S n) sid v s) with (signal_set_body (engine_of n) sid v s).
    unfold signal_set_body. rewrite Hw. simpl. eexists. reflexivity.
Qed.

Lemma write_same_value_is_noop_witness :
  signal_value 0%nat (once_tracking_1 (VNum 1) (VNum 3)) = VNum 1 /\
  disallowWrites (once_tracking_1 (VNum 1) (VNum 3)) = false /\
  observerMap (once_tracking_1 (VNum 1) (VNum 3)) !! DepSignal 0%nat = Some [0%nat] /\
  for_each (fun _ : unit => signal_set 5 0%nat (VNum 1)) (replicate 3 ())
    (once_tracking_1 (VNum 1) (VNum 3))
  = Done tt (once_tracking_1 (VNum 1) (VNum 3)).
Proof.
  split; [reflexivity|]. split; [reflexivity|]. split; [vm_compute; reflexivity|].
  exact (proj1 (write_same_value_is_noop 4 3 0%nat (VNum 1)
                  (once_tracking_1 (VNum 1) (VNum 3)) eq_refl) eq_refl).
Defined.

(** ** The cache of a computed *)

Lemma cached_result_cache c cell s :
  observers s !! c = Some (ObsComputed cell) ->
  result_of (cached_result c s) = Some (cache_of cell) /\
  state_of (cached_result c s) = Some s.
Proof.
  intros Hc. unfold cached_result, cache_of. rewrite Hc.
  destruct (c_hasError cell); [destruct (c_error cell)|]; done.
Qed.

(** A read of a computed that is not marked changed runs nothing. *)
Lemma computed_get_clean n c s cell :
  observers s !! c = Some (ObsComputed cell) ->
  c_hasChanges cell = false ->
  computed_get (S n) c s = cached_result c (registerDependency (DepObserver c) s).
Proof.
  intros Hc Hd.
  change (computed_get (S n) c s) with (computed_get_body (engine_of n) c s).
  unfold computed_get_body, bind, modify.
  destruct (registerDependency_frame (DepObserver c) s) as (_ & _ & F & _).
  rewrite F, Hc, Hd. reflexivity.
Qed.


Lemma read_times_clean times m c cell s :
  observers s !! c = Some (ObsComputed cell) ->
  c_hasChanges cell = false ->
  exists s2,
    read_times (S m) c times s = Some (replicate times (cache_of cell), s2) /\
    trace s2 = trace s /\ observers s2 = observers s /\ signals s2 = signals s.
Proof.
  revert s. induction times as [|times IH]; intros s Hc Hd; simpl.
  - exists s. done.
  - rewrite (computed_get_clean _ _ _ _ Hc Hd).
    destruct (registerDependency_frame (DepObserver c) s) as (_ & _ & F3 & F4 & F5 & _).
    assert (Hc' : observers (registerDependency (DepObserver c) s) !! c
                  = Some (ObsComputed cell)) by (rewrite F3; exact Hc).
    destruct (cached_result_cache _ _ _ Hc') as [-> ->].
    destruct (IH _ Hc' Hd) as (s2 & -> & T & O & G).
    exists s2. split; [reflexivity|]. split; [congruence|]. split; congruence.
Qed.

(** The evaluation of a computed does not throw, and ends with
    [compute_exit]. *)
Lemma recompute_exits E c cell s :
  match recompute E c cell s with
  | Done _ s' => exists sm, s' = compute_exit c sm
  | Raised _ _ => False
  | OutOfFuel => True
  end.
Proof.
  unfold recompute, try_finally, try_catch.
  match goal with |- context [bind ?a ?b ?st] => destruct (bind a b st) as [[] s1|x s1|] end.
  - exists s1. reflexivity.
  - destruct (describeError x (c_name cell) s1) as [e s2].
    exists (update_computed c (with_error true (Some e)) s2). reflexivity.
  - exact I.
Qed.

(** However a read ends, the computed is then no longer marked changed and
    what the read returned or threw is what the cache holds. *)
Lemma computed_get_result n c s :
  match computed_get n c s with
  | Done v s1 =>
      exists cell1, observers s1 !! c = Some (ObsComputed cell1) /\
                    c_hasChanges cell1 = false /\ cache_of cell1 = inl v
  | Raised x s1 =>
      forall cell1, observers s1 !! c = Some (ObsComputed cell1) ->
                    c_hasChanges cell1 = false /\ cache_of cell1 = inr x
  | OutOfFuel => True
  end.
Proof.
  destruct n as [|n]; [exact I|].
  change (computed_get (S n) c s) with (computed_get_body (engine_of n) c s).
  unfold computed_get_body, bind, modify.
  destruct (registerDependency_frame (DepObserver c) s) as (_ & _ & F & _).
  set (sa := registerDependency (DepObserver c) s) in *. clearbody sa. clear F.
  assert (Hcached : forall sb,
            (forall cell1, observers sb !! c = Some (ObsComputed cell1) ->
                           c_hasChanges cell1 = false) ->
            match cached_result c sb with
            | Done v s1 =>
                exists cell1, observers s1 !! c = Some (ObsComputed cell1) /\
                              c_hasChanges cell1 = false /\ cache_of cell1 = inl v
            | Raised x s1 =>
                forall cell1, observers s1 !! c = Some (ObsComputed cell1) ->
                              c_hasChanges cell1 = false /\ cache_of cell1 = inr x
            | OutOfFuel => True
            end).
  { intros sb Hclean. unfold cached_result, cache_of, type_error.
    destruct (observers sb !! c) as [[cell|oc]|] eqn:Hb; simpl.
    - pose proof (Hclean cell eq_refl) as Hcl.
      destruct (c_hasError cell) eqn:He.
      + destruct (c_error cell) eqn:Hx; intros cell1 H1; rewrite Hb in H1;
          injection H1 as <-; rewrite He, Hx; (split; [exact Hcl|reflexivity]).
      + exists cell. rewrite He. split; [exact Hb|]. split; [exact Hcl|reflexivity].
    - intros cell1 H1. congruence.
    - intros cell1 H1. congruence. }
  destruct (observers sa !! c) as [[cell|oc]|] eqn:Ha.
  - destruct (c_hasChanges cell) eqn:Hd.
    + pose proof (recompute_exits (engine_of n) c cell sa) as Hx.
      destruct (recompute (engine_of n) c cell sa) as [[] sb|x sb|]; try done.
      destruct Hx as [sm ->]. apply Hcached.
      intros cell1. unfold compute_exit, update_computed. simpl.
      rewrite lookup_alter_eq.
      destruct (observers sm !! c) as [[cc|oc]|]; simpl; intros H1; try congruence.
      injection H1 as <-. reflexivity.
    + apply Hcached. intros cell1 H1. congruence.
  - unfold type_error. simpl. intros cell1 H1. congruence.
  - unfold type_error. simpl. intros cell1 H1. congruence.
Qed.

(** C3.  Whatever a read of computed [c] did, once it has returned [v],
    any number of further reads, with nothing in between, return [v] and
    run nothing: the trace, where every call of a compute function and of
    an observer is recorded, the cells and the signals stay as the first
    read left them.  Across all these reads the compute function is called
    as often as the first read called it. *)
Theorem computed_reads_are_cached (n : nat) (c : obs_id) (s s1 : state) (v : value) :
  computed_get n c s = Done v s1 ->
  forall times m, exists s2,
    read_times (S m) c times s1 = Some (replicate times (inl v), s2) /\
    trace s2 = trace s1 /\
    compute_calls c (trace s2) = compute_calls c (trace s1) /\
    observers s2 = observers s1 /\ signals s2 = signals s1.
Proof.
  intros Hget times m.
  pose proof (computed_get_result n c s) as H. rewrite Hget in H.
  destruct H as (cell1 & Hc & Hd & Hv).
  destruct (read_times_clean times m c cell1 s1 Hc Hd) as (s2 & R & T & O & G).
  exists s2. rewrite R, Hv, T. done.
Qed.

Lemma computed_reads_are_cached_witness :
  computed_get 10 0%nat sum_0 = Done (VNum 3) sum_1 /\
  compute_calls 0%nat (trace sum_1) = 1%nat /\
  exists s2,
    read_times 6 0%nat 4 sum_1 = Some (replicate 4 (inl (VNum 3)), s2) /\
    trace s2 = trace sum_1 /\
    compute_calls 0%nat (trace s2) = compute_calls 0%nat (trace sum_1) /\
    observers s2 = observers sum_1 /\ signals s2 = signals sum_1.
Proof.
  assert (H : computed_get 10 0%nat sum_0 = Done (VNum 3) sum_1) by (vm_compute; reflexivity).
  split; [exact H|]. split; [vm_compute; reflexivity|].
  exact (computed_reads_are_cached 10 0%nat sum_0 sum_1 (VNum 3) H 4%nat 5%nat).
Defined.

(** ** A computed that throws *)

(** What [describeError] returns carries the marker and, unless it was
    marked before, the source in its message; an error object keeps its
    identity. *)
Lemma describeError_labels (x : exn) (source : string) (s : state) :
  let e := (describeError x source s).1 in
  err_statin e = true /\
  match x with
  | ExnError e0 =>
      err_id e = err_id e0 /\
      (err_statin e0 = false ->
       err_message e = "Error in " +:+ source +:+ ": " +:+ err_message e0)
  | ExnValue v =>
      err_message e = "Error in " +:+ source +:+ ": " +:+ value_to_string v
  end.
Proof.
  unfold describeError. destruct x as [e0|v]; simpl.
  - destruct (err_statin e0) eqn:He; simpl; [split; [exact He|split; [reflexivity|discriminate]]|].
    split; [reflexivity|]. split; reflexivity.
  - split; reflexivity.
Qed.







(** ** [edit] and [changed] while writes are disallowed *)

(** C10.  Whatever [disallowWrites] is, and so also while a computed is
    being evaluated: [changed] with a batch open does not throw, returns
    (in a symmetric registry, given fuel beyond three times the number of
    subscribed observers) and has then delivered every observer of the
    signal but the one on top of the stack; [edit] runs the mutator on the
    current value, throws what the mutator throws and nothing else, and
    otherwise goes on like [changed]; only [write] throws when writes are
    disallowed.  Outside a
    batch, in the scenario of [guard_setup]: a computed that calls [edit]
    and one that calls [changed] both return their value, the mutator has
    seen the current value and the [once] that observes the signal has
    fired, whereas the computed that writes throws. *)
Theorem edit_and_changed_ignore_write_guard :
  (forall n sid v s,
      disallowWrites s = true ->
      signal_set (S n) sid v s
      = Raised (ExnError (mkError (next_err s)
                            "Writing to signals not allowed in this context." false false))
               (set_next_err (S (next_err s)) s)) /\
  (forall n sid s,
      is_Some (effectQueue s) ->
      match signal_changed n sid s with
      | Done _ s' =>
          disallowWrites s' = disallowWrites s /\
          forall o, o ∈ default [] (observerMap s !! DepSignal sid) ->
                    head (observersStack s) <> Some o -> delivers o s s'
      | Raised _ _ => False
      | OutOfFuel => ~ (symmetric s /\ 3 * size (dependencyMap s) + 2 <= n)
      end) /\
  (forall n sid editor s,
      match run n (editor (signal_value sid s)) s with
      | Done _ s1 =>
          is_Some (effectQueue s1) ->
          match signal_edit (S n) sid editor s with
          | Done _ s' =>
              disallowWrites s' = disallowWrites s1 /\
              forall o, o ∈ default [] (observerMap s1 !! DepSignal sid) ->
                        head (observersStack s1) <> Some o -> delivers o s1 s'
          | Raised _ _ => False
          | OutOfFuel => ~ (symmetric s1 /\ 3 * size (dependencyMap s1) + 2 <= n)
          end
      | Raised x s1 => signal_edit (S n) sid editor s = Raised x s1
      | OutOfFuel => signal_edit (S n) sid editor s = OutOfFuel
      end) /\
  (exists s1 s2 s3 e,
      run 20 guard_setup initial_state = Done VUndefined guard_0 /\
      observerMap guard_0 !! DepSignal 0%nat = Some [0%nat] /\
      computed_get 20 1%nat guard_0 = Done (VNum 5) s1 /\
      trace s1 = [EvCompute 1%nat; EvLog (VNum 1); EvObserver 0%nat; EvLog (VNum 7)] /\
      computed_get 20 2%nat guard_0 = Done (VNum 6) s2 /\
      trace s2 = [EvCompute 2%nat; EvObserver 0%nat; EvLog (VNum 7)] /\
      computed_get 20 3%nat guard_0 = Raised (ExnError e) s3 /\
      err_message e = "Error in viaWrite: Writing to signals not allowed in this context." /\
      trace s3 = [EvCompute 3%nat] /\ signals s3 !! 0%nat = Some (VNum 1)).
Proof.
  split.
  { intros n sid v s Hw.
    change (signal_set (S n) sid v s) with (signal_set_body (engine_of n) sid v s).
    unfold signal_set_body. rewrite Hw. reflexivity. }
  assert (Hchanged : forall n sid s,
            is_Some (effectQueue s) ->
            match signal_changed n sid s with
            | Done _ s' =>
                disallowWrites s' = disallowWrites s /\
                forall o, o ∈ default [] (observerMap s !! DepSignal sid) ->
                          head (observersStack s) <> Some o -> delivers o s s'
            | Raised _ _ => False
            | OutOfFuel => ~ (symmetric s /\ 3 * size (dependencyMap s) + 2 <= n)
            end).
  { intros n sid s Hq. destruct n as [|n]; [simpl; lia|].
    change (signal_changed (S n) sid s) with (signal_changed_body (engine_of n) sid s).
    unfold signal_changed_body. destruct Hq as [q Hq]. rewrite Hq.
    change (k_triggerObservers (engine_of n)) with (triggerObservers n).
    assert (Hq' : is_Some (effectQueue s)) by (rewrite Hq; eauto).
    pose proof (triggerObservers_delivers n (DepSignal sid) s Hq') as H.
    destruct (triggerObservers n (DepSignal sid) s) eqn:E; [|exact H|].
    - destruct H as (Hc & _ & Hd). split; [|exact Hd].
      apply (cascade_keeps _ _ _ Hc).
    - intros [Hs Hn].
      destruct (triggerObservers_returns n (DepSignal sid) s Hq' Hs ltac:(lia)) as [s' Hs'].
      congruence. }
  split; [exact Hchanged|].
  split.
  { intros n sid editor s.
    change (signal_edit (S n) sid editor s)
      with ((run n (editor (signal_value sid s)) ;; signal_changed n sid) s).
    unfold bind.
    destruct (run n (editor (signal_value sid s)) s) as [r s1|x s1|]; [|reflexivity..].
    intros Hq. exact (Hchanged n sid s1 Hq). }
  eexists _, _, _, _.
  split; [vm_compute; reflexivity|].
  split; [vm_compute; reflexivity|].
  split; [vm_compute; reflexivity|].
  split; [vm_compute; reflexivity|].
  split; [vm_compute; reflexivity|].
  split; [vm_compute; reflexivity|].
  split; [vm_compute; reflexivity|].
  split; [vm_compute; reflexivity|].
  split; vm_compute; reflexivity.
Qed.

Lemma edit_and_changed_ignore_write_guard_witness :
  disallowWrites guard_1 = true /\ is_Some (effectQueue guard_1) /\
  (exists e s', signal_set 5 0%nat (VNum 2) guard_1 = Raised (ExnError e) s' /\
                signals s' !! 0%nat = Some (VNum 1)) /\
  (exists s', signal_changed 5 0%nat guard_1 = Done tt s' /\
              effectQueue s' = Some [0%nat] /\
              disallowWrites s' = true /\ delivers 0%nat guard_1 s') /\
  (exists s', signal_edit 6 0%nat (fun v => Log v skip) guard_1 = Done tt s' /\
              effectQueue s' = Some [0%nat] /\
              trace s' = [EvLog (VNum 1)] /\ disallowWrites s' = true).
Proof.
  assert (Hw : disallowWrites guard_1 = true) by reflexivity.
  assert (Hq : is_Some (effectQueue guard_1)) by (eexists; reflexivity).
  destruct edit_and_changed_ignore_write_guard as (Hset & Hchanged & Hedit & _).
  split; [exact Hw|]. split; [exact Hq|]. split; [|split].
  - eexists _, _. split; [exact (Hset 4%nat 0%nat (VNum 2) guard_1 Hw)|].
    vm_compute. reflexivity.
  - specialize (Hchanged 5%nat 0%nat guard_1 Hq).
    destruct (signal_changed 5 0%nat guard_1) as [[] s'|x s'|] eqn:E.
    + exists s'. split; [reflexivity|].
      assert (E' : state_of (signal_changed 5 0%nat guard_1)
                   = Some (set_effectQueue (Some [0%nat]) guard_1))
        by (vm_compute; reflexivity).
      rewrite E in E'. injection E' as ->.
      destruct Hchanged as [Hd Hdel].
      split; [reflexivity|]. split; [reflexivity|].
      apply Hdel; [vm_compute; apply list_elem_of_here | vm_compute; discriminate].
    + destruct Hchanged.
    + vm_compute in E. discriminate.
  - specialize (Hedit 5%nat 0%nat (fun v => Log v skip) guard_1).
    assert (E1 : run 5 (Log (signal_value 0%nat guard_1) skip) guard_1
                 = Done VUndefined (emit (EvLog (VNum 1)) guard_1))
      by (vm_compute; reflexivity).
    cbv beta in Hedit. rewrite E1 in Hedit.
    specialize (Hedit ltac:(eexists; reflexivity)).
    destruct (signal_edit 6 0%nat (fun v => Log v skip) guard_1) as [[] s'|x s'|] eqn:E.
    + exists s'. split; [reflexivity|].
      assert (E' : state_of (signal_edit 6 0%nat (fun v => Log v skip) guard_1)
                   = Some (set_effectQueue (Some [0%nat]) (emit (EvLog (VNum 1)) guard_1)))
        by (vm_compute; reflexivity).
      rewrite E in E'. injection E' as ->.
      split; [reflexivity|]. split; [reflexivity|]. reflexivity.
    + destruct Hedit.
    + vm_compute in E. discriminate.
Defined.

(** ** The registry: edges, disposal, consistency *)

Lemma set_add_nonempty {A} `{EqDecision A} (x : A) l : set_add x l <> [].
Proof.
  unfold set_add. destruct (decide (x ∈ l)) as [Hin|_].
  - intros ->. inversion Hin.
  - destruct l; discriminate.
Qed.

Lemma set_add_NoDup {A} `{EqDecision A} (x : A) l : NoDup l -> NoDup (set_add x l).
Proof.
  intros Hl. unfold set_add. destruct (decide (x ∈ l)) as [|Hn]; [exact Hl|].
  apply NoDup_app. split; [exact Hl|]. split.
  - intros y Hy Hy'. apply list_elem_of_singleton in Hy'. subst. contradiction.
  - apply NoDup_singleton.
Qed.

Lemma set_add_idemp {A} `{EqDecision A} (x : A) l : set_add x (set_add x l) = set_add x l.
Proof.
  unfold set_add at 1. destruct (decide (x ∈ set_add x l)) as [|Hn]; [reflexivity|].
  exfalso. apply Hn, elem_of_set_add. left. reflexivity.
Qed.

Lemma set_delete_NoDup {A} `{EqDecision A} (x : A) l : NoDup l -> NoDup (set_delete x l).
Proof. apply NoDup_filter. Qed.

Lemma registerDependency_untracked dep s :
  head (observersStack s) = None \/ doNotTrack s = true -> registerDependency dep s = s.
Proof.
  unfold registerDependency. destruct (observersStack s) as [|o stack].
  - reflexivity.
  - intros [H|Ht]; [discriminate|rewrite Ht; reflexivity].
Qed.

Lemma registerDependency_observers_of dep s o d :
  tracking o s ->
  observers_of (registerDependency dep s) d
  = if decide (d = dep) then set_add o (observers_of s d) else observers_of s d.
Proof.
  intros [Hh Ht]. unfold registerDependency, observers_of.
  destruct (observersStack s) as [|o' stack]; [discriminate|].
  injection Hh as ->. rewrite Ht. simpl.
  destruct (decide (d = dep)) as [->|Hne].
  - rewrite lookup_insert_eq. reflexivity.
  - rewrite lookup_insert_ne by congruence. reflexivity.
Qed.

Lemma registerDependency_deps_of dep s o o' :
  tracking o s ->
  deps_of (registerDependency dep s) o'
  = if decide (o' = o) then set_add dep (deps_of s o') else deps_of s o'.
Proof.
  intros [Hh Ht]. unfold registerDependency, deps_of.
  destruct (observersStack s) as [|o'' stack]; [discriminate|].
  injection Hh as ->. rewrite Ht. simpl.
  destruct (decide (o' = o)) as [->|Hne].
  - rewrite lookup_insert_eq. reflexivity.
  - rewrite lookup_insert_ne by congruence. reflexivity.
Qed.

Lemma registerDependency_idemp dep s :
  registerDependency dep (registerDependency dep s) = registerDependency dep s.
Proof.
  unfold registerDependency at 2.
  destruct (observersStack s) as [|o stack] eqn:Hs.
  - unfold registerDependency. rewrite Hs. reflexivity.
  - destruct (doNotTrack s) eqn:Ht.
    + unfold registerDependency. rewrite Hs, Ht. reflexivity.
    + unfold registerDependency. simpl. rewrite Hs, Ht.
      rewrite !lookup_insert_eq. simpl. rewrite !set_add_idemp, !insert_insert_eq.
      reflexivity.
Qed.

(** X1.  [registerDependency(dep)] is idempotent.  With no observer on the
    stack, or with tracking paused, it changes nothing; otherwise it adds
    the edge between [dep] and the observer on top of the stack to both
    maps, and no other edge comes or goes. *)
Theorem registerDependency_adds_one_edge (dep : dependency) (s : state) :
  let s' := registerDependency dep s in
  registerDependency dep s' = s' /\
  match head (observersStack s) with
  | Some o =>
      if doNotTrack s then s' = s
      else
        o ∈ observers_of s' dep /\ dep ∈ deps_of s' o /\
        forall d o', (d <> dep \/ o' <> o) ->
          (o' ∈ observers_of s' d <-> o' ∈ observers_of s d) /\
          (d ∈ deps_of s' o' <-> d ∈ deps_of s o')
  | None => s' = s
  end.
Proof.
  intros s'. split; [apply registerDependency_idemp|].
  destruct (head (observersStack s)) as [o|] eqn:Hh.
  - destruct (doNotTrack s) eqn:Ht.
    + apply registerDependency_untracked. right. exact Ht.
    + assert (Htr : tracking o s) by (split; assumption).
      subst s'. split; [|split].
      * rewrite (registerDependency_observers_of _ _ _ _ Htr).
        destruct (decide (dep = dep)); [|congruence]. apply elem_of_set_add. left. reflexivity.
      * rewrite (registerDependency_deps_of _ _ _ _ Htr).
        destruct (decide (o = o)); [|congruence]. apply elem_of_set_add. left. reflexivity.
      * intros d o' Hne.
        rewrite (registerDependency_observers_of _ _ _ _ Htr),
                (registerDependency_deps_of _ _ _ _ Htr).
        destruct (decide (d = dep)) as [->|Hd], (decide (o' = o)) as [->|Ho];
          rewrite ?elem_of_set_add; intuition congruence.
  - apply registerDependency_untracked. left. exact Hh.
Qed.

Lemma clearDependencies_idemp o s :
  clearDependencies o (clearDependencies o s) = clearDependencies o s.
Proof.
  unfold clearDependencies at 1.
  assert (H : dependencyMap (clearDependencies o s) !! o = None).
  { unfold clearDependencies. destruct (dependencyMap s !! o) eqn:Hd; simpl.
    - apply lookup_delete_eq.
    - exact Hd. }
  rewrite H. reflexivity.
Qed.

(** X2.  In a symmetric registry, [clearDependencies(o)] leaves [o] without
    any edge in either map and touches no edge of another observer; a
    second call changes nothing. *)
Theorem clearDependencies_removes_all_edges (o : obs_id) (s : state) :
  symmetric s ->
  let s' := clearDependencies o s in
  dependencyMap s' !! o = None /\
  (forall d, o ∉ observers_of s' d) /\
  (forall d o', o' <> o ->
     (o' ∈ observers_of s' d <-> o' ∈ observers_of s d) /\ deps_of s' o' = deps_of s o') /\
  clearDependencies o s' = s'.
Proof.
  intros Hs s'. subst s'. split; [|split; [|split]].
  - unfold clearDependencies. destruct (dependencyMap s !! o) eqn:Hd; simpl.
    + apply lookup_delete_eq.
    + exact Hd.
  - intros d. apply clearDependencies_unsubscribes, Hs.
  - intros d o' Hne. split.
    + rewrite clearDependencies_observers_of.
      destruct (decide (d ∈ deps_of s o)); [rewrite elem_of_set_delete|]; tauto.
    + rewrite clearDependencies_deps_of. destruct (decide (o' = o)); [contradiction|reflexivity].
  - apply clearDependencies_idemp.
Qed.

Lemma consistent_ext s s' :
  observerMap s' = observerMap s -> dependencyMap s' = dependencyMap s ->
  keeps_consistent s s'.
Proof.
  intros Ho Hd [H1 H2 H3 H4]. split; unfold observers_of, deps_of in *; rewrite ?Ho, ?Hd; assumption.
Qed.

Lemma registerDependency_consistent dep s : keeps_consistent s (registerDependency dep s).
Proof.
  intros Hc.
  destruct (head (observersStack s)) as [o|] eqn:Hh;
    [|rewrite registerDependency_untracked by (left; exact Hh); exact Hc].
  destruct (doNotTrack s) eqn:Ht;
    [rewrite registerDependency_untracked by (right; exact Ht); exact Hc|].
  assert (Htr : tracking o s) by (split; assumption).
  destruct Hc as [H1 H2 H3 H4]. split.
  - intros d o'. rewrite (registerDependency_observers_of _ _ _ _ Htr),
                         (registerDependency_deps_of _ _ _ _ Htr).
    destruct (decide (d = dep)) as [->|Hd], (decide (o' = o)) as [->|Ho];
      rewrite ?elem_of_set_add; auto.
    intros [?|?]; [congruence|auto].
  - intros d o'. rewrite (registerDependency_observers_of _ _ _ _ Htr),
                         (registerDependency_deps_of _ _ _ _ Htr).
    destruct (decide (d = dep)) as [->|Hd], (decide (o' = o)) as [->|Ho];
      rewrite ?elem_of_set_add; auto.
    intros [?|?]; [congruence|auto].
  - intros d l. unfold registerDependency.
    destruct (observersStack s) as [|o'' stack]; [discriminate|].
    injection Hh as ->. rewrite Ht. simpl.
    destruct (decide (d = dep)) as [->|Hd].
    + rewrite lookup_insert_eq. intros [= <-]. split; [apply set_add_nonempty|].
      apply set_add_NoDup. destruct (observerMap s !! dep) as [l0|] eqn:E; simpl.
      * apply (H3 _ _ E).
      * apply NoDup_nil_2.
    + rewrite lookup_insert_ne by congruence. apply H3.
  - intros o' l. unfold registerDependency.
    destruct (observersStack s) as [|o'' stack]; [discriminate|].
    injection Hh as ->. rewrite Ht. simpl.
    destruct (decide (o' = o)) as [->|Hd].
    + rewrite lookup_insert_eq. intros [= <-]. split; [apply set_add_nonempty|].
      apply set_add_NoDup. destruct (dependencyMap s !! o) as [l0|] eqn:E; simpl.
      * apply (H4 _ _ E).
      * apply NoDup_nil_2.
    + rewrite lookup_insert_ne by congruence. apply H4.
Qed.

Lemma forget_observer_tidy o om dep :
  (forall d l, om !! d = Some l -> l <> [] /\ NoDup l) ->
  forall d l, forget_observer o om dep !! d = Some l -> l <> [] /\ NoDup l.
Proof.
  intros H d l. unfold forget_observer.
  destruct (om !! dep) as [t|] eqn:E; [|apply H].
  destruct (set_delete o t) as [|x t'] eqn:Hd.
  - destruct (decide (d = dep)) as [->|Hne].
    + rewrite lookup_delete_eq. discriminate.
    + rewrite lookup_delete_ne by congruence. apply H.
  - destruct (decide (d = dep)) as [->|Hne].
    + rewrite lookup_insert_eq. intros [= <-]. split; [discriminate|].
      rewrite <- Hd. apply set_delete_NoDup, (H _ _ E).
    + rewrite lookup_insert_ne by congruence. apply H.
Qed.

Lemma foldl_forget_tidy o deps om :
  (forall d l, om !! d = Some l -> l <> [] /\ NoDup l) ->
  forall d l, foldl (forget_observer o) om deps !! d = Some l -> l <> [] /\ NoDup l.
Proof.
  revert om. induction deps as [|dep deps IH]; intros om H; cbn [foldl]; [exact H|].
  apply IH, forget_observer_tidy, H.
Qed.

Lemma clearDependencies_consistent o s : keeps_consistent s (clearDependencies o s).
Proof.
  intros [H1 H2 H3 H4]. split.
  - apply clearDependencies_symmetric. exact H1.
  - intros d o'. rewrite clearDependencies_deps_of, clearDependencies_observers_of.
    destruct (decide (o' = o)) as [->|Hne]; [intros Hin; inversion Hin|].
    intros Hin. apply H2 in Hin.
    destruct (decide (d ∈ deps_of s o)); [apply elem_of_set_delete; split|]; assumption.
  - unfold clearDependencies. destruct (dependencyMap s !! o) as [deps|]; [|exact H3].
    simpl. apply foldl_forget_tidy, H3.
  - intros o' l. unfold clearDependencies.
    destruct (dependencyMap s !! o) as [deps|] eqn:E; [|apply H4].
    simpl. destruct (decide (o' = o)) as [->|Hne].
    + rewrite lookup_delete_eq. discriminate.
    + rewrite lookup_delete_ne by congruence. apply H4.
Qed.

Lemma keeps_consistent_respected : respected keeps_consistent.
Proof.
  split; [intros s Hs; exact Hs | intros s1 s2 s3 H12 H23 Hs; auto | ..];
    try (intros; apply consistent_ext; reflexivity).
  - intros d s. exact (registerDependency_consistent d s).
  - intros o s. exact (clearDependencies_consistent o s).
Qed.

Lemma initial_state_consistent : consistent initial_state.
Proof.
  split.
  - apply initial_state_symmetric.
  - intros d o H. unfold deps_of in H. simpl in H. rewrite lookup_empty in H. inversion H.
  - intros d l H. simpl in H. rewrite lookup_empty in H. discriminate.
  - intros d l H. simpl in H. rewrite lookup_empty in H. discriminate.
Qed.

(** X3.  Whatever a program does, and whether it returns or throws, it
    leaves a consistent registry consistent: an observer is in the set of a
    dependency exactly when the dependency is in the set of the observer,
    and neither map holds an empty set or a set with a duplicate. *)
Theorem registry_stays_consistent (n : nat) (p : prog) (s : state) :
  consistent s ->
  match run n p s with
  | Done _ s' | Raised _ s' => consistent s'
  | OutOfFuel => True
  end.
Proof.
  intros Hs.
  pose proof (keeps_run (engine_of_keeps keeps_consistent keeps_consistent_respected n)
                p s s (fun H => H)) as H.
  change (k_run (engine_of n) p s) with (run n p s) in H.
  destruct (run n p s); auto.
Qed.

(** ** What every call into the library leaves behind *)

Lemma evolves_refl s : evolves s s.
Proof.
  split.
  - intros o cell H. exists cell. split; [exact H|apply same_closure_refl].
  - auto.
  - reflexivity.
Qed.

Lemma evolves_trans s1 s2 s3 : evolves s1 s2 -> evolves s2 s3 -> evolves s1 s3.
Proof.
  intros [A1 A2 A3] [B1 B2 B3]. split.
  - intros o cell H. destruct (A1 o cell H) as (c2 & H2 & S2).
    destruct (B1 o c2 H2) as (c3 & H3 & S3). exists c3.
    split; [exact H3|eapply same_closure_trans; eauto].
  - auto.
  - etransitivity; eauto.
Qed.

Lemma evolves_known s s' o : evolves s s' -> known s o -> known s' o.
Proof.
  intros [A _ _] [cell H]. destruct (A o cell H) as (c' & H' & _). exists c'. exact H'.
Qed.

Lemma evolves_isComputed s s' o : evolves s s' -> isComputed o s = true -> isComputed o s' = true.
Proof.
  intros [A _ _]. unfold isComputed.
  destruct (observers s !! o) as [[cell|cell]|] eqn:H; try discriminate.
  destruct (A o _ H) as (c' & -> & S). destruct c'; [reflexivity|destruct S].
Qed.

Lemma evolves_plain s s' o :
  evolves s s' -> known s o -> isComputed o s = false -> isComputed o s' = false.
Proof.
  intros [A _ _] [cell H]. unfold isComputed. rewrite H.
  destruct (A o _ H) as (c' & -> & S). destruct cell; [discriminate|].
  destruct c'; [destruct S|reflexivity].
Qed.

Lemma evolves_calls s s' o :
  evolves s s' -> observer_calls o (trace s) <= observer_calls o (trace s').
Proof.
  intros [_ _ [t ->]]. rewrite observer_calls_app. lia.
Qed.

Lemma quiet_refl X s : quiet X s s.
Proof. intros o _ H. split; [exact H|reflexivity]. Qed.

Lemma quiet_trans X s1 s2 s3 : quiet X s1 s2 -> quiet X s2 s3 -> quiet X s1 s3.
Proof.
  intros H1 H2 o Ho Hi. destruct (H1 o Ho Hi) as [I2 E2].
  destruct (H2 o Ho I2) as [I3 E3]. split; [exact I3|congruence].
Qed.

(** The observers in [X] were not idle anyway. *)
Lemma quiet_weaken (X Y : obs_id -> Prop) s s' :
  (forall o, X o -> Y o \/ ~ idle o s) -> quiet X s s' -> quiet Y s s'.
Proof.
  intros HXY H o Ho Hi. apply H; [|exact Hi].
  intros HX. destruct (HXY o HX); tauto.
Qed.

Lemma frame_refl X s : frame X s s.
Proof.
  split; [apply evolves_refl|]. split; [|apply quiet_refl].
  intros Hb. split; auto.
Qed.

Lemma frame_trans X s1 s2 s3 : frame X s1 s2 -> frame X s2 s3 -> frame X s1 s3.
Proof.
  intros (E1 & D1 & Q1) (E2 & D2 & Q2).
  split; [eapply evolves_trans; eauto|]. split; [|eapply quiet_trans; eauto].
  intros Hb. destruct (D1 Hb) as [B1 U1 C1]. destruct (D2 B1) as [B2 U2 C2].
  split; [exact B2|auto|].
  intros o Ho. rewrite (C2 o Ho). apply C1.
  destruct (isComputed o s2) eqn:Hc; [|reflexivity].
  rewrite (evolves_isComputed _ _ _ E2 Hc) in Ho. discriminate.
Qed.

Lemma frame_weaken (X Y : obs_id -> Prop) s s' :
  (forall o, X o -> Y o \/ ~ idle o s) -> frame X s s' -> frame Y s s'.
Proof.
  intros HXY (E & D & Q). split; [exact E|]. split; [exact D|].
  eapply quiet_weaken; eauto.
Qed.

Lemma restored_refl s : restored s s.
Proof. split; reflexivity. Qed.

Lemma restored_trans s1 s2 s3 : restored s1 s2 -> restored s2 s3 -> restored s1 s3.
Proof. intros [] []. split; congruence. Qed.

Lemma settled_refl X s : well_formed s -> settled_but X s s.
Proof. intros H. split; [exact H|]. split; [apply frame_refl|apply restored_refl]. Qed.

Lemma settled_trans X s1 s2 s3 : settled_but X s1 s2 -> settled_but X s2 s3 -> settled_but X s1 s3.
Proof.
  intros (_ & F1 & R1) (W & F2 & R2).
  split; [exact W|]. split; [eapply frame_trans|eapply restored_trans]; eauto.
Qed.

Lemma settled_weaken (X Y : obs_id -> Prop) s s' :
  (forall o, X o -> Y o \/ ~ idle o s) -> settled_but X s s' -> settled_but Y s s'.
Proof.
  intros HXY (W & F & R). split; [exact W|]. split; [|exact R].
  eapply frame_weaken; eauto.
Qed.

Lemma settled_any X s s' : settled s s' -> settled_but X s s'.
Proof. apply settled_weaken. intros o []. Qed.

Lemma same_core_wf s s' :
  observers s' = observers s -> effectQueue s' = effectQueue s ->
  observersStack s' = observersStack s -> observerMap s' = observerMap s ->
  nameCounters s' = nameCounters s -> next_obs s' = next_obs s ->
  well_formed s -> well_formed s'.
Proof.
  intros H1 H2 H3 H4 H5 H6 [W1 W2 W3 W4 W5].
  split; unfold allocated, known, observers_of, queued in *;
    rewrite ?H1, ?H2, ?H3, ?H4, ?H5, ?H6; assumption.
Qed.

Lemma same_core_evolves s s' :
  observers s' = observers s -> reactions s' = reactions s -> trace s' = trace s ->
  evolves s s'.
Proof.
  intros H1 H2 H3. split.
  - intros o cell H. exists cell. rewrite H1. split; [exact H|apply same_closure_refl].
  - rewrite H2. auto.
  - rewrite H3. reflexivity.
Qed.

Lemma same_core_idle o s s' :
  observers s' = observers s -> effectQueue s' = effectQueue s ->
  observersStack s' = observersStack s -> observerMap s' = observerMap s ->
  idle o s -> idle o s'.
Proof.
  intros H1 H2 H3 H4 [I1 I2 I3 I4 I5].
  split; unfold known, isComputed, observers_of, queued in *;
    rewrite ?H1, ?H2, ?H3, ?H4; assumption.
Qed.

Lemma same_core_quiet X s s' :
  observers s' = observers s -> effectQueue s' = effectQueue s ->
  observersStack s' = observersStack s -> observerMap s' = observerMap s ->
  trace s' = trace s ->
  quiet X s s'.
Proof.
  intros H1 H2 H3 H4 H5 o _ Hi. split; [eapply same_core_idle; eauto|].
  rewrite H5. reflexivity.
Qed.

Lemma same_core_deferring s s' :
  trace s' = trace s -> effectQueue s' = effectQueue s ->
  batching s = true -> deferring s s'.
Proof.
  intros H3 H4 Hb. split.
  - unfold batching in *. rewrite H4. exact Hb.
  - unfold queued. rewrite H4. auto.
  - intros o _. rewrite H3. reflexivity.
Qed.

Lemma same_core_frame X s s' :
  observers s' = observers s -> reactions s' = reactions s -> trace s' = trace s ->
  effectQueue s' = effectQueue s -> observersStack s' = observersStack s ->
  observerMap s' = observerMap s ->
  frame X s s'.
Proof.
  intros H1 H2 H3 H4 H5 H6. split; [apply same_core_evolves; assumption|].
  split; [apply same_core_deferring; assumption|apply same_core_quiet; assumption].
Qed.

Lemma same_core_restored s s' :
  effectQueue s' = effectQueue s -> observersStack s' = observersStack s ->
  doNotTrack s' = doNotTrack s -> currentEffect s' = currentEffect s ->
  restored s s'.
Proof. intros H1 H2 H3 H4. split; unfold batching; rewrite ?H1; assumption || reflexivity. Qed.

Lemma same_core_settled s s' : same_core s s' -> well_formed s -> settled s s'.
Proof.
  intros (H1 & H2 & H3 & H4 & H5 & H6 & H7 & H8 & H9 & H10) W.
  split; [eapply same_core_wf; eauto|].
  split; [apply same_core_frame|apply same_core_restored]; assumption.
Qed.

Ltac core := repeat split; reflexivity.

Lemma settled_next_err s : well_formed s -> settled s (set_next_err (S (next_err s)) s).
Proof. apply same_core_settled. core. Qed.

Lemma settled_console x s : well_formed s -> settled s (console_error x s).
Proof. apply same_core_settled. core. Qed.

Lemma settled_signals v s : well_formed s -> settled s (set_signals v s).
Proof. apply same_core_settled. core. Qed.

Lemma settled_next_sig v s : well_formed s -> settled s (set_next_sig v s).
Proof. apply same_core_settled. core. Qed.

Lemma settled_disallowWrites v s : well_formed s -> settled s (set_disallowWrites v s).
Proof. apply same_core_settled. core. Qed.

Lemma settled_reactionsDepthMap v s : well_formed s -> settled s (set_reactionsDepthMap v s).
Proof. apply same_core_settled. core. Qed.

Lemma observer_calls_other o e t :
  e <> EvObserver o -> observer_calls o (t ++ [e]) = observer_calls o t.
Proof.
  intros He. rewrite observer_calls_app.
  unfold observer_calls at 2. rewrite filter_cons, filter_nil.
  rewrite decide_False by exact He. simpl. lia.
Qed.

(** A trace event that is not the call of an observer. *)
Lemma settled_emit e s :
  (forall o, e <> EvObserver o) -> well_formed s -> settled s (emit e s).
Proof.
  intros He W. split; [apply (same_core_wf s); [reflexivity..|exact W]|].
  split; [|apply same_core_restored; reflexivity].
  split; [|split].
  - split.
    + intros o cell H. exists cell. split; [exact H|apply same_closure_refl].
    + auto.
    + simpl. exists [e]. reflexivity.
  - intros Hb. split; [exact Hb|auto|].
    intros o _. simpl. apply observer_calls_other, He.
  - intros o _ Hi. split; [apply (same_core_idle o s); [reflexivity..|exact Hi]|].
    simpl. apply observer_calls_other, He.
Qed.

Lemma registerDependency_fields d s :
  reactions (registerDependency d s) = reactions s /\
  next_obs (registerDependency d s) = next_obs s /\
  nameCounters (registerDependency d s) = nameCounters s /\
  doNotTrack (registerDependency d s) = doNotTrack s /\
  currentEffect (registerDependency d s) = currentEffect s.
Proof.
  unfold registerDependency. destruct (observersStack s); [repeat split|].
  destruct (doNotTrack s) eqn:Ht; repeat split; simpl; congruence.
Qed.

Lemma registerDependency_observers d s d' o :
  o ∈ observers_of (registerDependency d s) d' ->
  o ∈ observers_of s d' \/ head (observersStack s) = Some o.
Proof.
  unfold registerDependency, observers_of.
  destruct (observersStack s) as [|top stack] eqn:Hs; [auto|].
  destruct (doNotTrack s); [auto|]. simpl.
  destruct (decide (d' = d)) as [->|Hne].
  - rewrite lookup_insert_eq. simpl. rewrite elem_of_set_add.
    intros [->|Hin]; auto.
  - rewrite lookup_insert_ne by congruence. auto.
Qed.

Lemma settled_registerDependency d s : well_formed s -> settled s (registerDependency d s).
Proof.
  intros W.
  destruct (registerDependency_frame d s) as (F1 & F2 & F3 & F4 & _).
  destruct (registerDependency_fields d s) as (Hr & X1 & X2 & X3 & X4).
  split; [|split; [|apply same_core_restored; assumption]].
  - destruct W as [W1 W2 W3 W4 W5].
    split; unfold allocated, known, queued in *; rewrite ?F1, ?F2, ?F3, ?X1, ?X2; try assumption.
    intros d' o Ho. apply registerDependency_observers in Ho as [Ho|Ho]; [apply (W3 d'), Ho|].
    apply W2. destruct (observersStack s); [discriminate|]. injection Ho as ->.
    apply list_elem_of_here.
  - split; [apply same_core_evolves; assumption|].
    split; [apply same_core_deferring; assumption|].
    intros o _ [I1 I2 I3 I4 I5]. split; [|rewrite F4; reflexivity].
    split; unfold known, isComputed, queued in *; rewrite ?F1, ?F2, ?F3; try assumption.
    intros d' Ho. apply registerDependency_observers in Ho as [Ho|Ho]; [exact (I4 d' Ho)|].
    apply I3. destruct (observersStack s); [discriminate|]. injection Ho as ->.
    apply list_elem_of_here.
Qed.

Lemma clearDependencies_fields o s :
  next_obs (clearDependencies o s) = next_obs s /\
  nameCounters (clearDependencies o s) = nameCounters s /\
  doNotTrack (clearDependencies o s) = doNotTrack s /\
  currentEffect (clearDependencies o s) = currentEffect s /\
  reactions (clearDependencies o s) = reactions s.
Proof. unfold clearDependencies. destruct (dependencyMap s !! o); repeat split. Qed.

Lemma settled_clearDependencies o s : well_formed s -> settled s (clearDependencies o s).
Proof.
  intros W.
  destruct (clearDependencies_frame o s) as (F1 & F2 & F3 & F4 & _).
  destruct (clearDependencies_fields o s) as (X1 & X2 & X3 & X4 & X5).
  split; [|split; [|apply same_core_restored; assumption]].
  - destruct W as [W1 W2 W3 W4 W5].
    split; unfold allocated, known, queued in *; rewrite ?F1, ?F2, ?F3, ?X1, ?X2; try assumption.
    intros d o' Hin. apply (W3 d). eapply clearDependencies_shrinks. exact Hin.
  - split; [apply same_core_evolves; assumption|].
    split; [apply same_core_deferring; assumption|].
    intros o' _ [I1 I2 I3 I4 I5]. split; [|rewrite F4; reflexivity].
    split; unfold known, isComputed, queued in *; rewrite ?F1, ?F2, ?F3; try assumption.
    intros d Ho. apply clearDependencies_shrinks in Ho. exact (I4 d Ho).
Qed.

(** Updates of a cell that leave it the closure it is. *)
Lemma settled_alter f o s :
  (forall cell, same_closure cell (f cell)) ->
  well_formed s -> settled s (set_observers (alter f o (observers s)) s).
Proof.
  intros Hf W.
  assert (Hk : forall o', known s o' -> known (set_observers (alter f o (observers s)) s) o').
  { intros o' [cell H]. unfold known. simpl.
    destruct (decide (o = o')) as [->|Hne].
    - rewrite lookup_alter_eq, H. simpl. eauto.
    - rewrite lookup_alter_ne by exact Hne. eauto. }
  assert (He : evolves s (set_observers (alter f o (observers s)) s)).
  { split; [|auto|reflexivity].
    intros o' cell H. simpl.
    destruct (decide (o = o')) as [->|Hne].
    - rewrite lookup_alter_eq, H. simpl. eexists. split; [reflexivity|apply Hf].
    - rewrite lookup_alter_ne by exact Hne. exists cell. split; [exact H|apply same_closure_refl]. }
  split; [|split; [|apply same_core_restored; reflexivity]].
  - destruct W as [W1 W2 W3 W4 W5].
    split; [|intros o' H'; apply Hk, W2; exact H'|intros d o' H'; apply Hk, (W3 d); exact H'
            |intros o' H'; apply Hk, W4; exact H'|exact W5].
    intros o' Ho'. simpl in *.
    destruct (decide (o = o')) as [->|Hne].
    + rewrite lookup_alter_eq, (W1 o' Ho'). reflexivity.
    + rewrite lookup_alter_ne by exact Hne. apply W1, Ho'.
  - split; [exact He|]. split.
    + intros Hb. split; [exact Hb|auto|reflexivity].
    + intros o' _ [I1 I2 I3 I4 I5]. split; [|reflexivity].
      split; [apply Hk, I1|eapply evolves_plain; eauto|exact I3|exact I4|exact I5].
Qed.

Lemma settled_update_computed c f s :
  (forall cell, c_compute (f cell) = c_compute cell /\ c_name (f cell) = c_name cell) ->
  well_formed s -> settled s (update_computed c f s).
Proof.
  intros Hf. apply settled_alter. intros [cc|oc]; simpl; [|auto].
  destruct (Hf cc) as [-> ->]. auto.
Qed.

Lemma settled_update_once o b s :
  well_formed s -> settled s (update_once o (with_internalDisposerCalled b) s).
Proof. apply settled_alter. intros [cc|oc]; simpl; auto. Qed.

Lemma settled_update_reaction r f s : well_formed s -> settled s (update_reaction r f s).
Proof.
  intros W. split; [apply (same_core_wf s); [reflexivity..|exact W]|].
  split; [|apply same_core_restored; reflexivity].
  split; [|split; [apply same_core_deferring; reflexivity|apply same_core_quiet; reflexivity]].
  split; [|simpl|reflexivity].
  - intros o cell H. exists cell. split; [exact H|apply same_closure_refl].
  - intros r' [cell H]. destruct (decide (r = r')) as [->|Hne].
    + rewrite lookup_alter_eq, H. simpl. eauto.
    + rewrite lookup_alter_ne by exact Hne. eauto.
Qed.

Lemma new_observer_fresh s o c :
  allocated s -> observers s !! o = Some c -> next_obs s <> o.
Proof.
  intros Ha H Heq. pose proof (Ha o ltac:(lia)) as Hnone.
  assert (Habs : Some c = None) by (rewrite <- H; exact Hnone). discriminate.
Qed.

Lemma settled_new_observer cell s :
  well_formed s ->
  settled s (set_next_obs (S (next_obs s))
               (set_observers (<[next_obs s := cell]> (observers s)) s)).
Proof.
  intros W.
  set (s' := set_next_obs _ _).
  assert (Hsame : forall o c, observers s !! o = Some c -> observers s' !! o = Some c).
  { intros o c H. unfold s'. simpl. rewrite lookup_insert_ne; [exact H|].
    eapply new_observer_fresh; [apply W|exact H]. }
  assert (Hk : forall o', known s o' -> known s' o').
  { intros o' [c H]. exists c. apply Hsame, H. }
  destruct W as [W1 W2 W3 W4 W5].
  split; [|split; [|apply same_core_restored; reflexivity]].
  - split; [|intros o' H'; apply Hk, W2; exact H'|intros d o' H'; apply Hk, (W3 d); exact H'
            |intros o' H'; apply Hk, W4; exact H'|exact W5].
    intros o Ho. unfold s' in *. simpl in *. rewrite lookup_insert_ne by lia. apply W1. lia.
  - split; [|split].
    + split; [|auto|reflexivity].
      intros o c H. exists c. split; [apply Hsame, H|apply same_closure_refl].
    + intros Hb. split; [exact Hb|auto|].
      intros o _. reflexivity.
    + intros o _ [[c I1] I2 I3 I4 I5]. split; [|reflexivity].
      split; [exists c; apply Hsame, I1| |exact I3|exact I4|exact I5].
      unfold isComputed in *. rewrite (Hsame _ _ I1). rewrite I1 in I2. exact I2.
Qed.

Lemma settled_new_reaction cell s :
  well_formed s ->
  settled s (set_next_rx (S (next_rx s))
               (set_reactions (<[next_rx s := cell]> (reactions s)) s)).
Proof.
  intros W. split; [apply (same_core_wf s); [reflexivity..|exact W]|].
  split; [|apply same_core_restored; reflexivity].
  split; [|split; [apply same_core_deferring; reflexivity|apply same_core_quiet; reflexivity]].
  split; [|simpl|reflexivity].
  - intros o c H. exists c. split; [exact H|apply same_closure_refl].
  - intros r' [c H]. destruct (decide (next_rx s = r')) as [<-|Hne].
    + rewrite lookup_insert_eq. eauto.
    + rewrite lookup_insert_ne by exact Hne. eauto.
Qed.

Lemma settled_nameCounters fb c s :
  well_formed s ->
  (c = CountNum 0 \/ (c = CountNaN /\ inherited fb = true)) ->
  settled s (set_nameCounters (<[fb := c]> (nameCounters s)) s).
Proof.
  intros W Hc. split; [|split; [apply same_core_frame|apply same_core_restored]; reflexivity].
  destruct W as [W1 W2 W3 W4 W5]. split; auto.
  intros k v. simpl. destruct (decide (fb = k)) as [->|Hne].
  - rewrite lookup_insert_eq. intros [= <-]. exact Hc.
  - rewrite lookup_insert_ne by exact Hne. apply W5.
Qed.

Lemma settled_fallback_name fb s : well_formed s -> settled s (fallback_name fb s).2.
Proof.
  intros W. unfold fallback_name.
  destruct (decide (fb = "__proto__")); [apply settled_refl, W|].
  destruct (nameCounters s !! fb) as [[[|c]|]|] eqn:E; simpl.
  - apply settled_nameCounters; auto.
  - apply (wf_names _ W) in E. destruct E as [E|[E _]]; discriminate.
  - apply settled_nameCounters; auto.
  - destruct (inherited fb) eqn:Hi; simpl; apply settled_nameCounters; auto.
Qed.

Lemma settled_fnName name fb s : well_formed s -> settled s (fnName name fb s).2.
Proof.
  intros W. unfold fnName.
  destruct name as [n|]; [destruct (decide (n = "")); [|apply settled_refl, W]|];
    apply settled_fallback_name, W.
Qed.

Lemma settled_new_Error msg s : well_formed s -> settled s (new_Error msg s).2.
Proof. apply settled_next_err. Qed.

Lemma settled_describeError x src s : well_formed s -> settled s (describeError x src s).2.
Proof.
  intros W. unfold describeError. destruct x as [e|v]; simpl.
  - destruct (err_statin e); apply settled_refl, W.
  - apply settled_next_err, W.
Qed.

Lemma settled_thrown x s : well_formed s -> settled s (thrown x s).2.
Proof.
  intros W. destruct x; simpl; [apply settled_next_err, W|apply settled_refl, W..].
Qed.

Lemma settled_call_disposer d s : well_formed s -> settled s (call_disposer d s).
Proof.
  intros W. destruct d as [o|o|r]; simpl.
  - apply settled_clearDependencies, W.
  - apply settled_update_once, W.
  - destruct (reactions s !! r) as [cell|]; [|apply settled_refl, W].
    destruct (rx_onceDisposer cell); [apply settled_clearDependencies|apply settled_refl]; exact W.
Qed.

(** [effectQueue.add(o)]: the only observer that may stop being idle is
    [o]. *)
Lemma settled_enqueue o q s :
  effectQueue s = Some q -> known s o -> well_formed s ->
  settled_but (eq o) s (set_effectQueue (Some (set_add o q)) s).
Proof.
  intros Hq Hk W. split; [|split].
  - destruct W as [W1 W2 W3 W4 W5]. split; auto.
    intros o'. unfold queued. simpl. rewrite elem_of_set_add.
    intros [->|Hin]; [exact Hk|]. apply W4. unfold queued. rewrite Hq. exact Hin.
  - split; [apply same_core_evolves; reflexivity|]. split.
    + intros Hb. split; [reflexivity| |reflexivity].
      intros o'. unfold queued. rewrite Hq. simpl. rewrite elem_of_set_add. auto.
    + intros o' Hne [I1 I2 I3 I4 I5]. split; [|reflexivity].
      split; try assumption.
      unfold queued in *. simpl. rewrite Hq in I5. simpl in I5.
      rewrite elem_of_set_add. intros [->|Hin]; [apply Hne; reflexivity|exact (I5 Hin)].
  - split; try reflexivity. unfold batching. simpl. rewrite Hq. reflexivity.
Qed.

(** ** Every function of the engine is sound *)

Lemma settled_wf {X s s'} : settled_but X s s' -> well_formed s'.
Proof. intros H. apply H. Qed.


Lemma settled_evolves {X s s'} : settled_but X s s' -> evolves s s'.
Proof. intros H. apply H. Qed.

Lemma settled_restored {X s s'} : settled_but X s s' -> restored s s'.
Proof. intros H. apply H. Qed.

Lemma frame_evolves {X s s'} : frame X s s' -> evolves s s'.
Proof. intros H. apply H. Qed.

Lemma settled_quiet {X s s'} : settled_but X s s' -> quiet X s s'.
Proof. intros H. apply H. Qed.

(** Changes of the transient variables: they keep the state well formed
    and inside the frame, but are not [restored]. *)
Lemma transient_wf s s' :
  observers s' = observers s -> effectQueue s' = effectQueue s ->
  observerMap s' = observerMap s -> nameCounters s' = nameCounters s ->
  next_obs s' = next_obs s ->
  (forall o, o ∈ observersStack s' -> o ∈ observersStack s \/ known s o) ->
  well_formed s -> well_formed s'.
Proof.
  intros H1 H2 H4 H5 H6 H3 [W1 W2 W3 W4 W5].
  split; unfold allocated, known, observers_of, queued in *;
    rewrite ?H1, ?H2, ?H4, ?H5, ?H6; try assumption.
  intros o Ho. destruct (H3 o Ho) as [Hin|Hk]; [apply W2, Hin|exact Hk].
Qed.

Lemma wf_push c s :
  known s c -> well_formed s -> well_formed (set_observersStack (c :: observersStack s) s).
Proof.
  intros Hk. apply transient_wf; try reflexivity.
  intros o Ho. simpl in Ho. apply elem_of_cons in Ho as [->|Ho]; auto.
Qed.

Lemma wf_pop s :
  well_formed s -> well_formed (set_observersStack (tail (observersStack s)) s).
Proof.
  apply transient_wf; try reflexivity.
  intros o Ho. simpl in Ho. left. destruct (observersStack s); [exact Ho|].
  apply list_elem_of_further. exact Ho.
Qed.

Lemma frame_stack v s :
  (forall o, o ∈ v -> o ∈ observersStack s \/ ~ idle o s) ->
  frame nobody s (set_observersStack v s).
Proof.
  intros Hv. split; [apply same_core_evolves; reflexivity|].
  split; [apply same_core_deferring; reflexivity|].
  intros o _ Hi. split; [|reflexivity].
  destruct Hi as [I1 I2 I3 I4 I5]. split; try assumption.
  simpl. intros Ho. destruct (Hv o Ho) as [H|H]; [exact (I3 H)|].
  apply H. split; assumption.
Qed.

Lemma wf_doNotTrack v s : well_formed s -> well_formed (set_doNotTrack v s).
Proof. apply transient_wf; try reflexivity. auto. Qed.

Lemma frame_doNotTrack v s : frame nobody s (set_doNotTrack v s).
Proof. apply same_core_frame; reflexivity. Qed.

Lemma wf_currentEffect v s : well_formed s -> well_formed (set_currentEffect v s).
Proof. apply transient_wf; try reflexivity. auto. Qed.

Lemma frame_currentEffect v s : frame nobody s (set_currentEffect v s).
Proof. apply same_core_frame; reflexivity. Qed.

Lemma wf_queue_reset q s :
  (forall o, o ∈ default [] q -> known s o) ->
  well_formed s -> well_formed (set_effectQueue q s).
Proof.
  intros Hq [W1 W2 W3 W4 W5]. split; auto.
Qed.

Lemma evolves_core s s' :
  observers s' = observers s -> reactions s' = reactions s -> trace s' = trace s ->
  evolves s s'.
Proof. apply same_core_evolves. Qed.

Lemma sound_weaken {A} (C C' : state -> Prop) (m : M A) :
  (forall s, C s -> C' s) -> sound C m -> sound C' m.
Proof.
  intros HC H s W. specialize (H s W). destruct (m s); auto.
  destruct H. split; auto.
Qed.

Lemma sound_ret {A} (a : A) : sound never (ret a).
Proof. intros s W. apply settled_refl, W. Qed.

Lemma sound_modify f :
  (forall s, well_formed s -> settled s (f s)) -> sound never (modify f).
Proof. intros Hf s W. apply Hf, W. Qed.

Lemma sound_then {A B} C1 C2 (m : M A) (k : A -> M B) :
  sound C1 m -> (forall a, sound C2 (k a)) -> sound always (bind m k).
Proof.
  intros Hm Hk s W. unfold bind. specialize (Hm s W).
  destruct (m s) as [a s1|x s1|]; [|split; [exact I|apply Hm]|exact I].
  specialize (Hk a s1 (settled_wf Hm)).
  destruct (k a s1) as [b s2|x s2|]; [|split; [exact I|]|exact I].
  - eapply settled_trans; eauto.
  - eapply settled_trans; [exact Hm|apply Hk].
Qed.

Lemma sound_then_never {A B} (m : M A) (k : A -> M B) :
  sound never m -> (forall a, sound never (k a)) -> sound never (bind m k).
Proof.
  intros Hm Hk s W. unfold bind. specialize (Hm s W).
  destruct (m s) as [a s1|x s1|]; [|destruct Hm as [[] _]|exact I].
  specialize (Hk a s1 (settled_wf Hm)).
  destruct (k a s1) as [b s2|x s2|]; [|destruct Hk as [[] _]|exact I].
  eapply settled_trans; eauto.
Qed.

Lemma sound_signal_new v : sound never (signal_new v).
Proof.
  intros s W. unfold signal_new.
  eapply settled_trans; [apply settled_signals, W|].
  apply settled_next_sig. eapply settled_wf, settled_signals, W.
Qed.

Lemma sound_signal_get sid : sound never (signal_get sid).
Proof. intros s W. apply settled_registerDependency, W. Qed.

Lemma sound_computed_new f : sound never (computed_new f).
Proof.
  intros s W. unfold computed_new.
  pose proof (settled_fnName (fn_name f) "Computed" s W) as Hn.
  destruct (fnName (fn_name f) "Computed" s) as [name s1]. simpl in Hn.
  eapply settled_trans; [exact Hn|]. apply settled_new_observer, Hn.
Qed.

Lemma adv_refl s : well_formed s -> adv s s.
Proof. intros W. split; [exact W|apply frame_refl]. Qed.

Lemma adv_trans s1 s2 s3 : adv s1 s2 -> adv s2 s3 -> adv s1 s3.
Proof. intros [_ F1] [W F2]. split; [exact W|eapply frame_trans; eauto]. Qed.

Lemma settled_adv {s s'} : settled s s' -> adv s s'.
Proof. intros (W & F & _). split; assumption. Qed.

Lemma adv_settled s s' : adv s s' -> restored s s' -> settled s s'.
Proof. intros [W F] R. split; [exact W|]. split; assumption. Qed.

Lemma adv_push c s :
  isComputed c s = true -> well_formed s ->
  adv s (set_observersStack (c :: observersStack s) s).
Proof.
  intros Hc W. split.
  - apply wf_push; [|exact W]. unfold known. unfold isComputed in Hc.
    destruct (observers s !! c); [eauto|discriminate].
  - apply frame_stack. intros o Ho. apply elem_of_cons in Ho as [->|Ho]; [right|left; exact Ho].
    intros Hi. rewrite (idle_plain _ _ Hi) in Hc. discriminate.
Qed.

Lemma adv_pop s : well_formed s -> adv s (set_observersStack (tail (observersStack s)) s).
Proof.
  intros W. split; [apply wf_pop; assumption|apply frame_stack].
  intros o Ho. left. destruct (observersStack s); [exact Ho|].
  apply list_elem_of_further. exact Ho.
Qed.

(** The start of [once]: a new observer, put on the stack at once. *)
Lemma adv_new_push cell s :
  well_formed s ->
  adv s (set_observersStack (next_obs s :: observersStack s)
           (set_next_obs (S (next_obs s))
              (set_observers (<[next_obs s := cell]> (observers s)) s))).
Proof.
  intros W. pose proof (settled_new_observer cell s W) as (W1 & F1 & _).
  set (s1 := set_next_obs _ _) in *.
  split.
  - apply (wf_push (next_obs s) s1); [|exact W1].
    unfold known, s1. simpl. rewrite lookup_insert_eq. eauto.
  - destruct F1 as (E1 & D1 & Q1). split; [|split].
    + eapply evolves_trans; [exact E1|]. apply same_core_evolves; reflexivity.
    + intros Hb. destruct (D1 Hb) as [B1 U1 C1]. split; [exact B1|exact U1|exact C1].
    + intros o _ Hi. destruct (Q1 o (fun H => H) Hi) as [[I1 I2 I3 I4 I5] Ec].
      split; [|exact Ec]. split; try assumption.
      simpl. intros Ho. apply elem_of_cons in Ho as [->|Ho]; [|exact (I3 Ho)].
      destruct (idle_known _ _ Hi) as [c Hc].
      exact (new_observer_fresh s _ c (wf_allocated _ W) Hc eq_refl).
Qed.

Lemma adv_doNotTrack v s : well_formed s -> adv s (set_doNotTrack v s).
Proof. intros W. split; [apply wf_doNotTrack; assumption|apply frame_doNotTrack]. Qed.

Lemma adv_currentEffect v s : well_formed s -> adv s (set_currentEffect v s).
Proof. intros W. split; [apply wf_currentEffect; assumption|apply frame_currentEffect]. Qed.

Ltac chain :=
  first [ eassumption
        | eapply adv_trans; [eassumption|chain] ].

(** Reads the transient variables off the facts at hand. *)
Ltac fields :=
  repeat match goal with
         | H : settled _ _ |- _ => apply settled_restored in H
         end;
  repeat match goal with
         | H : restored _ _ |- _ => destruct H as [? ? ? ?]
         end;
  split; unfold batching in *; simpl in *;
  first [ congruence
        | repeat match goal with
                 | H : observersStack _ = _ |- _ => rewrite H
                 end;
          simpl; congruence ].

Lemma sound_try_catch {A} C (P : Prop) (m : M A) (h : exn -> M A) :
  sound C m -> (forall x, sound (fun _ => P) (h x)) -> sound (fun _ => P) (try_catch m h).
Proof.
  intros Hm Hh s W. unfold try_catch. specialize (Hm s W).
  destruct (m s) as [a s1|x s1|]; [exact Hm| |exact I].
  destruct Hm as [_ Hm]. specialize (Hh x s1 (settled_wf Hm)).
  destruct (h x s1) as [b s2|y s2|]; [|destruct Hh as [HP Hh]; split; [exact HP|]|exact I];
    eapply settled_trans; eauto.
Qed.

Lemma sound_resumeTrackingWhile {A} (P : Prop) (m : M A) :
  sound (fun _ => P) m -> sound (fun _ => P) (resumeTrackingWhile m).
Proof.
  intros Hm s W. unfold resumeTrackingWhile, try_finally, modify.
  pose proof (adv_doNotTrack false s W) as A0.
  specialize (Hm _ (proj1 A0)).
  destruct (m (set_doNotTrack false s)) as [a s1|x s1|]; [| |exact I].
  - pose proof (settled_adv Hm) as A1.
    pose proof (adv_doNotTrack (doNotTrack s) s1 (proj1 A1)) as A2.
    apply adv_settled; [chain|]. clear A0 A1 A2. fields.
  - destruct Hm as [HP Hm]. split; [exact HP|].
    pose proof (settled_adv Hm) as A1.
    pose proof (adv_doNotTrack (doNotTrack s) s1 (proj1 A1)) as A2.
    apply adv_settled; [chain|]. clear A0 A1 A2. fields.
Qed.

Lemma sound_cached_result c : sound always (cached_result c).
Proof.
  intros s W. unfold cached_result.
  destruct (observers s !! c) as [[cell|cell]|];
    try (split; [exact I|apply settled_next_err, W]).
  destruct (c_hasError cell); [destruct (c_error cell)|];
    try (split; [exact I|]); apply settled_refl, W.
Qed.

Lemma sound_raise {A} x : sound always (@raise A x).
Proof. intros s W. split; [exact I|apply settled_refl, W]. Qed.

Lemma sound_type_error {A} : sound always (@type_error A).
Proof. intros s W. split; [exact I|apply settled_next_err, W]. Qed.

Lemma sound_never_always {A} (m : M A) : sound never m -> sound always m.
Proof. apply sound_weaken. intros ? []. Qed.

Lemma sound_dispose_if_called o : sound never (dispose_if_called o).
Proof.
  intros s W. unfold dispose_if_called.
  destruct (observers s !! o) as [[cell|cell]|]; try apply settled_refl, W.
  destruct (o_internalDisposerCalled cell);
    [apply settled_clearDependencies|apply settled_refl]; exact W.
Qed.

Lemma evolves_queue q s : evolves s (set_effectQueue q s).
Proof. apply same_core_evolves; reflexivity. Qed.

Lemma quiet_queue X q s :
  (forall o, o ∈ default [] q -> ~ idle o s) -> quiet X s (set_effectQueue q s).
Proof.
  intros Hq o _ Hi. split; [|reflexivity].
  destruct Hi as [I1 I2 I3 I4 I5]. split; try assumption.
  unfold queued. simpl. intros Ho. apply (Hq o Ho). split; assumption.
Qed.

Section Sound.

Variable E : engine.
Hypothesis HE : engine_sound E.

Lemma run_body_sound p : sound always (run_body E p).
Proof.
  destruct p; simpl.
  - apply (sound_weaken never); [intros ? []|apply sound_ret].
  - intros s W. pose proof (settled_thrown x s W) as H.
    destruct (thrown x s) as [e s1]. split; [exact I|exact H].
  - eapply sound_then; [apply sound_modify; intros; apply settled_emit; [discriminate|assumption]|].
    intros _. apply (snd_run HE).
  - eapply sound_then; [apply sound_signal_new|intros; apply (snd_run HE)].
  - eapply sound_then; [apply sound_signal_get|intros; apply (snd_run HE)].
  - eapply sound_then; [apply (snd_signal_set HE)|intros; apply (snd_run HE)].
  - eapply sound_then; [apply (snd_signal_changed HE)|intros; apply (snd_run HE)].
  - eapply sound_then; [apply (snd_signal_edit HE)|intros; apply (snd_run HE)].
  - eapply sound_then; [apply sound_computed_new|intros; apply (snd_run HE)].
  - eapply sound_then; [apply (snd_computed_get HE)|intros; apply (snd_run HE)].
  - eapply sound_then; [apply (snd_action HE)|intros; apply (snd_run HE)].
  - eapply sound_then; [apply (snd_once HE)|intros; apply (snd_run HE)].
  - eapply sound_then; [apply (snd_reaction HE)|intros; apply (snd_run HE)].
  - eapply sound_then; [apply sound_modify; intros; apply settled_call_disposer; assumption|].
    intros _. apply (snd_run HE).
Qed.

Lemma signal_set_body_sound sid v :
  sound (fun s => disallowWrites s = true) (signal_set_body E sid v).
Proof.
  intros s W. unfold signal_set_body.
  destruct (disallowWrites s) eqn:Hw.
  - simpl. split; [reflexivity|apply settled_next_err, W].
  - destruct (negb _); [|apply settled_refl, W].
    pose proof (settled_signals (<[sid := v]> (signals s)) s W) as H1.
    pose proof (snd_signal_changed HE sid) as H2. specialize (H2 _ (settled_wf H1)).
    destruct (k_signal_changed E sid _) as [a s2|x s2|]; [|destruct H2 as [[] _]|exact I].
    eapply settled_trans; eauto.
Qed.

Lemma signal_changed_body_sound sid : sound never (signal_changed_body E sid).
Proof.
  intros s W. unfold signal_changed_body.
  destruct (effectQueue s).
  - exact (snd_triggerObservers HE (DepSignal sid) W).
  - unfold bind. pose proof (snd_bulkEffects HE (BulkTrigger sid) BulkNoHandler) as H.
    specialize (H s W).
    destruct (k_bulkEffects E _ _ s) as [a s1|x s1|]; [exact H| |exact I].
    destruct H as [H _]. discriminate.
Qed.

Lemma signal_edit_body_sound sid editor : sound always (signal_edit_body E sid editor).
Proof.
  intros s W. unfold signal_edit_body.
  exact (sound_then _ _ _ _ (snd_run HE _) (fun _ => snd_signal_changed HE sid) s W).
Qed.

Lemma called_settled o s s' :
  isComputed o s = true \/ batching s = false -> called o s s' -> settled_but (eq o) s s'.
Proof.
  intros Hc (W & Ev & R & _ & D & Q). split; [exact W|]. split; [|exact R].
  split; [exact Ev|]. split; [|exact Q]. intros Hb. destruct (D Hb) as [D1 D2].
  destruct Hc as [Hc|Hc]; [|congruence].
  split; [rewrite (rs_batching _ _ R); exact Hb|exact D1|].
  intros o' Ho'. apply D2; [|exact Ho'].
  intros ->. rewrite (evolves_isComputed _ _ _ Ev Hc) in Ho'. discriminate.
Qed.

Lemma trigger_one_sound cur o s :
  well_formed s -> known s o -> ends False (settled_but (eq o) s) (trigger_one E cur o s).
Proof.
  intros W Hk. unfold trigger_one.
  destruct (decide (Some o = cur)); [apply settled_refl, W|].
  destruct (effectQueue s) as [q|] eqn:Hq.
  - destruct (isComputed o s) eqn:Hc.
    + pose proof (snd_call_observer HE o) as X. specialize (X s W).
      destruct (k_call_observer E o s) as [a s'|x s'|]; simpl; [|contradiction|exact I].
      eapply called_settled; [left; exact Hc|exact X].
    + simpl. apply settled_enqueue; assumption.
  - pose proof (snd_call_observer HE o) as X. specialize (X s W).
    destruct (k_call_observer E o s) as [a s'|x s'|]; simpl; [|contradiction|exact I].
    eapply called_settled; [right; unfold batching; rewrite Hq; reflexivity|exact X].
Qed.

Lemma for_each_trigger_sound cur l :
  forall s, well_formed s -> (forall o, o ∈ l -> known s o) ->
    ends False (settled_but (fun o => o ∈ l) s) (for_each (trigger_one E cur) l s).
Proof.
  induction l as [|o l IH]; intros s W Hl; simpl.
  - apply settled_refl, W.
  - unfold bind.
    pose proof (trigger_one_sound cur o s W (Hl o (list_elem_of_here _ _))) as H1.
    destruct (trigger_one E cur o s) as [a s1|x s1|]; simpl in *; [|tauto|exact I].
    assert (H2 : ends False (settled_but (fun o => o ∈ l) s1) (for_each (trigger_one E cur) l s1)).
    { apply IH; [apply H1|]. intros o' Ho'.
      eapply evolves_known; [apply H1|]. apply Hl, list_elem_of_further, Ho'. }
    destruct (for_each (trigger_one E cur) l s1) as [b s2|x s2|]; simpl in *; [|tauto|exact I].
    eapply settled_trans.
    + eapply settled_weaken; [|exact H1]. intros o' <-. left. apply list_elem_of_here.
    + eapply settled_weaken; [|exact H2]. intros o' Ho'. left.
      apply list_elem_of_further, Ho'.
Qed.

Lemma triggerObservers_body_sound dep : sound never (triggerObservers_body E dep).
Proof.
  intros s W. unfold triggerObservers_body.
  destruct (observerMap s !! dep) as [l|] eqn:Hl; [|apply settled_refl, W].
  pose proof (for_each_trigger_sound (head (observersStack s)) l s W) as H.
  assert (Hk : forall o, o ∈ l -> known s o).
  { intros o Ho. apply (wf_registry _ W dep). unfold observers_of. rewrite Hl. exact Ho. }
  specialize (H Hk).
  destruct (for_each _ l s) as [a s1|x s1|]; simpl in *; [|tauto|exact I].
  eapply settled_weaken; [|exact H]. intros o Ho. right. intros Hi.
  apply (idle_edges _ _ Hi dep). unfold observers_of. rewrite Hl. exact Ho.
Qed.

Lemma called_after_emit o s s' :
  well_formed s -> settled (emit (EvObserver o) s) s' -> called o s s'.
Proof.
  intros W (W' & (Ev & D & Q) & R).
  assert (Hc : forall o', observer_calls o' (trace (emit (EvObserver o) s))
                 = observer_calls o' (trace s) + (if decide (o = o') then 1 else 0)).
  { intros o'. simpl. rewrite observer_calls_app, observer_calls_one. reflexivity. }
  split; [exact W'|]. split; [|split; [|split]].
  - eapply evolves_trans; [|exact Ev]. split; [|auto|exists [EvObserver o]; reflexivity].
    intros o' cell H. exists cell. split; [exact H|apply same_closure_refl].
  - destruct R as [R1 R2 R3 R4]. split; assumption.
  - pose proof (evolves_calls _ _ o Ev) as Hle. rewrite Hc in Hle.
    rewrite decide_True in Hle by reflexivity. lia.
  - split.
    + intros Hb. destruct (D Hb) as [D1 D2 D3]. split; [exact D2|].
      intros o' Hne Ho'. rewrite (D3 o' Ho'), Hc. rewrite decide_False by congruence. lia.
    + intros o' Hne Hi.
      assert (Hi' : idle o' (emit (EvObserver o) s))
        by (apply (same_core_idle o' s); [reflexivity..|exact Hi]).
      destruct (Q o' (fun H => H) Hi') as [I' E']. split; [exact I'|].
      rewrite E', Hc. rewrite decide_False by exact Hne. lia.
Qed.

Lemma wf_emit e s : well_formed s -> well_formed (emit e s).
Proof. apply same_core_wf; reflexivity. Qed.

Lemma call_observer_body_sound o : sound_call o (call_observer_body E o).
Proof.
  intros s W. unfold call_observer_body.
  destruct (observers s !! o) as [[cell|cell]|] eqn:Ho.
  - pose proof (snd_computedObserver HE o) as X.
    specialize (X _ (wf_emit (EvObserver o) s W)).
    destruct (k_computedObserver E o _) as [a s'|x s'|]; [|destruct X as [[] _]|exact I].
    apply called_after_emit; assumption.
  - pose proof (snd_once_observer HE o cell) as X.
    specialize (X _ (wf_emit (EvObserver o) s W)).
    destruct (k_once_observer E o cell _) as [a s'|x s'|]; [|destruct X as [[] _]|exact I].
    apply called_after_emit; assumption.
  - simpl. unfold known. rewrite Ho. intros [? ?]. discriminate.
Qed.

Lemma computedObserver_body_sound c : sound never (computedObserver_body E c).
Proof.
  unfold computedObserver_body.
  apply sound_then_never;
    [apply sound_modify; intros; apply settled_update_computed; [intros; split; reflexivity|assumption]|intros _].
  apply sound_then_never;
    [apply sound_modify; intros; apply settled_update_computed; [intros; split; reflexivity|assumption]|intros _].
  apply sound_then_never;
    [apply sound_modify; intros; apply settled_clearDependencies; assumption|intros _].
  apply (snd_triggerObservers HE).
Qed.

Lemma recompute_sound c cell : forall s, well_formed s -> isComputed c s = true ->
  ends False (settled s) (recompute E c cell s).
Proof.
  intros s W Hk. unfold recompute.
  pose proof (adv_push c s Hk W) as A1.
  pose proof (settled_adv (settled_disallowWrites true _ (proj1 A1))) as A2.
  pose proof (settled_adv (settled_emit (EvCompute c) _ ltac:(discriminate) (proj1 A2))) as A3.
  set (s0 := emit (EvCompute c) _) in *.
  assert (Hin : sound never
            (try_catch
               (modify (update_computed c (with_error false None)) ;;
                resumeTrackingWhile
                  (let* v := k_run E (c_compute cell (c_value cell)) in
                   modify (update_computed c (with_value v))))
               (fun error_ s1 =>
                  let '(e, s2) := describeError error_ (c_name cell) s1 in
                  Done tt (update_computed c (with_error true (Some e)) s2)))).
  { apply (sound_try_catch always).
    - eapply sound_then;
        [apply sound_modify; intros; apply settled_update_computed;
         [intros; split; reflexivity|assumption]|intros _].
      apply (sound_resumeTrackingWhile True).
      eapply sound_then; [apply (snd_run HE)|intros v].
      apply sound_modify; intros; apply settled_update_computed;
        [intros; split; reflexivity|assumption].
    - intros x s1 W1. pose proof (settled_describeError x (c_name cell) s1 W1) as Hd.
      destruct (describeError x (c_name cell) s1) as [e s2]. simpl in Hd.
      eapply settled_trans; [exact Hd|].
      apply settled_update_computed; [intros; split; reflexivity|apply Hd]. }
  unfold try_finally. specialize (Hin s0 (proj1 A3)).
  match goal with |- context [try_catch ?m ?h s0] => destruct (try_catch m h s0) as [a s4|x s4|] end;
    [|destruct Hin as [[] _]|exact I].
  unfold bind, modify. simpl.
  pose proof (settled_adv Hin) as A4.
  pose proof (settled_adv (settled_disallowWrites false _ (proj1 A4))) as A5.
  pose proof (settled_adv (settled_update_computed c (with_hasChanges false) _
                                 ltac:(intros; split; reflexivity) (proj1 A5))) as A6.
  pose proof (adv_pop _ (proj1 A6)) as A7.
  apply adv_settled; [chain|].
  clear A1 A2 A3 A4 A5 A6 A7. subst s0. fields.
Qed.

Lemma computed_get_body_sound c : sound always (computed_get_body E c).
Proof.
  unfold computed_get_body.
  eapply sound_then;
    [apply sound_modify; intros; apply settled_registerDependency; assumption|intros _].
  eapply (sound_then always); [|intros _; apply sound_cached_result].
  intros s W. destruct (observers s !! c) as [[cell|cell]|] eqn:Hc;
    try (split; [exact I|apply settled_next_err, W]).
  destruct (c_hasChanges cell); [|apply settled_refl, W].
  pose proof (recompute_sound c cell s W ltac:(unfold isComputed; rewrite Hc; reflexivity)) as H.
  destruct (recompute E c cell s); simpl in *; tauto.
Qed.

Lemma for_each_call_sound l :
  forall s, well_formed s -> batching s = true -> (forall o, o ∈ l -> known s o) ->
    match for_each (k_call_observer E) l s with
    | Done _ s' =>
        well_formed s' /\ evolves s s' /\ restored s s' /\
        (forall o, o ∈ l -> observer_calls o (trace s) < observer_calls o (trace s')) /\
        (forall o, queued o s -> queued o s') /\
        quiet (fun o => o ∈ l) s s'
    | Raised _ _ => False
    | OutOfFuel => True
    end.
Proof.
  induction l as [|o l IH]; intros s W Hb Hl; simpl.
  - split; [exact W|]. split; [apply evolves_refl|]. split; [apply restored_refl|].
    split; [intros o Ho; inversion Ho|]. split; [auto|apply quiet_refl].
  - unfold bind. pose proof (snd_call_observer HE o) as X. specialize (X s W).
    destruct (k_call_observer E o s) as [a s1|x s1|];
      [|apply X, Hl, list_elem_of_here|exact I].
    destruct X as (W1 & E1 & R1 & C1 & D1 & U1). destruct (D1 Hb) as [Q1 _].
    assert (Hb1 : batching s1 = true) by (rewrite (rs_batching _ _ R1); exact Hb).
    specialize (IH s1 W1 Hb1).
    assert (Hl1 : forall o', o' ∈ l -> known s1 o').
    { intros o' Ho'. eapply evolves_known; [exact E1|]. apply Hl, list_elem_of_further, Ho'. }
    specialize (IH Hl1).
    destruct (for_each (k_call_observer E) l s1) as [b s2|x s2|]; [|exact IH|exact I].
    destruct IH as (W2 & E2 & R2 & C2 & Q2 & U2).
    split; [exact W2|]. split; [eapply evolves_trans; eauto|].
    split; [eapply restored_trans; eauto|]. split; [|split; [auto|]].
    + intros o' Ho'. apply elem_of_cons in Ho' as [->|Ho'].
      * pose proof (evolves_calls _ _ o E2). lia.
      * pose proof (evolves_calls _ _ o' E1). specialize (C2 o' Ho'). lia.
    + eapply quiet_trans.
      * eapply quiet_weaken; [|exact U1]. intros o' <-. left. apply list_elem_of_here.
      * eapply quiet_weaken; [|exact U2]. intros o' Ho'. left.
        apply list_elem_of_further, Ho'.
Qed.

Lemma drain_body_sound : sound_drain (drain_body E).
Proof.
  intros s W. unfold drain_body.
  destruct (effectQueue s) as [[|o l]|] eqn:Hq; [| |simpl; reflexivity].
  - split; [exact W|]. split; [apply evolves_refl|]. split; [apply restored_refl|].
    split; [exact Hq|]. split; [|apply quiet_refl].
    intros o. unfold queued. rewrite Hq. intros Ho. inversion Ho.
  - unfold bind.
    assert (W0 : well_formed (set_effectQueue (Some []) s)).
    { apply wf_queue_reset; [intros o' Ho'; inversion Ho'|exact W]. }
    pose proof (for_each_call_sound (o :: l) _ W0 eq_refl) as H1.
    assert (Hl : forall o', o' ∈ o :: l -> known (set_effectQueue (Some []) s) o').
    { intros o' Ho'. apply (wf_queue _ W). unfold queued. rewrite Hq. exact Ho'. }
    specialize (H1 Hl).
    destruct (for_each (k_call_observer E) (o :: l) _) as [a s1|x s1|]; [|destruct H1|exact I].
    destruct H1 as (W1 & E1 & R1 & C1 & Q1 & U1).
    pose proof (snd_drain HE) as X. specialize (X s1 W1).
    assert (Hb1 : batching s1 = true) by (rewrite (rs_batching _ _ R1); reflexivity).
    destruct (k_drain E s1) as [b s2|x s2|]; [| |exact I].
    + destruct X as (W2 & E2 & R2 & Q2 & C2 & U2).
      split; [exact W2|]. split; [|split; [|split; [exact Q2|split]]].
      * eapply evolves_trans; [apply evolves_queue|]. eapply evolves_trans; eauto.
      * assert (R0 : restored s (set_effectQueue (Some []) s)).
        { split; try reflexivity. unfold batching. simpl. rewrite Hq. reflexivity. }
        eapply restored_trans; [exact R0|]. eapply restored_trans; eauto.
      * intros o' Ho'. unfold queued in Ho'. rewrite Hq in Ho'. simpl in Ho'.
        specialize (C1 o' Ho'). simpl in C1.
        pose proof (evolves_calls _ _ o' E2). lia.
      * intros o' _ Hi.
        assert (Hn : ~ o' ∈ o :: l).
        { intros Ho'. apply (idle_queue _ _ Hi). unfold queued. rewrite Hq. exact Ho'. }
        destruct (quiet_queue nobody (Some []) s
                    ltac:(intros ? Hin; inversion Hin) o' (fun H => H) Hi) as [I0 E0].
        destruct (U1 o' Hn I0) as [I1 Ec1].
        destruct (U2 o' (fun H => H) I1) as [I2 Ec2].
        split; [exact I2|]. rewrite Ec2, Ec1. exact E0.
    + unfold batching in Hb1. rewrite X in Hb1. discriminate.
Qed.

Lemma call_bulk_effect_sound effect : sound always (call_bulk_effect E effect).
Proof.
  destruct effect; simpl.
  - eapply sound_then; [apply (snd_triggerObservers HE)|intros; apply sound_ret].
  - apply (snd_run HE).
  - eapply sound_then; [apply (snd_onceEffect HE)|intros; apply sound_ret].
Qed.

Lemma bulk_catch_sound onError error :
  sound (fun _ => onError = BulkRethrow) (bulk_catch E onError error).
Proof.
  intros s W. unfold bulk_catch.
  pose proof (settled_fnName (bulk_effect_name (currentEffect s) s) "Unknown" s W) as Hn.
  destruct (fnName (bulk_effect_name (currentEffect s) s) "Unknown" s) as [name s1].
  simpl in Hn.
  pose proof (settled_describeError error name s1 (settled_wf Hn)) as Hd.
  destruct (describeError error name s1) as [e s2]. simpl in Hd.
  pose proof (settled_trans _ _ _ _ Hn Hd) as H2.
  destruct onError as [| |effectName errorHandler].
  - eapply settled_trans; [exact H2|]. apply settled_console, H2.
  - split; [reflexivity|exact H2].
  - pose proof (settled_describeError (ExnError e) effectName s2 (settled_wf H2)) as Hd2.
    destruct (describeError (ExnError e) effectName s2) as [e' s3]. simpl in Hd2.
    unfold bind.
    pose proof (snd_handleOrLog HE e' errorHandler) as X.
    specialize (X s3 (settled_wf Hd2)).
    destruct (k_handleOrLog E e' errorHandler s3) as [a s4|x s4|];
      [|destruct X as [[] _]|exact I].
    simpl. eapply settled_trans; [exact H2|]. eapply settled_trans; eauto.
Qed.

Lemma bulk_frame_sound effect onError body :
  sound always body ->
  sound (fun _ => onError = BulkRethrow) (bulk_frame E effect onError body).
Proof.
  intros Hbody s W. unfold bulk_frame.
  pose proof (sound_try_catch always (onError = BulkRethrow) body (bulk_catch E onError)
                Hbody (bulk_catch_sound onError)) as Hin.
  unfold try_finally.
  destruct (effectQueue s) as [q|] eqn:Hq.
  - (* inside a batch *)
    pose proof (adv_currentEffect (Some effect) s W) as A1.
    specialize (Hin _ (proj1 A1)).
    destruct (try_catch body (bulk_catch E onError) _) as [a s1|x s1|]; [| |exact I].
    + unfold bind, ret, modify. simpl.
      pose proof (settled_adv Hin) as A2.
      pose proof (adv_currentEffect (currentEffect s) s1 (proj1 A2)) as A3.
      apply adv_settled; [chain|]. clear A1 A2 A3. fields.
    + unfold bind, ret, modify. simpl. destruct Hin as [HC Hin]. split; [exact HC|].
      pose proof (settled_adv Hin) as A2.
      pose proof (adv_currentEffect (currentEffect s) s1 (proj1 A2)) as A3.
      apply adv_settled; [chain|]. clear A1 A2 A3. fields.
  - (* the root of a batch *)
    set (s0 := set_currentEffect (Some effect)
                 (set_reactionsDepthMap ∅ (set_effectQueue (Some []) s))) in *.
    assert (W0 : well_formed s0).
    { apply wf_currentEffect. apply (same_core_wf (set_effectQueue (Some []) s)); try reflexivity.
      apply wf_queue_reset; [intros o Ho; inversion Ho|exact W]. }
    assert (E0 : evolves s s0) by (apply same_core_evolves; reflexivity).
    assert (Hroot : forall s1 s2,
              settled s0 s1 -> drained s1 s2 ->
              settled s (set_currentEffect (currentEffect s)
                           (set_effectQueue None (set_reactionsDepthMap ∅ s2)))).
    { intros s1 s2 H1 (W2 & E2 & R2 & Q2 & _ & U2).
      split; [|split].
      - apply wf_currentEffect. apply wf_queue_reset; [intros o Ho; inversion Ho|].
        apply (same_core_wf s2); try reflexivity. exact W2.
      - split; [|split].
        + eapply evolves_trans; [exact E0|]. eapply evolves_trans; [apply H1|].
          eapply evolves_trans; [exact E2|]. apply same_core_evolves; reflexivity.
        + unfold batching. rewrite Hq. discriminate.
        + intros o _ Hi.
          assert (I0 : idle o s0).
          { destruct Hi as [I1 I2 I3 I4 I5]. split; try assumption.
            unfold queued, s0. simpl. intros Hin'. inversion Hin'. }
          destruct (settled_quiet H1 o (fun H => H) I0) as [I1 Ec1].
          destruct (U2 o (fun H => H) I1) as [I2 Ec2].
          split; [|simpl; rewrite Ec2, Ec1; reflexivity].
          destruct I2 as [J1 J2 J3 J4 J5]. split; try assumption.
          unfold queued. simpl. intros Hin'. inversion Hin'.
      - apply settled_restored in H1. destruct H1 as [? ? ? ?], R2 as [? ? ? ?].
        subst s0. split; unfold batching in *; simpl in *; try congruence.
        rewrite Hq. reflexivity. }
    specialize (Hin s0 W0).
    assert (Hdrain : forall s1, settled s0 s1 ->
              match k_drain E s1 with
              | Done _ s2 => drained s1 s2
              | Raised _ _ => False
              | OutOfFuel => True
              end).
    { intros s1 H1. pose proof (snd_drain HE) as X. specialize (X s1 (settled_wf H1)).
      destruct (k_drain E s1); [exact X| |exact I].
      pose proof (rs_batching _ _ (settled_restored H1)) as Hb.
      unfold batching in Hb. rewrite X in Hb. discriminate. }
    destruct (try_catch body (bulk_catch E onError) s0) as [a s1|x s1|]; [| |exact I].
    + unfold bind, ret, modify. specialize (Hdrain s1 Hin).
      destruct (k_drain E s1) as [b s2|y s2|]; [|destruct Hdrain|exact I].
      simpl. eapply Hroot; eauto.
    + destruct Hin as [HC Hin].
      unfold bind, ret, modify. specialize (Hdrain s1 Hin).
      destruct (k_drain E s1) as [b s2|y s2|]; [|destruct Hdrain|exact I].
      simpl. split; [exact HC|]. eapply Hroot; eauto.
Qed.

Lemma bulkEffects_body_sound effect onError :
  sound (fun _ => onError = BulkRethrow) (bulkEffects_body E effect onError).
Proof. apply bulk_frame_sound, call_bulk_effect_sound. Qed.

Lemma call_handler_sound h error : sound always (call_handler E h error).
Proof.
  destruct h as [[h|r] o|h r]; simpl.
  - eapply sound_then; [apply (snd_run HE)|intros; apply sound_ret].
  - eapply sound_then; [|intros; apply (snd_handleError HE)].
    apply sound_modify. intros. apply settled_update_reaction. assumption.
  - eapply sound_then; [apply (snd_run HE)|intros; apply sound_ret].
Qed.

Lemma handleOrLog_body_sound error onError : sound never (handleOrLog_body E error onError).
Proof.
  unfold handleOrLog_body. apply (sound_try_catch always False).
  - destruct onError; [apply call_handler_sound|apply sound_raise].
  - intros x. apply sound_modify. intros. apply settled_console. assumption.
Qed.

Lemma action_body_sound f : sound always (action_body E f).
Proof.
  intros s W. unfold action_body, try_finally, modify.
  pose proof (adv_doNotTrack true s W) as A1.
  pose proof (settled_fnName (fn_name f) "Action" _ (proj1 A1)) as Hn.
  destruct (fnName (fn_name f) "Action" (set_doNotTrack true s)) as [name s2]. simpl in Hn.
  pose proof (settled_adv Hn) as A2.
  pose proof (snd_bulkEffects HE (BulkProg (Some name) (fn_body f)) BulkRethrow) as X.
  specialize (X s2 (proj1 A2)).
  destruct (k_bulkEffects E _ _ s2) as [a s3|x s3|]; [| |exact I].
  - pose proof (settled_adv X) as A3.
    pose proof (adv_doNotTrack (doNotTrack s) s3 (proj1 A3)) as A4.
    apply adv_settled; [chain|]. clear A1 A2 A3 A4. fields.
  - destruct X as [_ X]. split; [exact I|].
    pose proof (settled_adv X) as A3.
    pose proof (adv_doNotTrack (doNotTrack s) s3 (proj1 A3)) as A4.
    apply adv_settled; [chain|]. clear A1 A2 A3 A4. fields.
Qed.

Lemma call_observe_sound observe d : sound always (call_observe E observe d).
Proof.
  destruct observe; simpl.
  - eapply sound_then; [apply (snd_run HE)|intros; apply sound_ret].
  - apply (snd_actionWrap HE).
Qed.

Lemma once_body_sound observe effect onError : sound never (once_body E observe effect onError).
Proof.
  intros s W. unfold once_body.
  pose proof (settled_fnName (once_observe_name observe s) "OnceObserver" s W) as Hn1.
  destruct (fnName (once_observe_name observe s) "OnceObserver" s) as [observerName s1].
  simpl in Hn1.
  pose proof (settled_fnName (once_effect_name effect s1) "OnceEffect" s1 (settled_wf Hn1)) as Hn2.
  destruct (fnName (once_effect_name effect s1) "OnceEffect" s1) as [effectName s2].
  simpl in Hn2.
  set (observer := next_obs s2).
  set (cell := mkOnce observerName effect effectName onError false).
  pose proof (adv_new_push (ObsOnce cell) s2 (settled_wf Hn2)) as A3.
  fold observer in A3.
  set (s3 := set_next_obs (S observer) _) in *.
  pose proof (settled_adv Hn1) as A1.
  pose proof (settled_adv Hn2) as A2.
  assert (Hin : sound never
            (try_catch
               (resumeTrackingWhile (call_observe E observe (DisposeInternal observer)) ;;
                dispose_if_called observer)
               (fun error s4 =>
                  let '(e, s5) := describeError error observerName s4 in
                  k_handleOrLog E e ((fun h => HandlerOnce h observer) <$> onError) s5))).
  { apply (sound_try_catch always False).
    - eapply sound_then; [|intros; apply sound_dispose_if_called].
      apply (sound_resumeTrackingWhile True), call_observe_sound.
    - intros x s4 W4. pose proof (settled_describeError x observerName s4 W4) as Hd.
      destruct (describeError x observerName s4) as [e s5]. simpl in Hd.
      pose proof (snd_handleOrLog HE e ((fun h => HandlerOnce h observer) <$> onError)) as X.
      specialize (X s5 (settled_wf Hd)).
      destruct (k_handleOrLog E e _ s5) as [a s6|y s6|]; [|destruct X as [[] _]|exact I].
      eapply settled_trans; eauto. }
  match type of Hin with sound _ ?m => set (inner := m) in * end.
  unfold bind, try_finally. specialize (Hin _ (proj1 A3)).
  destruct (inner _) as [a s4|x s4|]; [|destruct Hin as [[] _]|exact I].
  unfold modify, ret.
  pose proof (settled_adv Hin) as A5.
  pose proof (adv_pop _ (proj1 A5)) as A6.
  apply adv_settled; [chain|].
  clear A1 A2 A3 A5 A6. subst s3. fields.
Qed.

Lemma once_observer_body_sound o cell : sound never (once_observer_body E o cell).
Proof.
  unfold once_observer_body.
  apply sound_then_never;
    [apply sound_modify; intros; apply settled_clearDependencies; assumption|intros _].
  apply sound_then_never; [|intros; apply sound_ret].
  eapply sound_weaken; [|apply (snd_bulkEffects HE)]. simpl. intros s0 H. discriminate.
Qed.

Lemma actionWrap_body_sound r d : sound always (actionWrap_body E r d).
Proof.
  intros s W. unfold actionWrap_body.
  destruct (reactions s !! r) as [cell|]; [|apply sound_type_error, W].
  apply (sound_then always never); [apply (snd_run HE)| |exact W].
  intros v. apply sound_modify. intros. apply settled_update_reaction. assumption.
Qed.

Lemma handleError_body_sound r error :
  sound (fun s => reactions s !! r = None) (handleError_body E r error).
Proof.
  intros s W. unfold handleError_body.
  destruct (reactions s !! r) as [cell|] eqn:Hr.
  - pose proof (snd_handleOrLog HE error ((fun h => HandlerReaction h r) <$> rx_onError cell)) as X.
    specialize (X s W).
    destruct (k_handleOrLog E error _ s); [exact X|destruct X as [[] _]|exact I].
  - simpl. split; [reflexivity|apply settled_next_err, W].
Qed.

Lemma effectWrap_body_sound r :
  sound (fun s => reactions s !! r = None) (effectWrap_body E r).
Proof.
  intros s W. unfold effectWrap_body.
  destruct (reactions s !! r) as [cell|] eqn:Hr;
    [|simpl; split; [reflexivity|apply settled_next_err, W]].
  destruct (rx_effect cell) as [effect|]; [|apply settled_refl, W].
  unfold try_catch, bind.
  pose proof (snd_run HE (effect (rx_value cell) (DisposeReaction r))) as X.
  specialize (X s W).
  destruct (k_run E _ s) as [a s1|x s1|]; [exact X| |exact I].
  destruct X as [_ X].
  pose proof (settled_describeError x (rx_effectName cell) s1 (settled_wf X)) as Hd.
  destruct (describeError x (rx_effectName cell) s1) as [e s2]. simpl in Hd.
  pose proof (snd_handleError HE r e) as Y. specialize (Y s2 (settled_wf Hd)).
  assert (Hk : is_Some (reactions s2 !! r)).
  { apply (ev_reactions _ _ (settled_evolves Hd)).
    apply (ev_reactions _ _ (settled_evolves X)). rewrite Hr. eauto. }
  destruct (k_handleError E r e s2) as [b s3|y s3|]; [| |exact I].
  - eapply settled_trans; [exact X|]. eapply settled_trans; eauto.
  - destruct Y as [Y _]. rewrite Y in Hk. destruct Hk as [? Hk]. discriminate.
Qed.

Lemma createOnceLoop_body_sound r : sound never (createOnceLoop_body E r).
Proof.
  unfold createOnceLoop_body.
  apply sound_then_never; [apply (snd_once HE)|intros o].
  apply sound_modify. intros. apply settled_update_reaction. assumption.
Qed.

Lemma onceEffect_body_sound r : sound always (onceEffect_body E r).
Proof.
  intros s W. unfold onceEffect_body.
  destruct (reactions s !! r) as [cell|]; [|apply sound_type_error, W].
  destruct (Nat.ltb _ _).
  - simpl. split; [exact I|apply settled_next_err, W].
  - pose proof (settled_reactionsDepthMap
                  (<[r := S (default 0 (reactionsDepthMap s !! r))]> (reactionsDepthMap s)) s W) as H1.
    pose proof (sound_then never (fun s => reactions s !! r = None) _ _
                  (snd_createOnceLoop HE r) (fun _ => snd_effectWrap HE r) _ (settled_wf H1)) as H2.
    match goal with |- context [bind ?m ?k ?st] => destruct (bind m k st) as [a s2|x s2|] end;
      [| |exact I].
    + eapply settled_trans; eauto.
    + destruct H2 as [_ H2]. split; [exact I|]. eapply settled_trans; eauto.
Qed.

Lemma reaction_body_sound act effect immediate onError :
  sound never (reaction_body E act effect immediate onError).
Proof.
  intros s W. unfold reaction_body.
  match goal with |- context [fnName ?a ?b s] =>
    pose proof (settled_fnName a b s W) as Hn1; destruct (fnName a b s) as [actionName s1] end.
  simpl in Hn1.
  pose proof (settled_fnName (effect ≫= fn_name) "ReactionEffect" s1 (settled_wf Hn1)) as Hn2.
  destruct (fnName (effect ≫= fn_name) "ReactionEffect" s1) as [effectName s2]. simpl in Hn2.
  set (r := next_rx s2).
  match goal with |- context [mkReaction ?a ?b ?c ?d ?e ?f ?g ?h] =>
    set (cell := mkReaction a b c d e f g h) end.
  pose proof (settled_new_reaction cell s2 (settled_wf Hn2)) as Hn3. fold r in Hn3.
  set (s3 := set_next_rx (S r) _) in *.
  assert (Hk : is_Some (reactions s3 !! r)).
  { unfold s3. simpl. rewrite lookup_insert_eq. eauto. }
  unfold bind.
  pose proof (snd_createOnceLoop HE r) as X. specialize (X s3 (settled_wf Hn3)).
  destruct (k_createOnceLoop E r s3) as [a s4|x s4|]; [|destruct X as [[] _]|exact I].
  assert (H4 : settled s s4).
  { eapply settled_trans; [exact Hn1|]. eapply settled_trans; [exact Hn2|].
    eapply settled_trans; eauto. }
  destruct immediate; [|simpl; exact H4].
  pose proof (snd_effectWrap HE r) as Y. specialize (Y s4 (settled_wf X)).
  assert (Hk4 : is_Some (reactions s4 !! r)).
  { apply (ev_reactions _ _ (settled_evolves X)), Hk. }
  destruct (k_effectWrap E r s4) as [b s5|y s5|]; [| |exact I].
  - simpl. eapply settled_trans; eauto.
  - destruct Y as [Y _]. destruct Hk4 as [c Hk4].
    assert (Habs : Some c = None) by (rewrite <- Hk4; exact Y). discriminate.
Qed.

Lemma engine_step_sound : engine_sound (engine_step E).
Proof.
  split; simpl.
  - apply run_body_sound.
  - apply signal_set_body_sound.
  - apply signal_changed_body_sound.
  - apply signal_edit_body_sound.
  - apply triggerObservers_body_sound.
  - apply call_observer_body_sound.
  - apply computedObserver_body_sound.
  - apply computed_get_body_sound.
  - apply bulkEffects_body_sound.
  - apply drain_body_sound.
  - apply handleOrLog_body_sound.
  - apply action_body_sound.
  - apply once_body_sound.
  - apply once_observer_body_sound.
  - apply reaction_body_sound.
  - apply actionWrap_body_sound.
  - apply effectWrap_body_sound.
  - apply onceEffect_body_sound.
  - apply handleError_body_sound.
  - apply createOnceLoop_body_sound.
Qed.

End Sound.

Lemma engine_zero_sound : engine_sound engine_zero.
Proof. split; simpl; intros; intros s W; exact I. Qed.

Lemma engine_of_sound fuel : engine_sound (engine_of fuel).
Proof.
  induction fuel as [|n IH]; [apply engine_zero_sound|].
  apply engine_step_sound, IH.
Qed.

(** ** Context, errors, batches and idle observers *)

Lemma initial_state_well_formed : well_formed initial_state.
Proof.
  split.
  - apply initial_state_allocated.
  - intros o H. inversion H.
  - intros d o H. unfold observers_of in H. simpl in H. rewrite lookup_empty in H. inversion H.
  - intros o H. inversion H.
  - intros k c H. simpl in H. rewrite lookup_empty in H. discriminate.
Qed.

Lemma run_settled n p s :
  well_formed s ->
  match run n p s with
  | Done _ s' | Raised _ s' => settled s s'
  | OutOfFuel => True
  end.
Proof.
  intros W. pose proof (snd_run (engine_of_sound n) p) as H. specialize (H s W).
  change (k_run (engine_of n) p s) with (run n p s) in H.
  destruct (run n p s); [exact H|apply H|exact I].
Qed.

(** The states a program reaches from the initial state are well formed. *)
Lemma reachable_well_formed n p :
  match run n p initial_state with
  | Done _ s | Raised _ s => well_formed s
  | OutOfFuel => True
  end.
Proof.
  pose proof (run_settled n p initial_state initial_state_well_formed) as H.
  destruct (run n p initial_state); [apply H|apply H|exact I].
Qed.


Lemma batching_Some s : batching s = true <-> is_Some (effectQueue s).
Proof.
  unfold batching. destruct (effectQueue s); simpl; split; try congruence; eauto.
  intros [? ?]. discriminate.
Qed.






(** X7.  While a batch is open, a program run inside it calls no observer
    of [once] or [reaction]: such observers are only put on the queue, and
    nothing leaves the queue. *)
Theorem batch_holds_observers_back (n : nat) (p : prog) (s : state) :
  well_formed s -> is_Some (effectQueue s) ->
  match run n p s with
  | Done _ s' | Raised _ s' =>
      is_Some (effectQueue s') /\
      (forall o, queued o s -> queued o s') /\
      (forall o, isComputed o s' = false ->
         observer_calls o (trace s') = observer_calls o (trace s))
  | OutOfFuel => True
  end.
Proof.
  intros W Hq. apply batching_Some in Hq. pose proof (run_settled n p s W) as H.
  destruct (run n p s) as [v s'|x s'|]; [| |exact I];
    destruct H as (_ & (_ & D & _) & _); destruct (D Hq) as [D1 D2 D3];
    (split; [apply batching_Some, D1|]); split; assumption.
Qed.


(** X9.  An idle observer stays idle and is not called, whatever the
    program does. *)
Theorem idle_observers_are_never_called (n : nat) (p : prog) (s : state) (o : obs_id) :
  well_formed s -> idle o s ->
  match run n p s with
  | Done _ s' | Raised _ s' =>
      idle o s' /\ observer_calls o (trace s') = observer_calls o (trace s)
  | OutOfFuel => True
  end.
Proof.
  intros W Hi. pose proof (run_settled n p s W) as H.
  destruct (run n p s) as [v s'|x s'|]; [| |exact I];
    destruct H as (_ & (_ & _ & Q) & _); exact (Q o (fun H => H) Hi).
Qed.

Lemma clearDependencies_idle o cell s :
  symmetric s ->
  observers s !! o = Some (ObsOnce cell) -> o ∉ observersStack s -> ~ queued o s ->
  idle o (clearDependencies o s).
Proof.
  intros Hs Ho Hst Hq.
  destruct (clearDependencies_frame o s) as (F1 & F2 & F3 & _).
  split; unfold known, isComputed, queued in *; rewrite ?F1, ?F2, ?F3, ?Ho; eauto.
  intros d. apply clearDependencies_unsubscribes, Hs.
Qed.


(** X11.  Calling the disposer of a [once], or of a reaction whose current
    observer it is, when the observer is neither being set up nor on the
    queue, leaves the observer idle; no disposer takes an observer off the
    queue. *)
Theorem dispose_retires_the_observer (o : obs_id) (cell : once_cell) (s : state) :
  symmetric s ->
  observers s !! o = Some (ObsOnce cell) -> o ∉ observersStack s ->
  (~ queued o s -> idle o (call_disposer (DisposeOnce o) s)) /\
  (forall r c, reactions s !! r = Some c -> rx_onceDisposer c = Some o ->
     ~ queued o s -> idle o (call_disposer (DisposeReaction r) s)) /\
  (forall d o', queued o' s -> queued o' (call_disposer d s)).
Proof.
  intros Hs Ho Hst. split; [|split].
  - intros Hq. simpl. eapply clearDependencies_idle; eauto.
  - intros r c Hr Hc Hq. simpl. rewrite Hr, Hc. eapply clearDependencies_idle; eauto.
  - intros d o' Hq. unfold queued in *. destruct d as [o1|o1|r]; simpl.
    + destruct (clearDependencies_frame o1 s) as (_ & -> & _). exact Hq.
    + exact Hq.
    + destruct (reactions s !! r) as [c|]; [|exact Hq].
      destruct (rx_onceDisposer c) as [o1|]; [|exact Hq].
      destruct (clearDependencies_frame o1 s) as (_ & -> & _). exact Hq.
Qed.

(** ** [action] and [createAction] *)





(** What [fnName] returns for a function without a name. *)
Lemma fallback_name_well_formed fb s :
  well_formed s ->
  (fallback_name fb s).1
  = if decide (fb = "__proto__") then fb +:+ "NaN"
    else match nameCounters s !! fb with
         | Some _ => fb +:+ "0"
         | None => if inherited fb then fb +:+ "NaN" else fb +:+ "0"
         end.
Proof.
  intros W. unfold fallback_name. destruct (decide (fb = "__proto__")); [reflexivity|].
  destruct (nameCounters s !! fb) as [[[|c]|]|] eqn:E; try reflexivity.
  - apply (wf_names _ W) in E. destruct E as [E|[E _]]; discriminate.
  - destruct (inherited fb); reflexivity.
Qed.




Lemma fnName_named n fb s : n <> "" -> fnName (Some n) fb s = (n, s).
Proof. intros H. unfold fnName. destruct (decide (n = "")); [contradiction|reflexivity]. Qed.







(** ** Names, labels and handlers *)

Lemma fallback_name_stores fb s :
  fb <> "__proto__" -> is_Some (nameCounters (fallback_name fb s).2 !! fb).
Proof.
  intros Hp. unfold fallback_name. destruct (decide (fb = "__proto__")); [contradiction|].
  destruct (nameCounters s !! fb) as [[[|c]|]|]; [| | |destruct (inherited fb)];
    simpl; rewrite lookup_insert_eq; eauto.
Qed.

(** X15.  [fnName] returns the name of a named function and leaves the
    counters alone.  For a function without a name it returns the fallback
    name followed by [0], and it does so at every call: the counter it
    keeps never gets past [0].  A fallback name that is a key of
    [Object.prototype] is the exception: the first call finds the
    inherited value and returns the name followed by [NaN], the calls
    after it return it followed by [0]; for [__proto__] every call returns
    it followed by [NaN]. *)
Theorem fnName_counter_never_counts (name : option string) (fb : string) (s : state) :
  well_formed s ->
  (forall n, name = Some n -> n <> "" -> fnName name fb s = (n, s)) /\
  (name = None \/ name = Some "" ->
   let first := (fnName name fb s).1 in
   let next := (fnName name fb (fnName name fb s).2).1 in
   if decide (fb = "__proto__") then first = fb +:+ "NaN" /\ next = fb +:+ "NaN"
   else if inherited fb then
     first = match nameCounters s !! fb with
             | Some _ => fb +:+ "0"
             | None => fb +:+ "NaN"
             end /\
     next = fb +:+ "0"
   else first = fb +:+ "0" /\ next = fb +:+ "0").
Proof.
  intros W. split.
  - intros n -> Hne. apply fnName_named, Hne.
  - intros Hname.
    assert (E : forall s0, fnName name fb s0 = fallback_name fb s0).
    { intros s0. destruct Hname as [->| ->]; reflexivity. }
    simpl. rewrite !E.
    pose proof (fallback_name_well_formed fb s W) as H1.
    assert (W1 : well_formed (fallback_name fb s).2)
      by exact (settled_wf (settled_fallback_name fb s W)).
    pose proof (fallback_name_well_formed fb _ W1) as H2.
    destruct (decide (fb = "__proto__")) as [Hp|Hp]; [split; assumption|].
    destruct (fallback_name_stores fb s Hp) as [c Hc]. rewrite Hc in H2.
    destruct (inherited fb); (split; [|exact H2]); rewrite H1.
    + destruct (nameCounters s !! fb); reflexivity.
    + destruct (nameCounters s !! fb); reflexivity.
Qed.

(** X16.  [describeError] marks the error it returns, and returns an error
    that is marked as it is: of two nested sources only the inner one gets
    into the message.  A [CircularReactionError] is born marked, so it is
    never labelled. *)
Theorem describeError_labels_once (x : exn) (inner outer : string) (s : state) :
  let e := (describeError x inner s).1 in
  let s1 := (describeError x inner s).2 in
  err_statin e = true /\
  describeError (ExnError e) outer s1 = (e, s1) /\
  forall msg s0,
    describeError (ExnError (new_CircularReactionError msg s0).1) outer s
    = ((new_CircularReactionError msg s0).1, s).
Proof.
  simpl. pose proof (describeError_labels x inner s) as [H _]. simpl in H.
  destruct (describeError x inner s) as [e s1]. simpl in *.
  split; [exact H|]. split; [rewrite H; reflexivity|]. reflexivity.
Qed.

(** X17.  [handleOrLog] never throws.  Without a handler it logs the error;
    with one it calls it, and logs what the handler throws. *)
Theorem handleOrLog_never_throws (n : nat) (e : error) (s : state) :
  (forall h, match handleOrLog n e h s with
             | Raised _ _ => False
             | _ => True
             end) /\
  handleOrLog (S n) e None s = Done tt (console_error (ExnError e) s) /\
  (forall h r,
     handleOrLog (S n) e (Some (HandlerReaction h r)) s
     = match run n (h e (DisposeReaction r)) s with
       | Done _ s1 => Done tt s1
       | Raised x s1 => Done tt (console_error x s1)
       | OutOfFuel => OutOfFuel
       end).
Proof.
  split; [|split].
  - intros h. destruct n as [|n]; [exact I|].
    change (handleOrLog (S n) e h s) with (handleOrLog_body (engine_of n) e h s).
    unfold handleOrLog_body, try_catch, modify.
    match goal with |- context [match ?m s with _ => _ end] => destruct (m s) end; exact I.
  - reflexivity.
  - intros h r.
    change (handleOrLog (S n) e (Some (HandlerReaction h r)) s)
      with (handleOrLog_body (engine_of n) e (Some (HandlerReaction h r)) s).
    unfold handleOrLog_body, try_catch, modify, call_handler, bind, ret.
    change (k_run (engine_of n)) with (run n).
    destruct (run n (h e (DisposeReaction r)) s); reflexivity.
Qed.

(** X18.  Inside a batch a write takes effect at once and touches no other
    signal: when it returns the signal holds the value written, before any
    queued observer has run. *)
Theorem write_in_a_batch_is_stored (n : nat) (sid : sig_id) (v : value) (s : state) :
  is_Some (effectQueue s) -> disallowWrites s = false ->
  match signal_set n sid v s with
  | Done _ s' =>
      signal_value sid s' = v /\
      forall sid', sid' <> sid -> signal_value sid' s' = signal_value sid' s
  | Raised _ _ => False
  | OutOfFuel => True
  end.
Proof.
  intros Hq Hw. destruct n as [|n]; [exact I|].
  change (signal_set (S n) sid v s) with (signal_set_body (engine_of n) sid v s).
  unfold signal_set_body. rewrite Hw.
  destruct (value_eqb_spec v (signal_value sid s)) as [Heq|Hne]; simpl.
  - split; [congruence|auto].
  - change (k_signal_changed (engine_of n) sid) with (signal_changed n sid).
    fold (store sid v s).
    destruct n as [|n]; [exact I|].
    change (signal_changed (S n) sid (store sid v s))
      with (signal_changed_body (engine_of n) sid (store sid v s)).
    unfold signal_changed_body. destruct Hq as [q Hq]. simpl. rewrite Hq.
    change (k_triggerObservers (engine_of n)) with (triggerObservers n).
    pose proof (triggerObservers_delivers n (DepSignal sid) (store sid v s)
                  ltac:(simpl; rewrite Hq; eauto)) as H.
    destruct (triggerObservers n (DepSignal sid) (store sid v s)) as [[] s'|x s'|];
      [|exact H|exact I].
    destruct H as (Hc & _). destruct (cascade_keeps _ _ _ Hc) as (_ & Hsig & _).
    unfold signal_value. rewrite Hsig. simpl. split.
    + rewrite lookup_insert_eq. reflexivity.
    + intros sid' Hne'. rewrite lookup_insert_ne by congruence. reflexivity.
Qed.

(** ** The scenarios as instances *)

Lemma once_tracking_1_reached :
  run 10 (once_tracking (VNum 1) (VNum 3)) initial_state
  = Done VUndefined (once_tracking_1 (VNum 1) (VNum 3)).
Proof. vm_compute. reflexivity. Qed.

Lemma once_tracking_1_well_formed : well_formed (once_tracking_1 (VNum 1) (VNum 3)).
Proof.
  pose proof (reachable_well_formed 10 (once_tracking (VNum 1) (VNum 3))) as H.
  rewrite once_tracking_1_reached in H. exact H.
Qed.

Lemma once_tracking_1_symmetric : symmetric (once_tracking_1 (VNum 1) (VNum 3)).
Proof.
  pose proof (reachable_symmetric 10 (once_tracking (VNum 1) (VNum 3))) as H.
  rewrite once_tracking_1_reached in H. apply H.
Qed.

Lemma once_tracking_1_observer :
  observers (once_tracking_1 (VNum 1) (VNum 3)) !! 0 = Some (ObsOnce once_tracking_cell).
Proof. vm_compute. reflexivity. Qed.

Lemma once_tracking_1_stack : 0 ∉ observersStack (once_tracking_1 (VNum 1) (VNum 3)).
Proof. apply not_elem_of_nil. Qed.

Lemma once_tracking_1_queue : ~ queued 0 (once_tracking_1 (VNum 1) (VNum 3)).
Proof. apply not_elem_of_nil. Qed.

Lemma once_tracking_2_reached :
  run 12 (SignalSet 1 (VNum 4) skip) (once_tracking_1 (VNum 1) (VNum 3))
  = Done VUndefined (once_tracking_2 (VNum 1) (VNum 3) (VNum 4)).
Proof. vm_compute. reflexivity. Qed.

Lemma once_tracking_2_well_formed : well_formed (once_tracking_2 (VNum 1) (VNum 3) (VNum 4)).
Proof.
  pose proof (run_settled 12 (SignalSet 1 (VNum 4) skip) _ once_tracking_1_well_formed) as H.
  rewrite once_tracking_2_reached in H. apply H.
Qed.

Lemma once_tracking_2_idle : idle 0 (once_tracking_2 (VNum 1) (VNum 3) (VNum 4)).
Proof.
  split.
  - exists (ObsOnce once_tracking_cell). vm_compute. reflexivity.
  - vm_compute. reflexivity.
  - apply not_elem_of_nil.
  - intros d. unfold observers_of.
    assert (E : observerMap (once_tracking_2 (VNum 1) (VNum 3) (VNum 4)) = ∅)
      by (vm_compute; reflexivity).
    rewrite E, lookup_empty. apply not_elem_of_nil.
  - apply not_elem_of_nil.
Qed.



Lemma guard_0_reached : run 20 guard_setup initial_state = Done VUndefined guard_0.
Proof. vm_compute. reflexivity. Qed.

Lemma guard_1_well_formed : well_formed guard_1.
Proof.
  pose proof (reachable_well_formed 20 guard_setup) as H. rewrite guard_0_reached in H.
  assert (E : guard_1 = set_effectQueue (Some []) (set_disallowWrites true guard_0))
    by (vm_compute; reflexivity).
  rewrite E. apply wf_queue_reset.
  - intros o Ho. inversion Ho.
  - apply (settled_wf (settled_disallowWrites true guard_0 H)).
Qed.


(** ** Instances of the properties *)

Lemma clearDependencies_removes_all_edges_witness :
  symmetric (once_tracking_1 (VNum 1) (VNum 3)) /\
  observers_of (once_tracking_1 (VNum 1) (VNum 3)) (DepSignal 0) = [0] /\
  forall d, 0 ∉ observers_of (clearDependencies 0 (once_tracking_1 (VNum 1) (VNum 3))) d.
Proof.
  split; [exact once_tracking_1_symmetric|]. split; [vm_compute; reflexivity|].
  apply (clearDependencies_removes_all_edges 0 _ once_tracking_1_symmetric).
Defined.

Lemma registry_stays_consistent_witness :
  consistent initial_state /\
  exists s', run 10 (once_tracking (VNum 1) (VNum 3)) initial_state = Done VUndefined s' /\
             consistent s'.
Proof.
  split; [exact initial_state_consistent|].
  exists (once_tracking_1 (VNum 1) (VNum 3)). split; [exact once_tracking_1_reached|].
  pose proof (registry_stays_consistent 10 (once_tracking (VNum 1) (VNum 3)) initial_state
                initial_state_consistent) as H.
  rewrite once_tracking_1_reached in H. exact H.
Defined.



Lemma batch_holds_observers_back_witness :
  well_formed guard_1 /\ is_Some (effectQueue guard_1) /\
  exists v s',
    run 10 (SignalChanged 0 skip) guard_1 = Done v s' /\
    effectQueue s' = Some [0] /\
    observer_calls 0 (trace s') = observer_calls 0 (trace guard_1).
Proof.
  split; [exact guard_1_well_formed|]. split; [exists []; reflexivity|].
  pose proof (batch_holds_observers_back 10 (SignalChanged 0 skip) guard_1 guard_1_well_formed
                ltac:(exists []; reflexivity)) as H.
  destruct (run 10 (SignalChanged 0 skip) guard_1) as [v s'|x s'|] eqn:E.
  - exists v, s'. split; [reflexivity|]. destruct H as (_ & _ & H). split.
    + vm_compute in E. injection E as _ <-. reflexivity.
    + apply H. vm_compute in E. injection E as _ <-. reflexivity.
  - vm_compute in E. discriminate.
  - vm_compute in E. discriminate.
Defined.


Lemma idle_observers_are_never_called_witness :
  well_formed (once_tracking_2 (VNum 1) (VNum 3) (VNum 4)) /\
  idle 0 (once_tracking_2 (VNum 1) (VNum 3) (VNum 4)) /\
  exists v s',
    run 12 (SignalSet 0 (VNum 2) skip) (once_tracking_2 (VNum 1) (VNum 3) (VNum 4)) = Done v s' /\
    signal_value 0 s' = VNum 2 /\
    observer_calls 0 (trace s')
    = observer_calls 0 (trace (once_tracking_2 (VNum 1) (VNum 3) (VNum 4))).
Proof.
  split; [exact once_tracking_2_well_formed|]. split; [exact once_tracking_2_idle|].
  pose proof (idle_observers_are_never_called 12 (SignalSet 0 (VNum 2) skip) _ 0
                once_tracking_2_well_formed once_tracking_2_idle) as H.
  destruct (run 12 (SignalSet 0 (VNum 2) skip) (once_tracking_2 (VNum 1) (VNum 3) (VNum 4)))
    as [v s'|x s'|] eqn:E.
  - exists v, s'. split; [reflexivity|]. split; [|apply H].
    vm_compute in E. injection E as _ <-. reflexivity.
  - vm_compute in E. discriminate.
  - vm_compute in E. discriminate.
Defined.


Lemma dispose_retires_the_observer_witness :
  symmetric (once_tracking_1 (VNum 1) (VNum 3)) /\
  observers (once_tracking_1 (VNum 1) (VNum 3)) !! 0 = Some (ObsOnce once_tracking_cell) /\
  (0 ∉ observersStack (once_tracking_1 (VNum 1) (VNum 3))) /\
  observers_of (once_tracking_1 (VNum 1) (VNum 3)) (DepSignal 1) = [0] /\
  idle 0 (call_disposer (DisposeOnce 0) (once_tracking_1 (VNum 1) (VNum 3))).
Proof.
  split; [exact once_tracking_1_symmetric|]. split; [exact once_tracking_1_observer|].
  split; [exact once_tracking_1_stack|]. split; [vm_compute; reflexivity|].
  destruct (dispose_retires_the_observer 0 once_tracking_cell _ once_tracking_1_symmetric
              once_tracking_1_observer once_tracking_1_stack) as [H _].
  exact (H once_tracking_1_queue).
Defined.




Lemma fnName_counter_never_counts_witness :
  well_formed initial_state /\
  ((fnName None "Action" initial_state).1 = "Action0" /\
   (fnName None "Action" (fnName None "Action" initial_state).2).1 = "Action0") /\
  ((fnName None "constructor" initial_state).1 = "constructorNaN" /\
   (fnName None "constructor" (fnName None "constructor" initial_state).2).1
   = "constructor0") /\
  fnName (Some "tick") "Action" initial_state = ("tick", initial_state).
Proof.
  split; [exact initial_state_well_formed|]. split; [|split].
  - exact (proj2 (fnName_counter_never_counts None "Action" initial_state
                    initial_state_well_formed) (or_introl eq_refl)).
  - exact (proj2 (fnName_counter_never_counts None "constructor" initial_state
                    initial_state_well_formed) (or_introl eq_refl)).
  - apply (proj1 (fnName_counter_never_counts (Some "tick") "Action" initial_state
                    initial_state_well_formed) "tick" eq_refl).
    discriminate.
Defined.

Lemma write_in_a_batch_is_stored_witness :
  is_Some (effectQueue (set_effectQueue (Some []) (once_tracking_1 (VNum 1) (VNum 3)))) /\
  disallowWrites (set_effectQueue (Some []) (once_tracking_1 (VNum 1) (VNum 3))) = false /\
  exists s',
    signal_set 10 1 (VNum 4) (set_effectQueue (Some []) (once_tracking_1 (VNum 1) (VNum 3)))
    = Done tt s' /\
    signal_value 1 s' = VNum 4 /\ effectQueue s' = Some [0].
Proof.
  split; [exists []; reflexivity|]. split; [reflexivity|].
  pose proof (write_in_a_batch_is_stored 10 1 (VNum 4)
                (set_effectQueue (Some []) (once_tracking_1 (VNum 1) (VNum 3)))
                ltac:(exists []; reflexivity) eq_refl) as H.
  destruct (signal_set 10 1 (VNum 4) _) as [[] s'|x s'|] eqn:E.
  - exists s'. split; [reflexivity|]. split; [apply H|].
    vm_compute in E. injection E as <-. reflexivity.
  - destruct H.
  - vm_compute in E. discriminate.
Defined.


